(** * Billing services: event bus adapter, invoice lifecycle, payments,
      discounts and taxes.

    A shallow embedding of the service, repository and publisher layers of the
    four billing services.  Conventions used throughout:

    - [Decimal] amounts are exact rationals ([Q]); Python compares decimals
      numerically, so comparisons use [Qeq_bool] / [Qle_bool].  A [float] is
      the rational it denotes, and [float(x)] is [float_of x], the binary64
      number nearest to [x]; a [Float] column holds such numbers.
    - [datetime.utcnow()] is the parameter [now] of the operation that reads it.
    - A table is the list of its rows in insertion order; a query with
      [.first()] is [find] on that list.
    - [async] functions run to completion; a raised exception is the outcome
      [Raise], and the state reached before the raise is kept (commits are
      not rolled back).
    - The functions are modelled on the parameter types they declare;
      validation of request bodies happens before they are called.  Of the
      checks made below them, those are modelled that calls coming from the
      routes run into: the length and the uniqueness of
      [invoices.invoice_number], the length of [payments.invoice_number], the
      uniqueness of [payments.transaction_reference], and the required
      [description] of the tax service's [TaxRule] schema.  A violation is
      the exception the database driver or pydantic raises, with nothing
      stored by the failing statement. *)

From Stdlib Require Import List String Bool Arith ZArith QArith Lia DecimalString.
Import ListNotations.
Close Scope Q_scope.
Local Open Scope string_scope.

Set Implicit Arguments.
Set Warnings "-register-all".

(** ** Exceptions and the state-and-exception monad *)

Inductive exn : Type :=
| HTTPException (status_code : nat) (detail : string)
| BrokerError (what : string)
| TypeError (what : string)
| AttributeError (what : string)
| DataError (what : string)             (* sqlalchemy.exc.DataError *)
| IntegrityError (what : string)        (* sqlalchemy.exc.IntegrityError *)
| ValidationError (what : string).      (* pydantic.ValidationError *)

Inductive outcome (A : Type) : Type :=
| Return (a : A)
| Raise (e : exn).

Arguments Return {A} a.
Arguments Raise {A} e.

Definition M (S A : Type) : Type := S -> outcome A * S.

Definition ret {S A : Type} (a : A) : M S A := fun s => (Return a, s).

Definition raise {S A : Type} (e : exn) : M S A := fun s => (Raise e, s).

Definition bind {S A B : Type} (m : M S A) (k : A -> M S B) : M S B :=
  fun s =>
    match m s with
    | (Return a, s') => k a s'
    | (Raise e, s') => (Raise e, s')
    end.

(** [try: body except Exception as e: handler e] *)
Definition try_except {S A : Type} (body : M S A) (handler : exn -> M S A) : M S A :=
  fun s =>
    match body s with
    | (Return a, s') => (Return a, s')
    | (Raise e, s') => handler e s'
    end.

Definition gets {S A : Type} (f : S -> A) : M S A := fun s => (Return (f s), s).

Definition modify {S : Type} (f : S -> S) : M S unit := fun s => (Return tt, f s).

(** Run a computation on a component of a larger state. *)
Definition zoom {S T A : Type} (proj : T -> S) (inj : S -> T -> T) (m : M S A) : M T A :=
  fun t => let (r, s') := m (proj t) in (r, inj s' t).

Declare Scope monad_scope.
Delimit Scope monad_scope with monad.
Notation "x <- c ;; k" := (bind c (fun x => k))
  (at level 61, c at next level, right associativity) : monad_scope.
Notation "c ;;; k" := (bind c (fun _ => k))
  (at level 61, right associativity) : monad_scope.
Local Open Scope monad_scope.

(** ** Python values carried in dictionaries and event payloads *)

Inductive value : Type :=
| VNone
| VBool (b : bool)
| VInt (n : nat)
| VNum (q : Q)
| VStr (s : string)
| VTime (t : nat)                       (* an ISO-8601 string of instant t *)
| VList (l : list value)
| VDict (d : list (string * value))
| VObject (repr : string).              (* an object json.dumps rejects *)

Definition dict : Type := list (string * value).

(** [d.get(key, default)] *)
Fixpoint dict_get (d : dict) (key : string) (default : value) : value :=
  match d with
  | [] => default
  | (k, v) :: d' => if String.eqb k key then v else dict_get d' key default
  end.

(** [json.dumps] succeeds exactly on values built without [VObject]. *)
Fixpoint serialisable (v : value) : bool :=
  match v with
  | VObject _ => false
  | VList l => forallb serialisable l
  | VDict d => forallb (fun kv => serialisable (snd kv)) d
  | _ => true
  end.

Definition Qlt_bool (a b : Q) : bool := negb (Qle_bool b a).

(** ** [float(x)]: rounding to binary64 *)

(** [n / d] rounded to the nearest integer, a tie going to the even one;
    [n] is not negative and [d] is positive. *)
Definition round_half_even (n d : Z) : Z :=
  let q := (n / d)%Z in
  let r := (n mod d)%Z in
  match (2 * r ?= d)%Z with
  | Lt => q
  | Gt => (q + 1)%Z
  | Eq => if Z.even q then q else (q + 1)%Z
  end.

(** The exponent of the last place of the binary64 numbers around [n / d]:
    the [e] with [2^52 <= (n / d) / 2^e < 2^53], and -1074 for the
    subnormal numbers below that range. *)
Definition binary64_exponent (n d : Z) : Z :=
  let k := (Z.log2 n - Z.log2 d)%Z in
  let below := if (0 <=? k)%Z then (n <? d * 2 ^ k)%Z else (n * 2 ^ (- k) <? d)%Z in
  Z.max ((if below then k - 1 else k) - 52) (-1074).

Definition float_of_positive (n d : Z) : Q :=
  let e := binary64_exponent n d in
  if (0 <=? e)%Z
  then inject_Z (round_half_even n (d * 2 ^ e) * 2 ^ e)
  else Qmake (round_half_even (n * 2 ^ (- e)) d) (Z.to_pos (2 ^ (- e))).

(** [float(x)] for a [Decimal], an [int] or a [float] [x]: the binary64
    number nearest to [x], ties to even, given as the rational it denotes.
    Numbers of magnitude [2^1024] and more, which Python turns into [inf],
    are outside the model: no amount of that size is considered. *)
Definition float_of (x : Q) : Q :=
  match Qnum x with
  | Z0 => 0%Q
  | Zpos n => Qred (float_of_positive (Zpos n) (Zpos (Qden x)))
  | Zneg n => Qred (Qopp (float_of_positive (Zpos n) (Zpos (Qden x))))
  end.


(** Truthiness of a value, as [if v:] and [not v] read it. *)
Definition truthy (v : value) : bool :=
  match v with
  | VNone => false
  | VBool b => b
  | VInt n => negb (Nat.eqb n 0)
  | VNum q => negb (Qeq_bool q 0)
  | VStr s => negb (String.eqb s "")
  | VTime _ => true
  | VList l => match l with [] => false | _ :: _ => true end
  | VDict d => match d with [] => false | _ :: _ => true end
  | VObject _ => true
  end.

(** [s.endswith(suffix)] *)
Definition endswith (s suffix : string) : bool :=
  let n := String.length s in
  let k := String.length suffix in
  if Nat.leb k n then String.eqb (substring (n - k) k s) suffix else false.

(** [v == s] for a string literal [s] *)
Definition is_str (v : value) (s : string) : bool :=
  match v with
  | VStr x => String.eqb x s
  | _ => false
  end.

Definition opt_str (o : option string) : value :=
  match o with Some s => VStr s | None => VNone end.

(** Truthiness of an optional string: [None] and the empty string are falsy. *)
Definition truthy_str (o : option string) : option string :=
  match o with
  | Some s => if String.eqb s "" then None else Some s
  | None => None
  end.

(** ** Event bus adapter: [EventPublisher] / [BaseEventPublisher] *)

Module Events.

Inductive ident : Type :=
| Uuid (n : nat)            (* str(uuid.uuid4()), the n-th one drawn *)
| Given (s : string).       (* a caller-supplied string *)

Inductive DeliveryMode : Type := NOT_PERSISTENT | PERSISTENT.

(** The dictionary [event] built by [publish_event]. *)
Record Envelope : Type := {
  event_id : ident;
  event_type : value;
  timestamp : nat;
  correlation_id : ident;
  source_service : option string;
  payload : value
}.

(** [aio_pika.Message] together with the routing key it was published under. *)
Record Message : Type := {
  body : Envelope;
  content_type : string;
  delivery_mode : DeliveryMode;
  msg_correlation_id : option string;
  message_id : ident;
  routing_key : string
}.

(** What the broker does when asked: each call either succeeds or raises. *)
Record BrokerEnv : Type := {
  connect_robust_ok : bool;
  channel_ok : bool;
  declare_exchange_ok : bool;
  get_exchange_ok : bool;
  publish_ok : bool;
  close_ok : bool
}.

(** The publisher object and the part of the outside world it touches. *)
Record Publisher : Type := {
  connection : bool;          (* self.connection is not None *)
  channel : bool;             (* self.channel is not None *)
  connected : bool;           (* self.connected *)
  connect_calls : nat;        (* calls of aio_pika.connect_robust so far *)
  uuids_drawn : nat;          (* calls of uuid.uuid4 so far *)
  exchange : list Message     (* messages accepted by billing_events, oldest first *)
}.

(** [EventPublisher.__init__] *)
Definition init : Publisher :=
  {| connection := false; channel := false; connected := false;
     connect_calls := 0; uuids_drawn := 0; exchange := [] |}.

Definition set_connected (b : bool) (p : Publisher) : Publisher :=
  {| connection := connection p; channel := channel p; connected := b;
     connect_calls := connect_calls p; uuids_drawn := uuids_drawn p;
     exchange := exchange p |}.

Section WithBroker.

Variable env : BrokerEnv.

(** [aio_pika.connect_robust(url)] assigned to [self.connection] *)
Definition connect_robust : M Publisher unit :=
  fun p =>
    let p1 := {| connection := connection p; channel := channel p;
                 connected := connected p;
                 connect_calls := S (connect_calls p);
                 uuids_drawn := uuids_drawn p; exchange := exchange p |} in
    if connect_robust_ok env
    then (Return tt,
          {| connection := true; channel := channel p1; connected := connected p1;
             connect_calls := connect_calls p1; uuids_drawn := uuids_drawn p1;
             exchange := exchange p1 |})
    else (Raise (BrokerError "connect_robust"), p1).

(** [self.connection.channel()] assigned to [self.channel] *)
Definition open_channel : M Publisher unit :=
  fun p =>
    if channel_ok env
    then (Return tt,
          {| connection := connection p; channel := true; connected := connected p;
             connect_calls := connect_calls p; uuids_drawn := uuids_drawn p;
             exchange := exchange p |})
    else (Raise (BrokerError "channel"), p).

(** [self.channel.declare_exchange("billing_events", TOPIC, durable=True)] *)
Definition declare_exchange : M Publisher unit :=
  fun p =>
    if declare_exchange_ok env then (Return tt, p)
    else (Raise (BrokerError "declare_exchange"), p).

(** [self.channel.get_exchange("billing_events")] *)
Definition get_exchange : M Publisher unit :=
  fun p =>
    if get_exchange_ok env then (Return tt, p)
    else (Raise (BrokerError "get_exchange"), p).

(** [connect]: a no-op when already connected; any failure is absorbed
    and leaves [connected = False]. *)
Definition connect : M Publisher unit :=
  c <- gets connected ;;
  if c then ret tt
  else
    try_except
      (connect_robust ;;;
       open_channel ;;;
       declare_exchange ;;;
       modify (set_connected true))
      (fun _ => modify (set_connected false)).

(** [self.connection.close()] *)
Definition close : M Publisher unit :=
  fun p =>
    if close_ok env then (Return tt, p)
    else (Raise (BrokerError "close"), p).

(** [disconnect]: the call of [close] stands in no [try] block, so a
    failure of it reaches the caller with [connected] still set. *)
Definition disconnect : M Publisher unit :=
  p <- gets (fun p => p) ;;
  if connection p && connected p
  then close ;;; modify (set_connected false)
  else ret tt.

(** [str(uuid.uuid4())]: the uuids drawn are numbered, so that two draws
    never give the same one; that they are distinct is taken from the
    library, not shown here. *)
Definition uuid4 : M Publisher ident :=
  fun p =>
    (Return (Uuid (uuids_drawn p)),
     {| connection := connection p; channel := channel p; connected := connected p;
        connect_calls := connect_calls p; uuids_drawn := S (uuids_drawn p);
        exchange := exchange p |}).

(** [json.dumps(event)]: raises on a value that cannot be serialised. *)
Definition json_dumps (e : Envelope) : M Publisher Envelope :=
  if serialisable (event_type e) && serialisable (payload e)
  then ret e
  else raise (TypeError "Object is not JSON serializable").

(** [exchange.publish(message, routing_key=routing_key)] *)
Definition exchange_publish (m : Message) : M Publisher unit :=
  fun p =>
    if publish_ok env
    then (Return tt,
          {| connection := connection p; channel := channel p; connected := connected p;
             connect_calls := connect_calls p; uuids_drawn := uuids_drawn p;
             exchange := exchange p ++ [m] |})
    else (Raise (BrokerError "publish"), p).

(** The envelope of [publish_event]; [service_name] is [Some] for
    [BaseEventPublisher] (which adds [source_service]) and [None] for the
    per-service [EventPublisher]. *)
Definition make_event (service_name : option string) (now : nat)
           (event_data : dict) (correlation_id : option string)
  : M Publisher Envelope :=
  eid <- uuid4 ;;
  cid <- match truthy_str correlation_id with
         | Some c => ret (Given c)
         | None => uuid4
         end ;;
  ret {| event_id := eid;
         event_type := dict_get event_data "event_type" (VStr "unknown");
         timestamp := now;
         correlation_id := cid;
         source_service := service_name;
         payload := dict_get event_data "payload" (VDict []) |}.

Definition make_message (e : Envelope) (correlation_id : option string)
           (rk : string) : Message :=
  {| body := e;
     content_type := "application/json";
     delivery_mode := PERSISTENT;
     msg_correlation_id := correlation_id;
     message_id := event_id e;
     routing_key := rk |}.

(** The [try: ... except Exception: return False] block of [publish_event]. *)
Definition try_publish (service_name : option string) (now : nat)
           (rk : string) (event_data : dict) (correlation_id : option string)
  : M Publisher bool :=
  try_except
    (event <- make_event service_name now event_data correlation_id ;;
     get_exchange ;;;
     encoded <- json_dumps event ;;
     exchange_publish (make_message encoded correlation_id rk) ;;;
     ret true)
    (fun _ => ret false).

(** [publish_event(routing_key, event_data, correlation_id)] *)
Definition publish_event (service_name : option string) (now : nat)
           (rk : string) (event_data : dict) (correlation_id : option string)
  : M Publisher bool :=
  c <- gets connected ;;
  c' <- (if negb c then connect ;;; gets connected else ret true) ;;
  if negb c' then ret false
  else try_publish service_name now rk event_data correlation_id.

(** The message [publish_event] sends from publisher state [p]. *)
Definition sent_message (service_name : option string) (now : nat) (rk : string)
           (event_data : dict) (corr : option string) (p : Publisher)
  : Message :=
  make_message
    {| event_id := Uuid (uuids_drawn p);
       event_type := dict_get event_data "event_type" (VStr "unknown");
       timestamp := now;
       correlation_id :=
         match truthy_str corr with
         | Some c => Given c
         | None => Uuid (S (uuids_drawn p))
         end;
       source_service := service_name;
       payload := dict_get event_data "payload" (VDict []) |}
    corr rk.

End WithBroker.

End Events.


(** ** Invoice service: [app.models.invoice] *)

Module invoice_models.

Inductive InvoiceStatus : Type :=
| DRAFT | ISSUED | PARTIALLY_PAID | PAID | OVERDUE | CANCELLED.

Definition InvoiceStatus_eqb (a b : InvoiceStatus) : bool :=
  match a, b with
  | DRAFT, DRAFT | ISSUED, ISSUED | PARTIALLY_PAID, PARTIALLY_PAID
  | PAID, PAID | OVERDUE, OVERDUE | CANCELLED, CANCELLED => true
  | _, _ => false
  end.

(** The string value of each member of the enum. *)
Definition InvoiceStatus_value (s : InvoiceStatus) : string :=
  match s with
  | DRAFT => "draft"
  | ISSUED => "issued"
  | PARTIALLY_PAID => "partially_paid"
  | PAID => "paid"
  | OVERDUE => "overdue"
  | CANCELLED => "cancelled"
  end.

(** A row of [invoices].  The four amounts are [Float] columns and the
    dates naive [DateTime] columns; [customer_name], [customer_email],
    [customer_address], [notes], [due_date] and [paid_date] may be NULL. *)
Record Invoice : Type := {
  id : nat;
  invoice_number : string;
  user_id : string;
  customer_id : string;
  customer_name : option string;
  customer_email : option string;
  customer_address : option string;
  subtotal : Q;
  tax_amount : Q;
  discount_amount : Q;
  total_amount : Q;
  status : InvoiceStatus;
  notes : option string;
  issue_date : nat;
  due_date : option nat;
  paid_date : option nat;
  created_at : nat;
  updated_at : nat
}.

Record InvoiceItem : Type := {
  item_id : nat;
  item_invoice_id : nat;
  description : string;
  quantity : Q;
  unit_price : Q;
  amount : Q
}.

Record InvoicePayment : Type := {
  ip_id : nat;
  ip_invoice_id : nat;
  payment_id : string;
  ip_amount : Q;
  payment_date : nat;
  payment_method : string;
  transaction_reference : option string;
  ip_created_at : nat
}.

(** A [datetime] given as a value.  The columns hold naive datetimes; an
    aware one never equals a naive one, and for it [stored] is the naive
    time that the database keeps when it is written to a column. *)
Inductive datetime : Type :=
| Naive (t : nat)
| Aware (stored : nat).

(** The value a [DateTime] column holds after the datetime was written. *)
Definition wall (v : datetime) : nat :=
  match v with
  | Naive t => t
  | Aware stored => stored
  end.

(** A key of [update_data] that names no attribute of the [Invoice]
    object; the keys are numbered. *)
Inductive other_key : Type := OtherKey (n : nat).

(** One entry [key: value] of the [update_data] dictionary; the keys of a
    dictionary are distinct.  A key that names a column carries a value of
    the column's type: text, a number of any kind for an amount, a
    datetime, and [None] where the column may be NULL and the route's
    schema lets it through.  [upd_other] is an entry whose key names no
    attribute of the object, so that [hasattr] is false for it.  Entries
    under the remaining attribute names (the primary key [id], the
    relationships [items] and [payments], and what the class inherits) and
    values of another type are not covered. *)
Inductive update_entry : Type :=
| upd_invoice_number (v : string)
| upd_user_id (v : string)
| upd_customer_id (v : string)
| upd_customer_name (v : option string)
| upd_customer_email (v : option string)
| upd_customer_address (v : option string)
| upd_subtotal (v : Q)
| upd_tax_amount (v : Q)
| upd_discount_amount (v : Q)
| upd_total_amount (v : Q)
| upd_status (v : InvoiceStatus)
| upd_notes (v : option string)
| upd_issue_date (v : datetime)
| upd_due_date (v : option datetime)
| upd_paid_date (v : option datetime)
| upd_created_at (v : datetime)
| upd_updated_at (v : datetime)
| upd_other (key : other_key) (v : value).

(** The free text of a history row, kept structured: the formatted strings
    [Invoice N created], [Status changed from A to B] and the joined
    [key: old -> new] list. *)
Inductive history_details : Type :=
| Created (number : string)
| StatusChanged (old new : InvoiceStatus)
| Updated (changes : list (update_entry * update_entry)).

Record InvoiceHistory : Type := {
  h_id : nat;
  h_invoice_id : nat;
  h_user_id : string;
  action : string;
  details : history_details;
  h_created_at : nat
}.

(** Attribute assignment on an [Invoice] object, one function per column written. *)
Definition with_status (v : InvoiceStatus) (i : Invoice) : Invoice :=
  {| id := id i; invoice_number := invoice_number i; user_id := user_id i;
     customer_id := customer_id i; customer_name := customer_name i;
     customer_email := customer_email i; customer_address := customer_address i;
     subtotal := subtotal i; tax_amount := tax_amount i;
     discount_amount := discount_amount i; total_amount := total_amount i;
     status := v; notes := notes i; issue_date := issue_date i;
     due_date := due_date i; paid_date := paid_date i;
     created_at := created_at i; updated_at := updated_at i |}.

Definition with_paid_date (v : option nat) (i : Invoice) : Invoice :=
  {| id := id i; invoice_number := invoice_number i; user_id := user_id i;
     customer_id := customer_id i; customer_name := customer_name i;
     customer_email := customer_email i; customer_address := customer_address i;
     subtotal := subtotal i; tax_amount := tax_amount i;
     discount_amount := discount_amount i; total_amount := total_amount i;
     status := status i; notes := notes i; issue_date := issue_date i;
     due_date := due_date i; paid_date := v;
     created_at := created_at i; updated_at := updated_at i |}.

Definition with_updated_at (v : nat) (i : Invoice) : Invoice :=
  {| id := id i; invoice_number := invoice_number i; user_id := user_id i;
     customer_id := customer_id i; customer_name := customer_name i;
     customer_email := customer_email i; customer_address := customer_address i;
     subtotal := subtotal i; tax_amount := tax_amount i;
     discount_amount := discount_amount i; total_amount := total_amount i;
     status := status i; notes := notes i; issue_date := issue_date i;
     due_date := due_date i; paid_date := paid_date i;
     created_at := created_at i; updated_at := v |}.

(** [getattr(invoice, key)] for the key of entry [e], as an entry of the same key. *)
Definition current (i : Invoice) (e : update_entry) : update_entry :=
  match e with
  | upd_invoice_number _ => upd_invoice_number (invoice_number i)
  | upd_user_id _ => upd_user_id (user_id i)
  | upd_customer_id _ => upd_customer_id (customer_id i)
  | upd_customer_name _ => upd_customer_name (customer_name i)
  | upd_customer_email _ => upd_customer_email (customer_email i)
  | upd_customer_address _ => upd_customer_address (customer_address i)
  | upd_subtotal _ => upd_subtotal (subtotal i)
  | upd_tax_amount _ => upd_tax_amount (tax_amount i)
  | upd_discount_amount _ => upd_discount_amount (discount_amount i)
  | upd_total_amount _ => upd_total_amount (total_amount i)
  | upd_status _ => upd_status (status i)
  | upd_notes _ => upd_notes (notes i)
  | upd_issue_date _ => upd_issue_date (Naive (issue_date i))
  | upd_due_date _ => upd_due_date (option_map Naive (due_date i))
  | upd_paid_date _ => upd_paid_date (option_map Naive (paid_date i))
  | upd_created_at _ => upd_created_at (Naive (created_at i))
  | upd_updated_at _ => upd_updated_at (Naive (updated_at i))
  | upd_other k v => upd_other k v
  end.

(** [hasattr(invoice, key)]: true for the key of a column, false for a key
    that names no attribute. *)
Definition hasattr (e : update_entry) : bool :=
  match e with
  | upd_other _ _ => false
  | _ => true
  end.

(** [stored == v] for a column value and a datetime given: an aware
    datetime equals no naive one. *)
Definition datetime_eqb (stored : nat) (v : datetime) : bool :=
  match v with
  | Naive t => Nat.eqb stored t
  | Aware _ => false
  end.

Definition option_datetime_eqb (stored : option nat) (v : option datetime) : bool :=
  match stored, v with
  | Some t, Some x => datetime_eqb t x
  | None, None => true
  | _, _ => false
  end.

Definition option_eqb {A : Type} (eqb : A -> A -> bool) (a b : option A) : bool :=
  match a, b with
  | Some x, Some y => eqb x y
  | None, None => true
  | _, _ => false
  end.

(** [getattr(invoice, key) != value]: the value the object holds, which is
    the stored one, against the value given.  Numbers are compared by
    value, whatever their kind. *)
Definition differs (i : Invoice) (e : update_entry) : bool :=
  match e with
  | upd_invoice_number v => negb (String.eqb (invoice_number i) v)
  | upd_user_id v => negb (String.eqb (user_id i) v)
  | upd_customer_id v => negb (String.eqb (customer_id i) v)
  | upd_customer_name v => negb (option_eqb String.eqb (customer_name i) v)
  | upd_customer_email v => negb (option_eqb String.eqb (customer_email i) v)
  | upd_customer_address v => negb (option_eqb String.eqb (customer_address i) v)
  | upd_subtotal v => negb (Qeq_bool (subtotal i) v)
  | upd_tax_amount v => negb (Qeq_bool (tax_amount i) v)
  | upd_discount_amount v => negb (Qeq_bool (discount_amount i) v)
  | upd_total_amount v => negb (Qeq_bool (total_amount i) v)
  | upd_status v => negb (InvoiceStatus_eqb (status i) v)
  | upd_notes v => negb (option_eqb String.eqb (notes i) v)
  | upd_issue_date v => negb (datetime_eqb (issue_date i) v)
  | upd_due_date v => negb (option_datetime_eqb (due_date i) v)
  | upd_paid_date v => negb (option_datetime_eqb (paid_date i) v)
  | upd_created_at v => negb (datetime_eqb (created_at i) v)
  | upd_updated_at v => negb (datetime_eqb (updated_at i) v)
  | upd_other _ _ => false
  end.

(** [setattr(invoice, key, value)], with the value as the column holds it
    once the row is written and read again by [db.refresh]: an amount as a
    float, a datetime as the naive time stored. *)
Definition setattr (i : Invoice) (e : update_entry) : Invoice :=
  let mk n u c cn ce ca st ta da tot s no isd dd pd cr up :=
    {| id := id i; invoice_number := n; user_id := u; customer_id := c;
       customer_name := cn; customer_email := ce; customer_address := ca;
       subtotal := st; tax_amount := ta; discount_amount := da;
       total_amount := tot; status := s; notes := no; issue_date := isd;
       due_date := dd; paid_date := pd; created_at := cr; updated_at := up |} in
  let n := invoice_number i in let u := user_id i in let c := customer_id i in
  let cn := customer_name i in let ce := customer_email i in
  let ca := customer_address i in let st := subtotal i in
  let ta := tax_amount i in let da := discount_amount i in
  let tot := total_amount i in let s := status i in let no := notes i in
  let isd := issue_date i in let dd := due_date i in let pd := paid_date i in
  let cr := created_at i in let up := updated_at i in
  match e with
  | upd_invoice_number v => mk v u c cn ce ca st ta da tot s no isd dd pd cr up
  | upd_user_id v => mk n v c cn ce ca st ta da tot s no isd dd pd cr up
  | upd_customer_id v => mk n u v cn ce ca st ta da tot s no isd dd pd cr up
  | upd_customer_name v => mk n u c v ce ca st ta da tot s no isd dd pd cr up
  | upd_customer_email v => mk n u c cn v ca st ta da tot s no isd dd pd cr up
  | upd_customer_address v => mk n u c cn ce v st ta da tot s no isd dd pd cr up
  | upd_subtotal v => mk n u c cn ce ca (float_of v) ta da tot s no isd dd pd cr up
  | upd_tax_amount v => mk n u c cn ce ca st (float_of v) da tot s no isd dd pd cr up
  | upd_discount_amount v => mk n u c cn ce ca st ta (float_of v) tot s no isd dd pd cr up
  | upd_total_amount v => mk n u c cn ce ca st ta da (float_of v) s no isd dd pd cr up
  | upd_status v => mk n u c cn ce ca st ta da tot v no isd dd pd cr up
  | upd_notes v => mk n u c cn ce ca st ta da tot s v isd dd pd cr up
  | upd_issue_date v => mk n u c cn ce ca st ta da tot s no (wall v) dd pd cr up
  | upd_due_date v => mk n u c cn ce ca st ta da tot s no isd (option_map wall v) pd cr up
  | upd_paid_date v => mk n u c cn ce ca st ta da tot s no isd dd (option_map wall v) cr up
  | upd_created_at v => mk n u c cn ce ca st ta da tot s no isd dd pd (wall v) up
  | upd_updated_at v => mk n u c cn ce ca st ta da tot s no isd dd pd cr (wall v)
  | upd_other _ _ => i
  end.

End invoice_models.


(** ** Invoice service: [app.repositories.invoice_repository] *)

Module invoice_repository.

Import invoice_models.

(** The tables of the invoice database, rows in insertion order. *)
Record Db : Type := {
  invoices : list Invoice;
  invoice_items : list InvoiceItem;
  invoice_payments : list InvoicePayment;
  invoice_history : list InvoiceHistory
}.

Definition empty_db : Db :=
  {| invoices := []; invoice_items := []; invoice_payments := [];
     invoice_history := [] |}.

(** [db.commit()] after attributes of a loaded row were assigned: the row
    with the same primary key is replaced. *)
Definition commit (i : Invoice) (d : Db) : Db :=
  {| invoices := map (fun r => if Nat.eqb (id r) (id i) then i else r) (invoices d);
     invoice_items := invoice_items d;
     invoice_payments := invoice_payments d;
     invoice_history := invoice_history d |}.

(** [add_history_entry] *)
Definition add_history_entry (now : nat) (invoice_id : nat) (user : string)
           (act : string) (det : history_details) (d : Db) : InvoiceHistory * Db :=
  let h := {| h_id := S (List.length (invoice_history d)); h_invoice_id := invoice_id;
              h_user_id := user; action := act; details := det;
              h_created_at := now |} in
  (h, {| invoices := invoices d; invoice_items := invoice_items d;
         invoice_payments := invoice_payments d;
         invoice_history := invoice_history d ++ [h] |}).

(** The object [db_invoice] that [create_invoice] builds, as the database
    returns it: with its id, the defaults of the date columns, and the due
    date as the column holds it.  The four amounts are floats already. *)
Definition new_invoice (now : nat) (user : string) (number : string)
           (customer customer_nm customer_em : string)
           (customer_addr : option string)
           (sub tax disc total : Q) (nts : option string)
           (due : option datetime) (st : InvoiceStatus) (d : Db) : Invoice :=
  {| id := S (List.length (invoices d)); invoice_number := number; user_id := user;
     customer_id := customer; customer_name := Some customer_nm;
     customer_email := Some customer_em; customer_address := customer_addr;
     subtotal := sub; tax_amount := tax; discount_amount := disc;
     total_amount := total; status := st; notes := nts; issue_date := now;
     due_date := option_map wall due; paid_date := None; created_at := now;
     updated_at := now |}.

(** The table with one more row. *)
Definition insert (i : Invoice) (d : Db) : Db :=
  {| invoices := invoices d ++ [i];
     invoice_items := invoice_items d;
     invoice_payments := invoice_payments d;
     invoice_history := invoice_history d |}.

(** A stored invoice has the number already. *)
Definition number_taken (d : Db) (number : string) : bool :=
  existsb (fun r => String.eqb (invoice_number r) number) (invoices d).

(** [create_invoice]: insert the row, then the [created] history entry.
    The commit of the row fails, and stores nothing, when the number does
    not fit the column of 20 characters or is that of a stored invoice (the
    column is unique). *)
Definition create_invoice (now : nat) (user : string) (number : string)
           (customer customer_nm customer_em : string)
           (customer_addr : option string)
           (sub tax disc total : Q) (nts : option string)
           (due : option datetime) (st : InvoiceStatus) : M Db Invoice :=
  fun d =>
    let db_invoice := new_invoice now user number customer customer_nm customer_em
                        customer_addr sub tax disc total nts due st d in
    if Nat.ltb 20 (String.length number)
    then (Raise (DataError "value too long for type character varying(20)"), d)
    else if number_taken d number
    then (Raise (IntegrityError "duplicate key value violates unique constraint"), d)
    else (Return db_invoice,
          snd (add_history_entry now (id db_invoice) user "created"
                                 (Created number) (insert db_invoice d))).

(** [add_invoice_item] *)
Definition add_invoice_item (invoice_id : nat) (desc : string) (qty price amt : Q)
           (d : Db) : InvoiceItem * Db :=
  let db_item := {| item_id := S (List.length (invoice_items d));
                    item_invoice_id := invoice_id; description := desc;
                    quantity := qty; unit_price := price; amount := amt |} in
  (db_item, {| invoices := invoices d;
               invoice_items := invoice_items d ++ [db_item];
               invoice_payments := invoice_payments d;
               invoice_history := invoice_history d |}).

(** [get_invoice_by_id] *)
Definition get_invoice_by_id (d : Db) (invoice_id : nat) : option Invoice :=
  find (fun r => Nat.eqb (id r) invoice_id) (invoices d).

(** The loop of [update_invoice]: assign every entry whose key is an
    attribute and whose value differs, collecting the change descriptions. *)
Fixpoint assign_entries (invoice : Invoice) (update_data : list update_entry)
         (dets : list (update_entry * update_entry))
  : Invoice * list (update_entry * update_entry) :=
  match update_data with
  | [] => (invoice, dets)
  | e :: rest =>
      if hasattr e && differs invoice e
      then assign_entries (setattr invoice e) rest (dets ++ [(current invoice e, e)])
      else assign_entries invoice rest dets
  end.

(** Another stored invoice has the number. *)
Definition number_taken_by_other (d : Db) (i : Invoice) : bool :=
  existsb (fun r => negb (Nat.eqb (id r) (id i))
                    && String.eqb (invoice_number r) (invoice_number i))
          (invoices d).

(** What the commit of an update checks of [invoice_number] when the update
    changed it: its length and its uniqueness. *)
Definition number_check (d : Db) (before after : Invoice) : option exn :=
  if String.eqb (invoice_number after) (invoice_number before) then None
  else if Nat.ltb 20 (String.length (invoice_number after))
  then Some (DataError "value too long for type character varying(20)")
  else if number_taken_by_other d after
  then Some (IntegrityError "duplicate key value violates unique constraint")
  else None.

(** [update_invoice].  When nothing differs nothing is written.  Otherwise
    the row is committed and the object returned is the row read again; the
    commit fails, and stores nothing, when the update gave the invoice a
    number that the column does not take. *)
Definition update_invoice (now : nat) (invoice : Invoice) (user : string)
           (update_data : list update_entry) : M Db Invoice :=
  fun d =>
    let (assigned, dets) := assign_entries invoice update_data [] in
    match dets with
    | [] => (Return assigned, d)
    | _ :: _ =>
        let updated := with_updated_at now assigned in
        match number_check d invoice updated with
        | Some e => (Raise e, d)
        | None =>
            (Return updated,
             snd (add_history_entry now (id updated) user "updated"
                                    (Updated dets) (commit updated d)))
        end
    end.

Definition is_none {A : Type} (o : option A) : bool :=
  match o with None => true | Some _ => false end.

(** [update_invoice_status] *)
Definition update_invoice_status (now : nat) (invoice : Invoice) (user : string)
           (st : InvoiceStatus) (d : Db) : Invoice * Db :=
  if negb (InvoiceStatus_eqb (status invoice) st)
  then
    let old_status := status invoice in
    let i1 := with_status st invoice in
    let i2 := if InvoiceStatus_eqb st PAID && is_none (paid_date i1)
              then with_paid_date (Some now) i1 else i1 in
    let i3 := with_updated_at now i2 in
    (i3, snd (add_history_entry now (id i3) user "status_change"
                                (StatusChanged old_status st) (commit i3 d)))
  else (invoice, d).

(** One later call of [update_invoice_status]: its time, caller and status. *)
Record status_update : Type := {
  su_now : nat;
  su_user : string;
  su_status : InvoiceStatus
}.

(** A run of status updates on one invoice, each applied to the row the
    previous one returned. *)
Definition update_invoice_statuses (updates : list status_update)
           (invoice : Invoice) (d : Db) : Invoice * Db :=
  fold_left (fun (st : Invoice * Db) (u : status_update) =>
               update_invoice_status (su_now u) (fst st) (su_user u) (su_status u)
                                     (snd st))
            updates (invoice, d).

(** [add_payment] *)
Definition add_payment (now : nat) (invoice_id : nat) (pid : string) (amt : Q)
           (method : string) (reference : option string) (d : Db)
  : InvoicePayment * Db :=
  let db_payment := {| ip_id := S (List.length (invoice_payments d));
                       ip_invoice_id := invoice_id; payment_id := pid;
                       ip_amount := amt; payment_date := now;
                       payment_method := method;
                       transaction_reference := reference;
                       ip_created_at := now |} in
  (db_payment, {| invoices := invoices d; invoice_items := invoice_items d;
                  invoice_payments := invoice_payments d ++ [db_payment];
                  invoice_history := invoice_history d |}).

(** [get_invoice_payments] *)
Definition get_invoice_payments (d : Db) (invoice_id : nat) : list InvoicePayment :=
  filter (fun p => Nat.eqb (ip_invoice_id p) invoice_id) (invoice_payments d).

End invoice_repository.

(** ** Invoice service: [app.core.event_publisher] *)

Module invoice_event_publisher.

Definition opt_time (o : option nat) : value :=
  match o with Some t => VTime t | None => VNone end.

Section WithBroker.

Variable env : Events.BrokerEnv.
Variable now : nat.

(** [publish_invoice_created] *)
Definition publish_invoice_created (invoice_data : dict)
           (correlation_id : option string) : M Events.Publisher bool :=
  let get k := dict_get invoice_data k VNone in
  let event_data :=
    [("event_type", VStr "invoice_created");
     ("payload",
      VDict [("invoice_id", get "id");
             ("customer_id", get "customer_id");
             ("amount", get "amount");
             ("tax_amount", get "tax_amount");
             ("discount_amount", get "discount_amount");
             ("total_amount", get "total_amount");
             ("status", get "status");
             ("created_at", dict_get invoice_data "created_at" (VTime now));
             ("due_date", get "due_date");
             ("user_id", get "user_id")])] in
  Events.publish_event env None now "invoice.created" event_data correlation_id.

(** [publish_invoice_updated] *)
Definition publish_invoice_updated (invoice_data : dict)
           (correlation_id : option string) : M Events.Publisher bool :=
  let get k := dict_get invoice_data k VNone in
  let event_data :=
    [("event_type", VStr "invoice_updated");
     ("payload",
      VDict [("invoice_id", get "id");
             ("customer_id", get "customer_id");
             ("status", get "status");
             ("updated_at", VTime now);
             ("user_id", get "user_id")])] in
  Events.publish_event env None now "invoice.updated" event_data correlation_id.

End WithBroker.

End invoice_event_publisher.


(** ** Invoice service: [app.services.invoice_service] *)

Module invoice_service.

Import invoice_models.
Import invoice_repository.

Record Settings : Type := {
  PDF_GENERATION_ENABLED : bool;
  PDF_STORAGE_PATH : string
}.

(** What a request handler of the invoice service can read and change:
    the database, the publisher singleton and the log. *)
Record World : Type := {
  db : Db;
  bus : Events.Publisher;
  log : list (string * value)
}.

Definition on_db {A : Type} (f : Db -> A * Db) : M World A :=
  fun w => let (a, d) := f (db w) in
           (Return a, {| db := d; bus := bus w; log := log w |}).

Definition in_db {A : Type} (m : M Db A) : M World A :=
  zoom db (fun d w => {| db := d; bus := bus w; log := log w |}) m.

Definition on_bus {A : Type} (m : M Events.Publisher A) : M World A :=
  zoom bus (fun b w => {| db := db w; bus := b; log := log w |}) m.

(** [logger.info(f"{msg}{arg}")] *)
Definition logger_info (msg : string) (arg : value) : M World unit :=
  modify (fun w => {| db := db w; bus := bus w; log := log w ++ [(msg, arg)] |}).

(** An element of the [items] list of [create_invoice]: a dictionary with
    the three keys read, the numbers as [Decimal(str(...))] gives them. *)
Record item_dict : Type := {
  i_description : string;
  i_quantity : Q;
  i_unit_price : Q
}.

Definition nat_str (n : nat) : string :=
  DecimalString.NilEmpty.string_of_uint (Nat.to_uint n).

(** [_generate_invoice_number]: [random_part] is the eight digits taken
    from a fresh uuid, and the timestamp is the time in seconds. *)
Definition _generate_invoice_number (now : nat) (random_part : string) : string :=
  "INV-" ++ nat_str now ++ "-" ++ random_part.

Section WithEnvironment.

Variable settings : Settings.
Variable env : Events.BrokerEnv.
Variable now : nat.

(** The [for item in items] loop of [create_invoice]. *)
Fixpoint add_items (invoice_id : nat) (items : list item_dict) : M World unit :=
  match items with
  | [] => ret tt
  | item :: rest =>
      let qty := i_quantity item in
      let price := i_unit_price item in
      let amt := (qty * price)%Q in
      on_db (add_invoice_item invoice_id (i_description item) (float_of qty)
               (float_of price) (float_of amt)) ;;;
      add_items invoice_id rest
  end.

(** [InvoiceService.create_invoice] *)
Definition create_invoice (random_part : string) (user customer : string)
           (customer_nm customer_em : string) (customer_addr : option string)
           (sub tax disc : Q) (items : list item_dict) (nts : option string)
           (due : option datetime) (st : InvoiceStatus)
           (correlation_id : option string) : M World Invoice :=
  let number := _generate_invoice_number now random_part in
  let total := (sub + tax - disc)%Q in
  db_invoice <- in_db (invoice_repository.create_invoice now user number customer
                         customer_nm customer_em customer_addr
                         (float_of sub) (float_of tax) (float_of disc)
                         (float_of total) nts due st) ;;
  add_items (id db_invoice) items ;;;
  (if negb (InvoiceStatus_eqb st DRAFT)
   then
     on_bus (invoice_event_publisher.publish_invoice_created env now
               [("id", VInt (id db_invoice));
                ("invoice_number", VStr (invoice_number db_invoice));
                ("customer_id", VStr (customer_id db_invoice));
                ("amount", VNum (float_of total));
                ("tax_amount", VNum (float_of tax));
                ("discount_amount", VNum (float_of disc));
                ("total_amount", VNum (float_of total));
                ("status", VStr (InvoiceStatus_value (status db_invoice)));
                ("created_at", VTime (created_at db_invoice));
                ("due_date", invoice_event_publisher.opt_time (due_date db_invoice));
                ("user_id", VStr user)]
               correlation_id) ;;;
     ret tt
   else ret tt) ;;;
  ret db_invoice.

(** [InvoiceService.get_invoice] *)
Definition get_invoice (invoice_id : nat) (user : string) : M World Invoice :=
  d <- gets db ;;
  match get_invoice_by_id d invoice_id with
  | None =>
      raise (HTTPException 404 ("Invoice with ID " ++ nat_str invoice_id ++ " not found"))
  | Some invoice =>
      if negb (String.eqb (user_id invoice) user)
      then raise (HTTPException 403 "Not authorized to access this invoice")
      else ret invoice
  end.

(** [InvoiceService.update_invoice] *)
Definition update_invoice (invoice_id : nat) (user : string)
           (update_data : list update_entry) (correlation_id : option string)
  : M World Invoice :=
  invoice <- get_invoice invoice_id user ;;
  if negb (InvoiceStatus_eqb (status invoice) DRAFT)
  then raise (HTTPException 400 "Can only update draft invoices")
  else in_db (invoice_repository.update_invoice now invoice user update_data).

(** [InvoiceService._generate_invoice_pdf]; creating the storage directory
    is taken to succeed. *)
Definition _generate_invoice_pdf (invoice : Invoice) : M World string :=
  let pdf_path := PDF_STORAGE_PATH settings ++ "/" ++ invoice_number invoice ++ ".pdf" in
  logger_info "PDF would be generated at: " (VStr pdf_path) ;;;
  ret pdf_path.

(** [InvoiceService.issue_invoice] *)
Definition issue_invoice (invoice_id : nat) (user : string)
           (correlation_id : option string) : M World Invoice :=
  invoice <- get_invoice invoice_id user ;;
  if negb (InvoiceStatus_eqb (status invoice) DRAFT)
  then raise (HTTPException 400
                ("Can only issue draft invoices. Current status: "
                   ++ InvoiceStatus_value (status invoice)))
  else
    updated_invoice <- on_db (update_invoice_status now invoice user ISSUED) ;;
    on_bus (invoice_event_publisher.publish_invoice_created env now
              [("id", VInt (id updated_invoice));
               ("invoice_number", VStr (invoice_number updated_invoice));
               ("customer_id", VStr (customer_id updated_invoice));
               ("amount", VNum (total_amount updated_invoice));
               ("tax_amount", VNum (tax_amount updated_invoice));
               ("discount_amount", VNum (discount_amount updated_invoice));
               ("total_amount", VNum (total_amount updated_invoice));
               ("status", VStr (InvoiceStatus_value (status updated_invoice)));
               ("created_at", VTime (created_at updated_invoice));
               ("due_date", invoice_event_publisher.opt_time (due_date updated_invoice));
               ("user_id", VStr user)]
              correlation_id) ;;;
    (if PDF_GENERATION_ENABLED settings
     then _generate_invoice_pdf updated_invoice ;;; ret tt
     else ret tt) ;;;
    ret updated_invoice.

(** [InvoiceService.cancel_invoice] *)
Definition cancel_invoice (invoice_id : nat) (user : string)
           (correlation_id : option string) : M World Invoice :=
  invoice <- get_invoice invoice_id user ;;
  if InvoiceStatus_eqb (status invoice) PAID
  then raise (HTTPException 400 "Cannot cancel paid invoices")
  else
    updated_invoice <- on_db (update_invoice_status now invoice user CANCELLED) ;;
    on_bus (invoice_event_publisher.publish_invoice_updated env now
              [("id", VInt (id updated_invoice));
               ("invoice_number", VStr (invoice_number updated_invoice));
               ("customer_id", VStr (customer_id updated_invoice));
               ("status", VStr (InvoiceStatus_value (status updated_invoice)));
               ("user_id", VStr user)]
              correlation_id) ;;;
    ret updated_invoice.

(** [handle_payment_received]: the registered consumer of [payment_received]
    events.  Its body is one log call. *)
Definition handle_payment_received (event : dict) : M World unit :=
  logger_info "Handling payment_received event: " (dict_get event "event_id" VNone).

End WithEnvironment.

End invoice_service.


(** ** Invoice service: the total invariant *)

Module invoice_invariants.

Import invoice_models.

(** [total_amount == subtotal + tax_amount - discount_amount] *)
Definition consistent (i : Invoice) : Prop :=
  (total_amount i == subtotal i + tax_amount i - discount_amount i)%Q.






End invoice_invariants.

(** ** Invoice service: requests against one invoice *)

Module invoice_requests.

Import invoice_models.

(** A call that reaches the service for a given invoice: one of the three
    mutating routes, or the delivery of a [payment_received] event. *)
Inductive command : Type :=
| Update (user : string) (update_data : list update_entry) (corr : option string)
| Issue (user : string) (corr : option string)
| Cancel (user : string) (corr : option string)
| PaymentReceived (event : dict).

(** A command with the environment it runs in. *)
Record request : Type := {
  req_settings : invoice_service.Settings;
  req_env : Events.BrokerEnv;
  req_now : nat;
  req_command : command
}.

(** Run one request against invoice [k]; the HTTP layer turns a raised
    exception into an error response, so the world goes on from the state
    reached. *)
Definition execute (k : nat) (r : request) (w : invoice_service.World)
  : invoice_service.World :=
  match req_command r with
  | Update user update_data corr =>
      snd (invoice_service.update_invoice (req_now r) k user update_data corr w)
  | Issue user corr =>
      snd (invoice_service.issue_invoice (req_settings r) (req_env r) (req_now r)
             k user corr w)
  | Cancel user corr =>
      snd (invoice_service.cancel_invoice (req_env r) (req_now r) k user corr w)
  | PaymentReceived event =>
      snd (invoice_service.handle_payment_received event w)
  end.

Definition execute_all (k : nat) (rs : list request) (w : invoice_service.World)
  : invoice_service.World :=
  fold_left (fun w r => execute k r w) rs w.

End invoice_requests.

(** ** Payment service: [app.models.payment] *)

Module payment_models.

Inductive PaymentStatus : Type :=
| PENDING | PROCESSING | COMPLETED | FAILED | REFUNDED.

Definition PaymentStatus_eqb (a b : PaymentStatus) : bool :=
  match a, b with
  | PENDING, PENDING | PROCESSING, PROCESSING | COMPLETED, COMPLETED
  | FAILED, FAILED | REFUNDED, REFUNDED => true
  | _, _ => false
  end.

Definition PaymentStatus_value (s : PaymentStatus) : string :=
  match s with
  | PENDING => "pending"
  | PROCESSING => "processing"
  | COMPLETED => "completed"
  | FAILED => "failed"
  | REFUNDED => "refunded"
  end.

(** [[method.value for method in PaymentMethod]] *)
Definition PaymentMethod_values : list string :=
  ["credit_card"; "debit_card"; "bank_transfer"; "paypal"; "crypto"; "other"].

Record Payment : Type := {
  id : nat;
  user_id : string;
  invoice_id : nat;
  invoice_number : string;
  amount : Q;
  currency : string;
  payment_method : string;
  payment_method_details : option dict;
  transaction_reference : option string;
  external_reference : option string;
  status : PaymentStatus;
  status_message : option string;
  payment_date : option nat;
  created_at : nat;
  updated_at : nat
}.

Record PaymentAttempt : Type := {
  attempt_id : nat;
  payment_id : nat;
  gateway_request : dict;
  gateway_response : dict;
  success : nat;                       (* 0 = false, 1 = true *)
  error_message : option string;
  correlation_id : option string;
  attempt_created_at : nat
}.

End payment_models.

(** ** Payment service: [app.repositories.payment_repository] *)

Module payment_repository.

Import payment_models.

Record Db : Type := {
  payments : list Payment;
  payment_attempts : list PaymentAttempt
}.

Definition empty_db : Db := {| payments := []; payment_attempts := [] |}.

(** [db.commit()] after attributes of a loaded row were assigned. *)
Definition commit (p : Payment) (d : Db) : Db :=
  {| payments := map (fun r => if Nat.eqb (id r) (id p) then p else r) (payments d);
     payment_attempts := payment_attempts d |}.

(** [f"TXN-{int(datetime.utcnow().timestamp())}-{invoice_id}"] *)
Definition new_reference (now inv_id : nat) : string :=
  "TXN-" ++ DecimalString.NilEmpty.string_of_uint (Nat.to_uint now)
    ++ "-" ++ DecimalString.NilEmpty.string_of_uint (Nat.to_uint inv_id).

(** The object [db_payment] that [create_payment] builds, with the id the
    database gives it. *)
Definition new_payment (now : nat) (user : string) (inv_id : nat)
           (inv_number : string) (amt : Q) (cur : string) (method : string)
           (details : dict) (st : PaymentStatus) (d : Db) : Payment :=
  {| id := S (List.length (payments d)); user_id := user; invoice_id := inv_id;
     invoice_number := inv_number; amount := amt; currency := cur;
     payment_method := method;
     payment_method_details :=
       match details with [] => None | _ :: _ => Some details end;
     transaction_reference := Some (new_reference now inv_id);
     external_reference := None; status := st; status_message := None;
     payment_date := None; created_at := now; updated_at := now |}.

(** The table with one more row. *)
Definition insert (p : Payment) (d : Db) : Db :=
  {| payments := payments d ++ [p]; payment_attempts := payment_attempts d |}.

(** A stored payment has the transaction reference already. *)
Definition reference_taken (d : Db) (reference : string) : bool :=
  existsb (fun r => match transaction_reference r with
                    | Some t => String.eqb t reference
                    | None => false
                    end) (payments d).

(** [create_payment].  The commit fails, and stores nothing, when
    [invoice_number] does not fit its column of 20 characters, or when the
    transaction reference, which is made of the second of the call and the
    invoice id, is that of a stored payment (the column is unique). *)
Definition create_payment (now : nat) (user : string) (inv_id : nat)
           (inv_number : string) (amt : Q) (cur : string) (method : string)
           (details : dict) (st : PaymentStatus) : M Db Payment :=
  fun d =>
    let db_payment := new_payment now user inv_id inv_number amt cur method details st d in
    if Nat.ltb 20 (String.length inv_number)
    then (Raise (DataError "value too long for type character varying(20)"), d)
    else if reference_taken d (new_reference now inv_id)
    then (Raise (IntegrityError "duplicate key value violates unique constraint"), d)
    else (Return db_payment, insert db_payment d).

(** [get_payment_by_transaction_reference] *)
Definition get_payment_by_transaction_reference (d : Db) (reference : string)
  : option Payment :=
  find (fun r => match transaction_reference r with
                 | Some t => String.eqb t reference
                 | None => false
                 end) (payments d).

Definition is_some {A : Type} (o : option A) : bool :=
  match o with Some _ => true | None => false end.

(** [update_payment_status] *)
Definition update_payment_status (now : nat) (payment : Payment)
           (st : PaymentStatus) (msg : option string) (reference : option string)
           (d : Db) : Payment * Db :=
  let p :=
    {| id := id payment; user_id := user_id payment;
       invoice_id := invoice_id payment; invoice_number := invoice_number payment;
       amount := amount payment; currency := currency payment;
       payment_method := payment_method payment;
       payment_method_details := payment_method_details payment;
       transaction_reference := transaction_reference payment;
       external_reference :=
         match truthy_str reference with
         | Some r => Some r
         | None => external_reference payment
         end;
       status := st;
       status_message :=
         match truthy_str msg with
         | Some m => Some m
         | None => status_message payment
         end;
       payment_date :=
         if PaymentStatus_eqb st COMPLETED && negb (is_some (payment_date payment))
         then Some now else payment_date payment;
       created_at := created_at payment;
       updated_at := now |} in
  (p, commit p d).

(** One later call of [update_payment_status] with its arguments. *)
Record status_update : Type := {
  su_now : nat;
  su_status : PaymentStatus;
  su_message : option string;
  su_reference : option string
}.

(** A run of status updates on one payment, each applied to the row the
    previous one returned. *)
Definition update_payment_statuses (updates : list status_update)
           (payment : Payment) (d : Db) : Payment * Db :=
  fold_left (fun (st : Payment * Db) (u : status_update) =>
               update_payment_status (su_now u) (fst st) (su_status u)
                                     (su_message u) (su_reference u) (snd st))
            updates (payment, d).

(** [record_payment_attempt] *)
Definition record_payment_attempt (now : nat) (pid : nat) (request response : dict)
           (ok : bool) (err : option string) (corr : option string) (d : Db)
  : PaymentAttempt * Db :=
  let db_attempt :=
    {| attempt_id := S (List.length (payment_attempts d)); payment_id := pid;
       gateway_request := request; gateway_response := response;
       success := if ok then 1 else 0; error_message := err;
       correlation_id := corr; attempt_created_at := now |} in
  (db_attempt, {| payments := payments d;
                  payment_attempts := payment_attempts d ++ [db_attempt] |}).

(** [get_payment_attempts] (the ordering by creation time is left out) *)
Definition get_payment_attempts (d : Db) (pid : nat) : list PaymentAttempt :=
  filter (fun a => Nat.eqb (payment_id a) pid) (payment_attempts d).

End payment_repository.


(** ** Payment service: the event publisher *)

Module payment_event_publisher.

Section WithBroker.

Variable env : Events.BrokerEnv.
Variable now : nat.

(** Modelled from the spec: [app.core.event_publisher] of the payment service
    is not among the sources.  The spec names the routing keys
    [payment.received] and [payment.failed] and one publish operation shared
    by all services; the payload is the [payment_data] handed over, wrapped
    the way the invoice and discount publishers wrap theirs. *)
Definition publish_payment_received (payment_data : dict)
           (correlation_id : option string) : M Events.Publisher bool :=
  Events.publish_event env None now "payment.received"
    [("event_type", VStr "payment_received"); ("payload", VDict payment_data)]
    correlation_id.

(** Modelled from the spec: see [publish_payment_received]. *)
Definition publish_payment_failed (payment_data : dict)
           (correlation_id : option string) : M Events.Publisher bool :=
  Events.publish_event env None now "payment.failed"
    [("event_type", VStr "payment_failed"); ("payload", VDict payment_data)]
    correlation_id.

End WithBroker.

End payment_event_publisher.

(** ** Payment service: [app.services.payment_service] *)

Module payment_service.

Import payment_models.
Import payment_repository.

Record World : Type := {
  db : Db;
  bus : Events.Publisher;
  log : list (string * value)
}.

Definition on_db {A : Type} (f : Db -> A * Db) : M World A :=
  fun w => let (a, d) := f (db w) in
           (Return a, {| db := d; bus := bus w; log := log w |}).

Definition in_db {A : Type} (m : M Db A) : M World A :=
  zoom db (fun d w => {| db := d; bus := bus w; log := log w |}) m.

Definition on_bus {A : Type} (m : M Events.Publisher A) : M World A :=
  zoom bus (fun b w => {| db := db w; bus := b; log := log w |}) m.

(** [logger.error(f"{msg}{arg}")] and [logger.info(f"{msg}{arg}")] *)
Definition logger_error (msg : string) (arg : value) : M World unit :=
  modify (fun w => {| db := db w; bus := bus w; log := log w ++ [(msg, arg)] |}).

Definition logger_info (msg : string) (arg : value) : M World unit :=
  modify (fun w => {| db := db w; bus := bus w; log := log w ++ [(msg, arg)] |}).

Definition nat_str (n : nat) : string :=
  DecimalString.NilEmpty.string_of_uint (Nat.to_uint n).

(** What the HTTP call of [PaymentGateway.process_payment] does: it raises
    (connection error, timeout, undecodable body), or it returns a status
    code and a JSON body, of which the gateway reads [error.code],
    [error.message], [id] and [status] (each a string or absent). *)
Inductive HttpOutcome : Type :=
| HttpRaises (message : string)
| HttpResponse (status_code : nat) (error_code error_msg : option string)
               (data_id data_status : option string).

(** The [Optional[str]] argument read from a dictionary: the gateways put a
    string or [None] under the keys read this way; any other value is not of
    the declared type and is read as [None]. *)
Definition text_of (v : value) : option string :=
  match v with
  | VStr s => Some s
  | _ => None
  end.

Section WithEnvironment.

Variable USE_MOCK_PAYMENT_GATEWAY : bool.
Variable http : HttpOutcome.
Variable env : Events.BrokerEnv.
Variable now : nat.

(** [MockPaymentGateway.process_payment] *)
Definition mock_process_payment (amt : Q) (cur method : string)
           (payment_details metadata : dict) : M World dict :=
  match dict_get payment_details "card_number" (VStr "") with
  | VStr card_number =>
      if endswith card_number "0000"
      then ret [("success", VBool false);
                ("error_code", VStr "card_declined");
                ("error_message", VStr "Card was declined");
                ("transaction_id", VNone)]
      else ret [("success", VBool true);
                ("transaction_id", VStr ("mock-txn-" ++ nat_str now));
                ("status", VStr "completed");
                ("details", VDict [("amount", VNum amt);
                                   ("currency", VStr cur);
                                   ("payment_method", VStr method)])]
  | _ => raise (AttributeError "endswith")
  end.

(** [PaymentGateway.process_payment]: every exception of the HTTP exchange
    is turned into a [gateway_error] response. *)
Definition real_process_payment (amt : Q) (cur method : string)
           (payment_details metadata : dict) : M World dict :=
  match http with
  | HttpRaises message =>
      logger_error "Payment gateway error: " (VStr message) ;;;
      ret [("success", VBool false);
           ("error_code", VStr "gateway_error");
           ("error_message", VStr message);
           ("transaction_id", VNone)]
  | HttpResponse status_code error_code error_msg data_id data_status =>
      if Nat.leb 400 status_code
      then ret [("success", VBool false);
                ("error_code", opt_str error_code);
                ("error_message", opt_str error_msg);
                ("transaction_id", VNone)]
      else ret [("success", VBool true);
                ("transaction_id", opt_str data_id);
                ("status", opt_str data_status);
                ("details", VDict [("id", opt_str data_id);
                                   ("status", opt_str data_status)])]
  end.

(** [self.payment_gateway.process_payment], the gateway chosen in [__init__]. *)
Definition process_payment (amt : Q) (cur method : string)
           (payment_details metadata : dict) : M World dict :=
  if USE_MOCK_PAYMENT_GATEWAY
  then mock_process_payment amt cur method payment_details metadata
  else real_process_payment amt cur method payment_details metadata.

Definition opt_time (o : option nat) : value :=
  match o with Some t => VTime t | None => VNone end.

(** [PaymentService.create_payment]; the amount goes to the repository and
    to the gateway as [float(amount)]. *)
Definition create_payment (user : string) (inv_id : nat) (inv_number : string)
           (amt : Q) (method : string) (payment_details : dict)
           (corr : option string) : M World Payment :=
  if negb (existsb (String.eqb method) PaymentMethod_values)
  then raise (HTTPException 400 ("Invalid payment method: " ++ method))
  else
    db_payment <- in_db (payment_repository.create_payment now user inv_id
                           inv_number (float_of amt) "USD" method payment_details
                           PROCESSING) ;;
    response <- process_payment (float_of amt) "USD" method payment_details
                  [("user_id", VStr user);
                   ("invoice_id", VInt inv_id);
                   ("invoice_number", VStr inv_number);
                   ("payment_id", VInt (id db_payment));
                   ("correlation_id", opt_str corr)] ;;
    on_db (record_payment_attempt now (id db_payment)
             [("amount", VNum (float_of amt));
              ("currency", VStr "USD");
              ("payment_method", VStr method);
              ("metadata", VDict [("invoice_id", VInt inv_id);
                                  ("invoice_number", VStr inv_number)])]
             response
             (truthy (dict_get response "success" (VBool false)))
             (text_of (dict_get response "error_message" VNone))
             corr) ;;;
    if truthy (dict_get response "success" VNone)
    then
      updated_payment <- on_db (update_payment_status now db_payment COMPLETED None
                                  (text_of (dict_get response "transaction_id" VNone))) ;;
      on_bus (payment_event_publisher.publish_payment_received env now
                [("id", VInt (id updated_payment));
                 ("invoice_id", VInt (invoice_id updated_payment));
                 ("invoice_number", VStr (invoice_number updated_payment));
                 ("amount", VNum (amount updated_payment));
                 ("payment_method", VStr (payment_method updated_payment));
                 ("transaction_reference", opt_str (transaction_reference updated_payment));
                 ("payment_date",
                  match payment_date updated_payment with
                  | Some t => VTime t
                  | None => VTime now
                  end);
                 ("status", VStr (PaymentStatus_value (status updated_payment)));
                 ("user_id", VStr user)]
                corr) ;;;
      ret updated_payment
    else
      updated_payment <- on_db (update_payment_status now db_payment FAILED
                                  (text_of (dict_get response "error_message" VNone))
                                  None) ;;
      on_bus (payment_event_publisher.publish_payment_failed env now
                [("id", VInt (id updated_payment));
                 ("invoice_id", VInt (invoice_id updated_payment));
                 ("invoice_number", VStr (invoice_number updated_payment));
                 ("amount", VNum (amount updated_payment));
                 ("payment_method", VStr (payment_method updated_payment));
                 ("error_message", dict_get response "error_message" VNone);
                 ("user_id", VStr user)]
                corr) ;;;
      ret updated_payment.

(** [PaymentService.handle_webhook_event] *)
Definition handle_webhook_event (event_data : dict) : M World dict :=
  let event_type := dict_get event_data "event_type" VNone in
  let transaction_id := dict_get event_data "transaction_id" VNone in
  if negb (truthy transaction_id)
  then
    logger_error "Webhook event missing transaction_id: " (VDict event_data) ;;;
    ret [("status", VStr "error"); ("message", VStr "Missing transaction_id")]
  else
    d <- gets db ;;
    match match transaction_id with
          | VStr t => get_payment_by_transaction_reference d t
          | _ => None
          end with
    | None =>
        logger_error "Payment not found for transaction_id: " transaction_id ;;;
        ret [("status", VStr "error"); ("message", VStr "Payment not found")]
    | Some payment =>
        (if is_str event_type "payment.succeeded"
         then
           p <- on_db (update_payment_status now payment COMPLETED
                         (Some "Payment confirmed by gateway") None) ;;
           on_bus (payment_event_publisher.publish_payment_received env now
                     [("id", VInt (id p));
                      ("invoice_id", VInt (invoice_id p));
                      ("invoice_number", VStr (invoice_number p));
                      ("amount", VNum (amount p));
                      ("payment_method", VStr (payment_method p));
                      ("transaction_reference", opt_str (transaction_reference p));
                      ("payment_date",
                       match payment_date p with
                       | Some t => VTime t
                       | None => VTime now
                       end);
                      ("status", VStr (PaymentStatus_value (status p)));
                      ("user_id", VStr (user_id p))]
                     None) ;;;
           ret tt
         else if is_str event_type "payment.failed"
         then
           p <- on_db (update_payment_status now payment FAILED
                         (text_of (dict_get event_data "error_message"
                                            (VStr "Payment failed")))
                         None) ;;
           on_bus (payment_event_publisher.publish_payment_failed env now
                     [("id", VInt (id p));
                      ("invoice_id", VInt (invoice_id p));
                      ("invoice_number", VStr (invoice_number p));
                      ("amount", VNum (amount p));
                      ("payment_method", VStr (payment_method p));
                      ("error_message",
                       dict_get event_data "error_message" (VStr "Payment failed"));
                      ("user_id", VStr (user_id p))]
                     None) ;;;
           ret tt
         else if is_str event_type "payment.refunded"
         then
           on_db (update_payment_status now payment REFUNDED
                    (Some "Payment refunded") None) ;;;
           ret tt
         else ret tt) ;;;
        ret [("status", VStr "success")]
    end.

(** [handle_invoice_created]: logs the event. *)
Definition handle_invoice_created (event : dict) : M World unit :=
  logger_info "Handling invoice_created event: " (dict_get event "event_id" VNone).

End WithEnvironment.

End payment_service.


(** ** Payment service: what a call leaves behind *)

Module payment_webhooks.

Import payment_models.

(** The status a webhook event sets and the message it passes to
    [update_payment_status], read off the three branches of
    [handle_webhook_event]; [None] for any other event type. *)
Definition webhook_outcome (event_data : dict) : option (PaymentStatus * option string) :=
  let event_type := dict_get event_data "event_type" VNone in
  if is_str event_type "payment.succeeded"
  then Some (COMPLETED, Some "Payment confirmed by gateway")
  else if is_str event_type "payment.failed"
  then Some (FAILED,
             payment_service.text_of
               (dict_get event_data "error_message" (VStr "Payment failed")))
  else if is_str event_type "payment.refunded"
  then Some (REFUNDED, Some "Payment refunded")
  else None.

(** The payment already shows the outcome: it has the status, the message
    when the event passes a non-empty one, and a payment date when the
    status is COMPLETED. *)
Definition delivered (st : PaymentStatus) (msg : option string) (p : Payment) : Prop :=
  status p = st
  /\ (forall m, truthy_str msg = Some m -> status_message p = Some m)
  /\ (st = COMPLETED -> payment_date p <> None).

(** The payment after a delivery that repeats its status: [updated_at] is
    the time of the delivery, the status message is the event's when that
    is not empty, a COMPLETED payment without a payment date gets one, and
    every other column is kept. *)
Definition redelivered (now : nat) (msg : option string) (p : Payment) : Payment :=
  {| id := id p; user_id := user_id p; invoice_id := invoice_id p;
     invoice_number := invoice_number p; amount := amount p;
     currency := currency p; payment_method := payment_method p;
     payment_method_details := payment_method_details p;
     transaction_reference := transaction_reference p;
     external_reference := external_reference p; status := status p;
     status_message :=
       match truthy_str msg with
       | Some m => Some m
       | None => status_message p
       end;
     payment_date :=
       match payment_date p with
       | Some t => Some t
       | None => if PaymentStatus_eqb (status p) COMPLETED then Some now else None
       end;
     created_at := created_at p; updated_at := now |}.

(** The [payment_data] handed to [publish_payment_received] and to
    [publish_payment_failed] for payment [p], and the events made of them. *)
Definition received_data (now : nat) (p : Payment) (user : string) : dict :=
  [("id", VInt (id p));
   ("invoice_id", VInt (invoice_id p));
   ("invoice_number", VStr (invoice_number p));
   ("amount", VNum (amount p));
   ("payment_method", VStr (payment_method p));
   ("transaction_reference", opt_str (transaction_reference p));
   ("payment_date",
    match payment_date p with
    | Some t => VTime t
    | None => VTime now
    end);
   ("status", VStr (PaymentStatus_value (status p)));
   ("user_id", VStr user)].

Definition failed_data (p : Payment) (error_message : value) (user : string) : dict :=
  [("id", VInt (id p));
   ("invoice_id", VInt (invoice_id p));
   ("invoice_number", VStr (invoice_number p));
   ("amount", VNum (amount p));
   ("payment_method", VStr (payment_method p));
   ("error_message", error_message);
   ("user_id", VStr user)].

Definition received_event (payment_data : dict) : dict :=
  [("event_type", VStr "payment_received"); ("payload", VDict payment_data)].

Definition failed_event (payment_data : dict) : dict :=
  [("event_type", VStr "payment_failed"); ("payload", VDict payment_data)].

(** The database takes the new payment: the invoice number fits its
    column and the transaction reference of this second and invoice is
    free. *)
Definition insertable (d : payment_repository.Db) (now inv_id : nat)
           (inv_number : string) : bool :=
  Nat.leb (String.length inv_number) 20
  && negb (payment_repository.reference_taken d
             (payment_repository.new_reference now inv_id)).

(** The payment with [updated_at] set to [now] and every other column kept. *)
Definition touch (now : nat) (p : Payment) : Payment :=
  {| id := id p; user_id := user_id p; invoice_id := invoice_id p;
     invoice_number := invoice_number p; amount := amount p;
     currency := currency p; payment_method := payment_method p;
     payment_method_details := payment_method_details p;
     transaction_reference := transaction_reference p;
     external_reference := external_reference p; status := status p;
     status_message := status_message p; payment_date := payment_date p;
     created_at := created_at p; updated_at := now |}.

End payment_webhooks.

(** ** Discount service: models, schemas, repository *)

Module discount_models.

Record DiscountCoupon : Type := {
  id : nat;
  code : string;
  description : option string;
  discount_percent : Q;
  max_discount_amount : option Q;
  is_active : bool;
  valid_until : option nat
}.

Record UserTypeDiscount : Type := {
  ut_id : nat;
  user_type : string;
  ut_discount_percent : Q
}.

Record AmountBasedDiscount : Type := {
  ab_id : nat;
  min_amount : Q;
  max_amount : option Q;
  ab_discount_percent : Q
}.

Record DiscountApplication : Type := {
  app_id : nat;
  user_id : option string;
  original_amount : Q;
  discount_amount : Q;
  final_amount : Q;
  discount_type : string;
  coupon_id : option nat;
  correlation_id : option string;
  created_at : nat
}.

End discount_models.

Module discount_schemas.

(** The text of a rule's description; the amount-based one embeds the
    threshold, kept as a number. *)
Inductive rule_description : Type :=
| Text (s : string)
| OrdersOver (threshold : Q).

Record DiscountRule : Type := {
  name : string;
  description : rule_description;
  discount_percent : Q;
  discount_type : string
}.

Record DiscountResponse : Type := {
  original_amount : Q;
  discount_amount : Q;
  final_amount : Q;
  discount_rule : option DiscountRule;
  coupon_code : option string
}.

End discount_schemas.

Module discount_repository.

Import discount_models.

Record Db : Type := {
  discount_coupons : list DiscountCoupon;
  user_type_discounts : list UserTypeDiscount;
  amount_based_discounts : list AmountBasedDiscount;
  discount_applications : list DiscountApplication
}.

(** [get_coupon_by_code]: the active, unexpired coupon of that code. *)
Definition get_coupon_by_code (now : nat) (d : Db) (c : string)
  : option DiscountCoupon :=
  find (fun r => String.eqb (code r) c
                 && is_active r
                 && match valid_until r with
                    | None => true
                    | Some t => Nat.ltb now t
                    end)
       (discount_coupons d).

(** [get_user_type_discount] *)
Definition get_user_type_discount (d : Db) (ut : string) : option UserTypeDiscount :=
  find (fun r => String.eqb (user_type r) ut) (user_type_discounts d).

(** [.order_by(discount_percent.desc()).first()]: a row of greatest
    percentage, the earliest such row of the table. *)
Fixpoint greatest_percent (rows : list AmountBasedDiscount)
         (best : option AmountBasedDiscount) : option AmountBasedDiscount :=
  match rows with
  | [] => best
  | r :: rest =>
      match best with
      | None => greatest_percent rest (Some r)
      | Some b =>
          if Qlt_bool (ab_discount_percent b) (ab_discount_percent r)
          then greatest_percent rest (Some r)
          else greatest_percent rest best
      end
  end.

(** [get_amount_based_discount] *)
Definition get_amount_based_discount (d : Db) (amt : Q) : option AmountBasedDiscount :=
  greatest_percent
    (filter (fun r => Qle_bool (min_amount r) amt
                      && match max_amount r with
                         | None => true
                         | Some m => Qle_bool amt m
                         end)
            (amount_based_discounts d))
    None.

(** [create_discount_application]: the three amounts are stored as floats.
    The columns [user_id] and [correlation_id] are declared NOT NULL, and
    the route hands over the caller's id and the correlation id of the
    request; what the database does with a row that lacks one of them is
    not modelled, and the row is kept as given. *)
Definition create_discount_application (now : nat) (user : option string)
           (original disc final : Q) (dtype : string) (coupon : option nat)
           (corr : option string) (d : Db) : DiscountApplication * Db :=
  let db_application :=
    {| app_id := S (List.length (discount_applications d)); user_id := user;
       original_amount := float_of original; discount_amount := float_of disc;
       final_amount := float_of final; discount_type := dtype; coupon_id := coupon;
       correlation_id := corr; created_at := now |} in
  (db_application,
   {| discount_coupons := discount_coupons d;
      user_type_discounts := user_type_discounts d;
      amount_based_discounts := amount_based_discounts d;
      discount_applications := discount_applications d ++ [db_application] |}).

End discount_repository.

(** ** Discount service: [app.core.event_publisher] and [app.services.discount_service] *)

Module discount_service.

Import discount_schemas.

Record World : Type := {
  db : discount_repository.Db;
  bus : Events.Publisher
}.

Definition on_db {A : Type} (f : discount_repository.Db -> A * discount_repository.Db)
  : M World A :=
  fun w => let (a, d) := f (db w) in (Return a, {| db := d; bus := bus w |}).

Definition on_bus {A : Type} (m : M Events.Publisher A) : M World A :=
  zoom bus (fun b w => {| db := db w; bus := b |}) m.

(** [amount * (discount_percent / 100)] *)
Definition percent_of (amt percent : Q) : Q := (amt * (percent / 100))%Q.

(** The coupon's discount: its percentage of the amount, replaced by
    [max_discount_amount] when that is set, not zero, and smaller. *)
Definition coupon_discount (amt : Q) (coupon : discount_models.DiscountCoupon) : Q :=
  let computed := percent_of amt (discount_models.discount_percent coupon) in
  match discount_models.max_discount_amount coupon with
  | Some max_discount =>
      if negb (Qeq_bool max_discount 0) && Qlt_bool max_discount computed
      then max_discount else computed
  | None => computed
  end.

(** The local variables of [apply_discount] that the three tiers assign. *)
Record locals : Type := {
  l_discount_amount : Q;
  l_discount_rule : option DiscountRule;
  l_coupon_id : option nat;
  l_discount_type : string
}.

Section WithEnvironment.

Variable env : Events.BrokerEnv.
Variable now : nat.

(** [EventPublisher.publish_discount_applied] *)
Definition publish_discount_applied (discount_data : dict)
           (correlation_id : option string) : M Events.Publisher bool :=
  let get k := dict_get discount_data k VNone in
  Events.publish_event env None now "discount.applied"
    [("event_type", VStr "discount_applied");
     ("payload",
      VDict [("discount_amount", get "discount_amount");
             ("original_amount", get "original_amount");
             ("final_amount", get "final_amount");
             ("discount_type", get "discount_type");
             ("coupon_code", get "coupon_code");
             ("applied_at", VTime now);
             ("user_id", get "user_id")])]
    correlation_id.

(** The coupon tier: [if coupon_code: ... if coupon: ...] *)
Definition coupon_tier (d : discount_repository.Db) (amt : Q)
           (coupon_code : option string) (l : locals) : locals :=
  match truthy_str coupon_code with
  | None => l
  | Some c =>
      match discount_repository.get_coupon_by_code now d c with
      | None => l
      | Some coupon =>
          let percent := discount_models.discount_percent coupon in
          {| l_discount_amount := coupon_discount amt coupon;
             l_discount_rule :=
               Some {| name := "Coupon: " ++ c;
                       description :=
                         Text match truthy_str (discount_models.description coupon) with
                              | Some t => t
                              | None => "Coupon discount"
                              end;
                       discount_percent := percent;
                       discount_type := "coupon" |};
             l_coupon_id := Some (discount_models.id coupon);
             l_discount_type := "coupon" |}
      end
  end.

(** The user-type tier: [if discount_amount == 0 and user_id: ...] *)
Definition user_type_tier (d : discount_repository.Db) (amt : Q)
           (user : option string) (l : locals) : locals :=
  if Qeq_bool (l_discount_amount l) 0
     && match truthy_str user with Some _ => true | None => false end
  then
    let ut := "regular" in
    match discount_repository.get_user_type_discount d ut with
    | None => l
    | Some user_discount =>
        let percent := discount_models.ut_discount_percent user_discount in
        {| l_discount_amount := percent_of amt percent;
           l_discount_rule :=
             Some {| name := "User Type: " ++ ut;
                     description := Text ("Discount for " ++ ut ++ " users");
                     discount_percent := percent;
                     discount_type := "user_type" |};
           l_coupon_id := l_coupon_id l;
           l_discount_type := "user_type" |}
    end
  else l.

(** The amount tier: [if discount_amount == 0: ...] *)
Definition amount_tier (d : discount_repository.Db) (amt : Q) (l : locals) : locals :=
  if Qeq_bool (l_discount_amount l) 0
  then
    match discount_repository.get_amount_based_discount d amt with
    | None => l
    | Some amount_discount =>
        let percent := discount_models.ab_discount_percent amount_discount in
        {| l_discount_amount := percent_of amt percent;
           l_discount_rule :=
             Some {| name := "Amount Based";
                     description := OrdersOver (discount_models.min_amount amount_discount);
                     discount_percent := percent;
                     discount_type := "amount_based" |};
           l_coupon_id := l_coupon_id l;
           l_discount_type := "amount_based" |}
    end
  else l.

(** The initial values of the locals. *)
Definition no_discount : locals :=
  {| l_discount_amount := 0; l_discount_rule := None;
     l_coupon_id := None; l_discount_type := "none" |}.

(** The three tiers in the order [apply_discount] runs them. *)
Definition tiers (d : discount_repository.Db) (amt : Q)
           (coupon_code user : option string) : locals :=
  amount_tier d amt (user_type_tier d amt user (coupon_tier d amt coupon_code no_discount)).

(** [DiscountService.apply_discount] *)
Definition apply_discount (amt : Q) (coupon_code user : option string)
           (corr : option string) : M World DiscountResponse :=
  d <- gets db ;;
  let l := tiers d amt coupon_code user in
  let disc := l_discount_amount l in
  let final := (amt - disc)%Q in
  (if Qlt_bool 0 disc
   then
     on_db (discount_repository.create_discount_application now user amt disc
              final (l_discount_type l) (l_coupon_id l) corr) ;;;
     on_bus (publish_discount_applied
               [("discount_amount", VNum (float_of disc));
                ("original_amount", VNum (float_of amt));
                ("final_amount", VNum (float_of final));
                ("discount_type", VStr (l_discount_type l));
                ("coupon_code", opt_str coupon_code);
                ("user_id", opt_str user)]
               corr) ;;;
     ret tt
   else ret tt) ;;;
  ret {| original_amount := amt;
         discount_amount := disc;
         final_amount := final;
         discount_rule := l_discount_rule l;
         coupon_code := if String.eqb (l_discount_type l) "coupon"
                        then coupon_code else None |}.

End WithEnvironment.

End discount_service.


(** ** Tax service: models, schemas, repository, service *)

Module tax_models.

(** A row of [tax_rules].  [description] is the one nullable column read by
    the service; [rate] is the decimal [Decimal(str(rule.rate))] that the
    service computes with. *)
Record TaxRule : Type := {
  id : nat;
  name : string;
  description : option string;
  rate : Q;
  product_type : string;
  country_code : string;
  region_code : option string
}.

Record TaxCalculation : Type := {
  calc_id : nat;
  user_id : string;
  original_amount : Q;
  tax_amount : Q;
  total_amount : Q;
  calc_product_type : string;
  rule_id : nat;
  correlation_id : string;
  created_at : nat
}.

End tax_models.

Module tax_schemas.

(** The schema declares [name: str], [description: str] and
    [rate: Decimal], all required. *)
Record TaxRule : Type := {
  name : string;
  description : string;
  rate : Q
}.

Record TaxCalculationResponse : Type := {
  original_amount : Q;
  tax_amount : Q;
  rules_applied : list TaxRule;
  total_amount : Q
}.

End tax_schemas.

Module tax_repository.

Import tax_models.

Record Db : Type := {
  tax_rules : list TaxRule;
  tax_calculations : list TaxCalculation
}.

(** [get_tax_rules_by_product_type] *)
Definition get_tax_rules_by_product_type (d : Db) (pt : string) : list TaxRule :=
  filter (fun r => String.eqb (product_type r) pt) (tax_rules d).

(** [get_default_tax_rule] *)
Definition get_default_tax_rule (d : Db) : option TaxRule :=
  find (fun r => String.eqb (name r) "default") (tax_rules d).

(** [create_tax_calculation]: the three amounts are stored as floats. *)
Definition create_tax_calculation (now : nat) (user : string)
           (original tax total : Q) (pt : string) (rule : nat) (corr : string)
           (d : Db) : TaxCalculation * Db :=
  let db_calculation :=
    {| calc_id := S (List.length (tax_calculations d)); user_id := user;
       original_amount := float_of original; tax_amount := float_of tax;
       total_amount := float_of total;
       calc_product_type := pt; rule_id := rule; correlation_id := corr;
       created_at := now |} in
  (db_calculation,
   {| tax_rules := tax_rules d;
      tax_calculations := tax_calculations d ++ [db_calculation] |}).

End tax_repository.

Module tax_service.

Import tax_schemas.

Record World : Type := {
  db : tax_repository.Db;
  bus : Events.Publisher
}.

Definition on_db {A : Type} (f : tax_repository.Db -> A * tax_repository.Db)
  : M World A :=
  fun w => let (a, d) := f (db w) in (Return a, {| db := d; bus := bus w |}).

Definition on_bus {A : Type} (m : M Events.Publisher A) : M World A :=
  zoom bus (fun b w => {| db := db w; bus := b |}) m.

(** [db_tax_rules] as [calculate_tax] settles it: the rules of the product
    type, or the rule named [default] alone when there are none, or nothing. *)
Definition applicable_rules (d : tax_repository.Db) (pt : string)
  : list tax_models.TaxRule :=
  let specific := tax_repository.get_tax_rules_by_product_type d pt in
  match specific with
  | [] => match tax_repository.get_default_tax_rule d with
          | Some default_rule => [default_rule]
          | None => specific
          end
  | _ :: _ => specific
  end.

(** The sum of [rate * amount] over a list of rules, as the specification
    words the tax. *)
Definition sum_of_rule_taxes (amt : Q) (rules : list tax_models.TaxRule) : Q :=
  fold_right (fun rule acc => (amt * tax_models.rate rule + acc)%Q) 0%Q rules.

(** [TaxRule(name=rule.name, description=rule.description,
    rate=Decimal(str(rule.rate)))]: the schema requires a string under
    [description], so a rule whose description is NULL fails validation. *)
Definition as_schema (rule : tax_models.TaxRule) : outcome TaxRule :=
  match tax_models.description rule with
  | Some text =>
      Return {| name := tax_models.name rule;
                description := text;
                rate := tax_models.rate rule |}
  | None => Raise (ValidationError "description")
  end.

(** The [tax_data] that [calculate_tax] hands to the publisher, read off
    the response it returns; the numbers go out as floats. *)
Definition tax_payload (resp : TaxCalculationResponse) (pt user : string) : dict :=
  [("tax_amount", VNum (float_of (tax_amount resp)));
   ("rules_applied",
    VList (map (fun r => VDict [("name", VStr (name r));
                                ("rate", VNum (float_of (rate r)))])
               (rules_applied resp)));
   ("product_type", VStr pt);
   ("original_amount", VNum (float_of (original_amount resp)));
   ("user_id", VStr user)].

(** The [for rule in db_tax_rules] loop of [calculate_tax], from the running
    [tax_amount] and [rules_applied]; it ends at the first rule that the
    schema rejects. *)
Fixpoint accumulate (amt : Q) (rules : list tax_models.TaxRule)
         (tax : Q) (applied : list TaxRule) : outcome (Q * list TaxRule) :=
  match rules with
  | [] => Return (tax, applied)
  | rule :: rest =>
      let rule_tax := (amt * tax_models.rate rule)%Q in
      match as_schema rule with
      | Return r => accumulate amt rest (tax + rule_tax)%Q (applied ++ [r])
      | Raise e => Raise e
      end
  end.

Section WithEnvironment.

Variable env : Events.BrokerEnv.
Variable now : nat.

(** Modelled from the spec: [app.core.event_publisher] of the tax service is
    not among the sources.  The spec names the routing key [tax.calculated]
    and the one publish operation of the bus; the schema [TaxCalculatedEvent]
    gives the event type.  The payload is the [tax_data] handed over. *)
Definition publish_tax_calculated (tax_data : dict)
           (correlation_id : option string) : M Events.Publisher bool :=
  Events.publish_event env None now "tax.calculated"
    [("event_type", VStr "tax_calculated"); ("payload", VDict tax_data)]
    correlation_id.

(** [TaxService.calculate_tax] *)
Definition calculate_tax (amt : Q) (pt : string) (user : string) (corr : string)
  : M World TaxCalculationResponse :=
  d <- gets db ;;
  let db_tax_rules := applicable_rules d pt in
  match accumulate amt db_tax_rules 0 [] with
  | Raise e => raise e
  | Return (tax, applied) =>
      let total := (amt + tax)%Q in
      (match db_tax_rules with
       | primary :: _ =>
           on_db (tax_repository.create_tax_calculation now user amt tax total pt
                    (tax_models.id primary) corr) ;;;
           ret tt
       | [] => ret tt
       end) ;;;
      on_bus (publish_tax_calculated
                [("tax_amount", VNum (float_of tax));
                 ("rules_applied",
                  VList (map (fun r => VDict [("name", VStr (name r));
                                              ("rate", VNum (float_of (rate r)))])
                             applied));
                 ("product_type", VStr pt);
                 ("original_amount", VNum (float_of amt));
                 ("user_id", VStr user)]
                (Some corr)) ;;;
      ret {| original_amount := amt;
             tax_amount := tax;
             rules_applied := applied;
             total_amount := total |}
  end.

End WithEnvironment.

End tax_service.

(** ** Tax service: the rules the specification names *)

Module tax_facts.

Import tax_models.

(** The rules that apply to a product type as the specification words
    them, over the rows of [tax_rules]: every rule of that product type, in
    table order; when there is none, the first rule named [default] alone;
    when there is none either, no rule. *)
Definition rules_for (rules : list TaxRule) (pt : string) : list TaxRule :=
  match filter (fun r => String.eqb (product_type r) pt) rules with
  | [] =>
      match find (fun r => String.eqb (name r) "default") rules with
      | Some default_rule => [default_rule]
      | None => []
      end
  | matching => matching
  end.

(** The rule has a description. *)
Definition described (r : TaxRule) : bool :=
  match description r with Some _ => true | None => false end.

(** A described rule as the response lists it. *)
Definition listed (r : TaxRule) : tax_schemas.TaxRule :=
  {| tax_schemas.name := name r;
     tax_schemas.description :=
       match description r with Some text => text | None => "" end;
     tax_schemas.rate := rate r |}.

End tax_facts.

(** ** Sample data used by the examples *)

Module samples.

Definition broker_up : Events.BrokerEnv :=
  {| Events.connect_robust_ok := true; Events.channel_ok := true;
     Events.declare_exchange_ok := true; Events.get_exchange_ok := true;
     Events.publish_ok := true; Events.close_ok := true |}.

Definition broker_down : Events.BrokerEnv :=
  {| Events.connect_robust_ok := false; Events.channel_ok := false;
     Events.declare_exchange_ok := false; Events.get_exchange_ok := false;
     Events.publish_ok := false; Events.close_ok := false |}.

Definition settings : invoice_service.Settings :=
  {| invoice_service.PDF_GENERATION_ENABLED := true;
     invoice_service.PDF_STORAGE_PATH := "/app/pdf_storage" |}.

(** An invoice of 100 + 10 tax - 5 discount = 105, owned by alice. *)
Definition invoice_in (st : invoice_models.InvoiceStatus) (paid : option nat)
  : invoice_models.Invoice :=
  {| invoice_models.id := 1;
     invoice_models.invoice_number := "INV-1700000-12345678";
     invoice_models.user_id := "alice";
     invoice_models.customer_id := "cust-1";
     invoice_models.customer_name := Some "Customer One";
     invoice_models.customer_email := Some "one@example.com";
     invoice_models.customer_address := None;
     invoice_models.subtotal := 100;
     invoice_models.tax_amount := 10;
     invoice_models.discount_amount := 5;
     invoice_models.total_amount := 105;
     invoice_models.status := st;
     invoice_models.notes := None;
     invoice_models.issue_date := 10;
     invoice_models.due_date := None;
     invoice_models.paid_date := paid;
     invoice_models.created_at := 10;
     invoice_models.updated_at := 10 |}.

Definition invoice_world (i : invoice_models.Invoice) : invoice_service.World :=
  {| invoice_service.db :=
       {| invoice_repository.invoices := [i];
          invoice_repository.invoice_items := [];
          invoice_repository.invoice_payments := [];
          invoice_repository.invoice_history := [] |};
     invoice_service.bus := Events.init;
     invoice_service.log := [] |}.

(** A payment of 105 for invoice 1, created at time 10 and still being
    processed. *)
Definition processing_payment : payment_models.Payment :=
  {| payment_models.id := 1;
     payment_models.user_id := "alice";
     payment_models.invoice_id := 1;
     payment_models.invoice_number := "INV-1700000-12345678";
     payment_models.amount := 105;
     payment_models.currency := "USD";
     payment_models.payment_method := "credit_card";
     payment_models.payment_method_details := None;
     payment_models.transaction_reference := Some "TXN-10-1";
     payment_models.external_reference := None;
     payment_models.status := payment_models.PROCESSING;
     payment_models.status_message := None;
     payment_models.payment_date := None;
     payment_models.created_at := 10;
     payment_models.updated_at := 10 |}.

Definition payment_world (p : payment_models.Payment) : payment_service.World :=
  {| payment_service.db :=
       {| payment_repository.payments := [p];
          payment_repository.payment_attempts := [] |};
     payment_service.bus := Events.init;
     payment_service.log := [] |}.

Definition empty_payment_world : payment_service.World :=
  {| payment_service.db := payment_repository.empty_db;
     payment_service.bus := Events.init;
     payment_service.log := [] |}.

(** The webhook body [{"event_type": "payment.succeeded",
    "transaction_id": "TXN-10-1", ...}]. *)
Definition succeeded_event : dict :=
  [("event_type", VStr "payment.succeeded");
   ("transaction_id", VStr "TXN-10-1");
   ("amount", VNum 105);
   ("status", VStr "succeeded");
   ("metadata", VNone)].

(** The world after the first delivery of [payment.succeeded] for the
    sample payment, at time 20 with the broker up. *)
Definition after_first_delivery : payment_service.World :=
  snd (payment_service.handle_webhook_event broker_up 20
         succeeded_event (payment_world processing_payment)).

(** A discount database with two coupons (10% capped at 15, and 0%) and one
    amount tier (5% from 100 upwards). *)
Definition discount_db : discount_repository.Db :=
  {| discount_repository.discount_coupons :=
       [{| discount_models.id := 1; discount_models.code := "SAVE10";
           discount_models.description := Some "Ten percent off";
           discount_models.discount_percent := 10;
           discount_models.max_discount_amount := Some 15%Q;
           discount_models.is_active := true;
           discount_models.valid_until := None |};
        {| discount_models.id := 2; discount_models.code := "ZERO";
           discount_models.description := None;
           discount_models.discount_percent := 0;
           discount_models.max_discount_amount := None;
           discount_models.is_active := true;
           discount_models.valid_until := None |}];
     discount_repository.user_type_discounts := [];
     discount_repository.amount_based_discounts :=
       [{| discount_models.ab_id := 1; discount_models.min_amount := 100;
           discount_models.max_amount := None;
           discount_models.ab_discount_percent := 5 |}];
     discount_repository.discount_applications := [] |}.

Definition discount_world : discount_service.World :=
  {| discount_service.db := discount_db; discount_service.bus := Events.init |}.

(** A tax database with two rules for digital goods, a rule for physical
    goods that was stored without a description, and no default rule. *)
Definition tax_db : tax_repository.Db :=
  {| tax_repository.tax_rules :=
       [{| tax_models.id := 1; tax_models.name := "VAT";
           tax_models.description := Some "Value added tax";
           tax_models.rate := 2 # 10; tax_models.product_type := "digital";
           tax_models.country_code := "DE"; tax_models.region_code := None |};
        {| tax_models.id := 2; tax_models.name := "Levy";
           tax_models.description := Some "Copyright levy";
           tax_models.rate := 5 # 100; tax_models.product_type := "digital";
           tax_models.country_code := "DE"; tax_models.region_code := None |};
        {| tax_models.id := 3; tax_models.name := "Duty";
           tax_models.description := None;
           tax_models.rate := 7 # 100; tax_models.product_type := "physical";
           tax_models.country_code := "DE"; tax_models.region_code := None |}];
     tax_repository.tax_calculations := [] |}.

Definition tax_world : tax_service.World :=
  {| tax_service.db := tax_db; tax_service.bus := Events.init |}.

End samples.

(** ** Event bus adapter: runs of calls on one publisher *)

Module publisher_calls.

Import Events.

(** A call on the publisher singleton, with the broker as it is at the
    time of the call. *)
Inductive call : Type :=
| Connect (env : BrokerEnv)
| Disconnect (env : BrokerEnv)
| Publish (env : BrokerEnv) (service_name : option string) (now : nat)
          (rk : string) (event_data : dict) (correlation_id : option string).

Definition run (c : call) (p : Publisher) : Publisher :=
  match c with
  | Connect env => snd (connect env p)
  | Disconnect env => snd (disconnect env p)
  | Publish env service_name now rk event_data correlation_id =>
      snd (publish_event env service_name now rk event_data correlation_id p)
  end.

Definition run_all (calls : list call) (p : Publisher) : Publisher :=
  fold_left (fun p c => run c p) calls p.

(** The event [event_data] published from publisher [p] reaches the
    exchange: the publisher is connected or gets connected, the exchange is
    found, the event encodes as JSON, and the broker takes the message. *)
Definition accepted (env : BrokerEnv) (p : Publisher) (event_data : dict) : bool :=
  (connected p
   || (connect_robust_ok env && channel_ok env && declare_exchange_ok env))
  && (get_exchange_ok env
      && (serialisable (dict_get event_data "event_type" (VStr "unknown"))
          && serialisable (dict_get event_data "payload" (VDict [])))
      && publish_ok env).

End publisher_calls.

(** ** Event bus consumer: [EventConsumer] / [BaseEventConsumer] *)

Module event_consumer.

(** [json.loads(message.body.decode())]: the bytes are not text
    ([UnicodeDecodeError]), the text is not JSON ([JSONDecodeError]), or a
    value comes out. *)
Inductive MessageBody : Type :=
| NotText
| NotJson
| Json (v : value).

Inductive decode_error : Type := UnicodeDecodeError | JSONDecodeError.

(** [str(e)] for the exceptions of the model *)
Definition exn_text (e : exn) : string :=
  match e with
  | HTTPException _ detail => detail
  | BrokerError what | TypeError what | AttributeError what
  | DataError what | IntegrityError what | ValidationError what => what
  end.

Definition json_loads (b : MessageBody) : decode_error + value :=
  match b with
  | NotText => inl UnicodeDecodeError
  | NotJson => inl JSONDecodeError
  | Json v => inr v
  end.

(** [aio_pika.IncomingMessage] *)
Record IncomingMessage : Type := {
  delivery_tag : nat;
  msg_body : MessageBody
}.

(** [d[k] = v] on a dictionary with string keys: the value under an
    existing key is replaced, a new key goes last. *)
Fixpoint set_item {A : Type} (d : list (string * A)) (k : string) (v : A)
  : list (string * A) :=
  match d with
  | [] => [(k, v)]
  | (k', v') :: d' =>
      if String.eqb k' k then (k', v) :: d' else (k', v') :: set_item d' k v
  end.

(** [d[k]] when [k in d] *)
Fixpoint get_item {A : Type} (d : list (string * A)) (k : string) : option A :=
  match d with
  | [] => None
  | (k', v') :: d' => if String.eqb k' k then Some v' else get_item d' k
  end.

Section WithApplication.

(** The state the registered handlers read and change. *)
Variable App : Type.

(** [Callable[[Dict[str, Any]], Awaitable[None]]] *)
Definition handler : Type := dict -> M App unit.

(** The consumer object, the application behind its handlers, and what the
    broker was told about each delivery. *)
Record Consumer : Type := {
  event_handlers : list (string * handler);
  app : App;
  acked : list nat;
  rejected : list nat;
  log : list (string * value)
}.

Definition logger (msg : string) (arg : value) : M Consumer unit :=
  modify (fun c => {| event_handlers := event_handlers c; app := app c;
                      acked := acked c; rejected := rejected c;
                      log := log c ++ [(msg, arg)] |}).

Definition on_app {A : Type} (m : M App A) : M Consumer A :=
  zoom app (fun a c => {| event_handlers := event_handlers c; app := a;
                          acked := acked c; rejected := rejected c;
                          log := log c |}) m.

(** [register_handler] *)
Definition register_handler (event_type : string) (h : handler) : M Consumer unit :=
  modify (fun c => {| event_handlers := set_item (event_handlers c) event_type h;
                      app := app c; acked := acked c; rejected := rejected c;
                      log := log c |}) ;;;
  logger "Registered handler for event type: " (VStr event_type).

(** [async with message.process():] acknowledges the message when the block
    ends normally; when it raises, the message is rejected and the
    exception goes on. *)
Definition message_process (message : IncomingMessage) (block : M Consumer unit)
  : M Consumer unit :=
  fun c =>
    match block c with
    | (Return _, c') =>
        (Return tt,
         {| event_handlers := event_handlers c'; app := app c';
            acked := acked c' ++ [delivery_tag message]; rejected := rejected c';
            log := log c' |})
    | (Raise e, c') =>
        (Raise e,
         {| event_handlers := event_handlers c'; app := app c';
            acked := acked c'; rejected := rejected c' ++ [delivery_tag message];
            log := log c' |})
    end.

(** The statements of [process_message] after the body was decoded.  A
    decoded body that is not an object has no [get]; an [event_type] that is
    a list or an object cannot be looked up in a dictionary; one that is
    neither a string nor unhashable is hashable and equals no string key.
    ([json.loads] produces neither [VTime] nor [VObject]; they are taken
    with the values that match no key.) *)
Definition dispatch (body : value) : M Consumer unit :=
  match body with
  | VDict d =>
      let event_type := dict_get d "event_type" VNone in
      handlers <- gets event_handlers ;;
      if truthy event_type
      then
        match event_type with
        | VStr s =>
            match get_item handlers s with
            | Some h =>
                logger "Processing event with ID " (dict_get d "event_id" VNone) ;;;
                on_app (h d)
            | None => logger "No handler for event type: " event_type
            end
        | VList _ | VDict _ => raise (TypeError "unhashable type")
        | _ => logger "No handler for event type: " event_type
        end
      else logger "No handler for event type: " event_type
  | _ => raise (AttributeError "get")
  end.

(** [process_message] *)
Definition process_message (message : IncomingMessage) : M Consumer unit :=
  message_process message
    (match json_loads (msg_body message) with
     | inl JSONDecodeError => logger "Failed to decode message body as JSON" VNone
     | inl UnicodeDecodeError =>
         logger "Error processing message: " (VStr "UnicodeDecodeError")
     | inr body =>
         try_except (dispatch body)
                    (fun e => logger "Error processing message: " (VStr (exn_text e)))
     end).

(** The messages of a queue handed to [process_message] one after another. *)
Fixpoint consume (messages : list IncomingMessage) : M Consumer unit :=
  match messages with
  | [] => ret tt
  | m :: rest => process_message m ;;; consume rest
  end.

End WithApplication.

End event_consumer.

(** ** Queries: ordering and paging *)

Module sql.

(** [ORDER BY]: [precedes a b] holds when a row of key [a] may stand before
    a row of key [b].  The database leaves open in which order it returns
    rows of equal key, and may choose differently from one query to the
    next; here they stay in table order, and the statements proved of a
    query say nothing that depends on that choice. *)
Fixpoint insert_row {A : Type} (key : A -> nat) (precedes : nat -> nat -> bool)
         (x : A) (rows : list A) : list A :=
  match rows with
  | [] => [x]
  | y :: rest =>
      if precedes (key x) (key y) then x :: y :: rest
      else y :: insert_row key precedes x rest
  end.

Definition order_by {A : Type} (key : A -> nat) (precedes : nat -> nat -> bool)
           (rows : list A) : list A :=
  fold_right (insert_row key precedes) [] rows.

Definition asc (a b : nat) : bool := Nat.leb a b.

Definition desc (a b : nat) : bool := Nat.leb b a.

(** [.offset(skip).limit(limit)] *)
Definition page {A : Type} (skip limit : nat) (rows : list A) : list A :=
  firstn limit (skipn skip rows).

End sql.

(** ** Invoice service: the read operations *)

Module invoice_queries.

Import invoice_models invoice_repository invoice_service.

(** [get_invoices_by_user] *)
Definition get_invoices_by_user (d : Db) (user : string) (skip limit : nat)
  : list Invoice :=
  sql.page skip limit
    (sql.order_by created_at sql.desc
       (filter (fun r => String.eqb (user_id r) user) (invoices d))).

(** [get_invoices_by_customer] *)
Definition get_invoices_by_customer (d : Db) (customer : string) (skip limit : nat)
  : list Invoice :=
  sql.page skip limit
    (sql.order_by created_at sql.desc
       (filter (fun r => String.eqb (customer_id r) customer) (invoices d))).

(** The repository's [get_invoice_payments] with its [order_by(payment_date)]. *)
Definition get_invoice_payments_by_date (d : Db) (invoice_id : nat)
  : list InvoicePayment :=
  sql.order_by payment_date sql.asc (invoice_repository.get_invoice_payments d invoice_id).

(** The repository's [get_invoice_history] *)
Definition get_invoice_history_rows (d : Db) (invoice_id : nat) : list InvoiceHistory :=
  sql.order_by h_created_at sql.desc
    (filter (fun h => Nat.eqb (h_invoice_id h) invoice_id) (invoice_history d)).

(** [InvoiceService.get_user_invoices] *)
Definition get_user_invoices (user : string) (skip limit : nat)
  : M World (list Invoice) :=
  d <- gets db ;;
  ret (get_invoices_by_user d user skip limit).

(** [InvoiceService.get_customer_invoices] *)
Definition get_customer_invoices (user customer : string) (skip limit : nat)
  : M World (list Invoice) :=
  d <- gets db ;;
  let invoices := get_invoices_by_customer d customer skip limit in
  ret (filter (fun inv => String.eqb (user_id inv) user) invoices).

(** [InvoiceService.get_invoice_payments] *)
Definition get_invoice_payments (invoice_id : nat) (user : string)
  : M World (list InvoicePayment) :=
  get_invoice invoice_id user ;;;
  d <- gets db ;;
  ret (get_invoice_payments_by_date d invoice_id).

(** [InvoiceService.get_invoice_history] *)
Definition get_invoice_history (invoice_id : nat) (user : string)
  : M World (list InvoiceHistory) :=
  get_invoice invoice_id user ;;;
  d <- gets db ;;
  ret (get_invoice_history_rows d invoice_id).

End invoice_queries.

(** ** Invoice service: the rows an operation writes *)

Module invoice_rows.

Import invoice_models invoice_service.

(** The key of [update_data] that an entry stands for: the name of a
    column, or a key that names no attribute. *)
Inductive update_key : Type :=
| Column (name : string)
| Other (key : other_key).

Definition key_of (e : update_entry) : update_key :=
  match e with
  | upd_invoice_number _ => Column "invoice_number"
  | upd_user_id _ => Column "user_id"
  | upd_customer_id _ => Column "customer_id"
  | upd_customer_name _ => Column "customer_name"
  | upd_customer_email _ => Column "customer_email"
  | upd_customer_address _ => Column "customer_address"
  | upd_subtotal _ => Column "subtotal"
  | upd_tax_amount _ => Column "tax_amount"
  | upd_discount_amount _ => Column "discount_amount"
  | upd_total_amount _ => Column "total_amount"
  | upd_status _ => Column "status"
  | upd_notes _ => Column "notes"
  | upd_issue_date _ => Column "issue_date"
  | upd_due_date _ => Column "due_date"
  | upd_paid_date _ => Column "paid_date"
  | upd_created_at _ => Column "created_at"
  | upd_updated_at _ => Column "updated_at"
  | upd_other key _ => Other key
  end.

(** The value of the entry is stored as given: an amount is a float and a
    datetime is naive, so that the row read again holds the value itself. *)
Definition stored_as_given (e : update_entry) : bool :=
  match e with
  | upd_subtotal v | upd_tax_amount v | upd_discount_amount v
  | upd_total_amount v => Qeq_bool (float_of v) v
  | upd_issue_date v | upd_created_at v | upd_updated_at v =>
      match v with Naive _ => true | Aware _ => false end
  | upd_due_date v | upd_paid_date v =>
      match v with Some (Aware _) => false | _ => true end
  | _ => true
  end.



(** The database takes a new invoice of this number. *)
Definition storable (d : invoice_repository.Db) (number : string) : bool :=
  Nat.leb (String.length number) 20
  && negb (invoice_repository.number_taken d number).

(** The row that [create_invoice] of the service stores in database [d]. *)
Definition created (now : nat) (random_part user customer : string)
           (customer_nm customer_em : string) (customer_addr : option string)
           (sub tax disc : Q) (nts : option string) (due : option datetime)
           (st : InvoiceStatus) (d : invoice_repository.Db) : Invoice :=
  invoice_repository.new_invoice now user
    (_generate_invoice_number now random_part) customer customer_nm customer_em
    customer_addr (float_of sub) (float_of tax) (float_of disc)
    (float_of (sub + tax - disc)) nts due st d.




End invoice_rows.

(** ** Payment service: the read operations *)

Module payment_queries.

Import payment_models payment_repository payment_service.

(** [get_payment_by_id] *)
Definition get_payment_by_id (d : Db) (pid : nat) : option Payment :=
  find (fun r => Nat.eqb (id r) pid) (payments d).

(** [get_payments_by_invoice_id] *)
Definition get_payments_by_invoice_id (d : Db) (inv_id : nat) : list Payment :=
  filter (fun r => Nat.eqb (invoice_id r) inv_id) (payments d).

(** [get_payments_by_user] *)
Definition get_payments_by_user (d : Db) (user : string) (skip limit : nat)
  : list Payment :=
  sql.page skip limit
    (sql.order_by created_at sql.desc
       (filter (fun r => String.eqb (user_id r) user) (payments d))).

(** [PaymentService.get_payment].  The column [payment_method_details] is
    held decoded, so the [json.loads] of the stored text is the stored value. *)
Definition get_payment (pid : nat) (user : string) : M World Payment :=
  d <- gets db ;;
  match get_payment_by_id d pid with
  | None =>
      raise (HTTPException 404 ("Payment with ID " ++ nat_str pid ++ " not found"))
  | Some payment =>
      if negb (String.eqb (user_id payment) user)
      then raise (HTTPException 403 "Not authorized to access this payment")
      else ret payment
  end.

(** [PaymentService.get_user_payments] *)
Definition get_user_payments (user : string) (skip limit : nat)
  : M World (list Payment) :=
  d <- gets db ;;
  ret (get_payments_by_user d user skip limit).

(** [PaymentService.get_invoice_payments] *)
Definition get_invoice_payments (inv_id : nat) (user : string)
  : M World (list Payment) :=
  d <- gets db ;;
  let payments := get_payments_by_invoice_id d inv_id in
  ret (filter (fun p => String.eqb (user_id p) user) payments).

(** The route [GET /payments]: [invoice_id] is the optional query parameter. *)
Definition get_payments (user : string) (skip limit : nat) (inv_id : option nat)
  : M World (list Payment) :=
  match inv_id with
  | Some (S n) => get_invoice_payments (S n) user
  | _ => get_user_payments user skip limit
  end.

End payment_queries.

(** ** Invoice service: what a request may change *)

Module invoice_frames.

Import invoice_models invoice_repository.

(** Database [d'] differs from [d] at most in the row of invoice [k] and
    in history entries added for [k]. *)
Definition touches_only (k : nat) (d d' : Db) : Prop :=
  (exists added,
      invoice_history d' = (invoice_history d ++ added)%list
      /\ Forall (fun h => h_invoice_id h = k) added)
  /\ map id (invoices d') = map id (invoices d)
  /\ (forall j, j <> k -> get_invoice_by_id d' j = get_invoice_by_id d j)
  /\ invoice_items d' = invoice_items d
  /\ invoice_payments d' = invoice_payments d.

End invoice_frames.

(** ** Discount service: well-formed discount tables *)

Module discount_facts.

Import discount_models discount_repository.

(** A percentage between 0 and 100. *)
Definition percentage (q : Q) : Prop := (0 <= q)%Q /\ (q <= 100)%Q.

(** Every configured discount is a percentage and every cap is not negative. *)
Definition sane (d : Db) : Prop :=
  Forall (fun c => percentage (discount_percent c)
                   /\ match max_discount_amount c with
                      | Some m => (0 <= m)%Q
                      | None => True
                      end) (discount_coupons d)
  /\ Forall (fun u => percentage (ut_discount_percent u)) (user_type_discounts d)
  /\ Forall (fun a => percentage (ab_discount_percent a)) (amount_based_discounts d).

(** The filter of [get_amount_based_discount]: the amount lies in the row's range. *)
Definition in_range (amt : Q) (r : AmountBasedDiscount) : bool :=
  Qle_bool (min_amount r) amt
  && match max_amount r with
     | None => true
     | Some m => Qle_bool amt m
     end.

(** A coupon that [get_coupon_by_code] may return at time [now]. *)
Definition usable (now : nat) (c : DiscountCoupon) : bool :=
  is_active c
  && match valid_until c with
     | None => true
     | Some t => Nat.ltb now t
     end.







End discount_facts.

(** ** Discount service: the route [POST /apply-discount] *)

Module discount_routes.

(** [request.state] as the middlewares left it: an attribute is there or
    not, and [user_id], when there, may be [None]. *)
Record State : Type := {
  state_user_id : option (option string);
  state_correlation_id : option (option string)
}.

Section WithEnvironment.

Variable env : Events.BrokerEnv.
Variable now : nat.

(** [str(e)], as the installed framework renders an exception. *)
Variable str : exn -> string.

(** The route [apply_discount].  None of the exceptions of the model is a
    [ValueError], so the [except ValueError] clause catches none of them;
    [except Exception] catches them all, the route's own [HTTPException]
    included. *)
Definition apply_discount (state : State) (amount : Q) (coupon_code : option string)
  : M discount_service.World discount_schemas.DiscountResponse :=
  try_except
    (let user_id := match state_user_id state with
                    | Some u => u
                    | None => None
                    end in
     match truthy_str user_id with
     | None => raise (HTTPException 401 "Invalid authentication credentials")
     | Some _ =>
         match state_correlation_id state with
         | None => raise (AttributeError "correlation_id")
         | Some correlation_id =>
             discount_service.apply_discount env now amount coupon_code user_id
                                             correlation_id
         end
     end)
    (fun e => raise (HTTPException 500 ("An error occurred: " ++ str e))).

End WithEnvironment.

End discount_routes.

(** ** Authentication middleware: [jwt_middleware] *)

Module jwt_auth.

Import Ascii.

(** [s.startswith(prefix)] *)
Definition startswith (s prefix : string) : bool := String.prefix prefix s.

(** A header value is text decoded byte by byte; these are the characters
    below 256 that [str.split()] takes for whitespace. *)
Definition is_space (c : ascii) : bool :=
  let n := nat_of_ascii c in
  (Nat.leb 9 n && Nat.leb n 13) || (Nat.leb 28 n && Nat.leb n 32)
  || Nat.eqb n 133 || Nat.eqb n 160.

(** [s.split()] with no argument: the maximal runs of characters that are
    not whitespace.  [word] is the run being read. *)
Fixpoint words (s : string) (word : string) : list string :=
  match s with
  | EmptyString => if String.eqb word "" then [] else [word]
  | String c rest =>
      if is_space c
      then if String.eqb word "" then words rest "" else word :: words rest ""
      else words rest (word ++ String c "")
  end.

Definition split (s : string) : list string := words s "".

(** [c.lower()] for a character below 256: the letters A-Z and the
    accented capitals. *)
Definition lower_char (c : ascii) : ascii :=
  let n := nat_of_ascii c in
  if (Nat.leb 65 n && Nat.leb n 90)
     || (Nat.leb 192 n && Nat.leb n 222 && negb (Nat.eqb n 215))
  then ascii_of_nat (n + 32) else c.

(** [s.lower()] *)
Fixpoint lower (s : string) : string :=
  match s with
  | EmptyString => EmptyString
  | String c rest => String (lower_char c) (lower rest)
  end.

(** The paths let through without a token: [shared/jwt_utils.py] exempts
    paths that start with [/webhook], the payment service those that end
    with it. *)
Definition exempt_shared (path : string) : bool :=
  endswith path "/health" || endswith path "/docs"
  || endswith path "/openapi.json" || endswith path "/redoc"
  || startswith path "/webhook".

Definition exempt_payment (path : string) : bool :=
  endswith path "/health" || endswith path "/docs"
  || endswith path "/openapi.json" || endswith path "/redoc"
  || endswith path "/webhook".

Section WithKey.

(** [jwt.decode(token, key, algorithms=[...])]: the claims of a token the
    key verifies, [None] when the library raises [PyJWTError]; it is taken
    to raise nothing else. *)
Variable jwt_decode : string -> option dict.

Variable exempt : string -> bool.

(** The middleware up to [call_next]: it raises, or hands the request on
    with [request.state.user_id] set ([Some]) or untouched ([None]). *)
Definition jwt_middleware (path : string) (authorization : option string)
  : outcome (option value) :=
  if exempt path then Return None
  else
    match truthy_str authorization with
    | None => Raise (HTTPException 401 "Authorization header missing")
    | Some header =>
        match split header with
        | [scheme; token] =>
            if negb (String.eqb (lower scheme) "bearer")
            then Raise (HTTPException 401 "Invalid authentication scheme")
            else
              match jwt_decode token with
              | None => Raise (HTTPException 401 "Invalid authentication credentials")
              | Some payload =>
                  let user_id := dict_get payload "user_id" VNone in
                  if negb (truthy user_id)
                  then Raise (HTTPException 401 "Invalid token payload")
                  else Return (Some user_id)
              end
        | _ => Raise (HTTPException 401 "Invalid authentication credentials")
        end
    end.

End WithKey.

End jwt_auth.

(** ** Payment service: the consumer singleton *)

Module payment_consumer.

(** [EventConsumer.__init__] *)
Definition init {App : Type} (a : App) : event_consumer.Consumer App :=
  {| event_consumer.event_handlers := [];
     event_consumer.app := a;
     event_consumer.acked := [];
     event_consumer.rejected := [];
     event_consumer.log := [] |}.

(** The module-level singleton after the import of [app.core.event_consumer]:
    [handle_invoice_created] is registered for [invoice_created]. *)
Definition event_consumer (w : payment_service.World)
  : event_consumer.Consumer payment_service.World :=
  snd (event_consumer.register_handler "invoice_created"
         payment_service.handle_invoice_created (init w)).

End payment_consumer.

(** ** More sample data *)

Module fixtures.

(** A handler that counts the events it is given, and one that counts and
    then fails. *)
Definition count_event (event : dict) : M nat unit := modify S.

Definition count_then_fail (event : dict) : M nat unit :=
  modify S ;;; raise (TypeError "handler failed").

Definition idle_consumer : event_consumer.Consumer nat :=
  {| event_consumer.event_handlers := [("invoice_created", count_then_fail)];
     event_consumer.app := 0;
     event_consumer.acked := [];
     event_consumer.rejected := [];
     event_consumer.log := [] |}.

Definition invoice_created_message : event_consumer.IncomingMessage :=
  {| event_consumer.delivery_tag := 7;
     event_consumer.msg_body :=
       event_consumer.Json (VDict [("event_id", VStr "e-1");
                                   ("event_type", VStr "invoice_created");
                                   ("payload", VDict [])]) |}.

(** An invoice of 100 with the given id, owner, customer and creation time. *)
Definition invoice_of (k : nat) (user customer : string) (created : nat)
  : invoice_models.Invoice :=
  {| invoice_models.id := k;
     invoice_models.invoice_number := "INV-" ++ invoice_service.nat_str k;
     invoice_models.user_id := user;
     invoice_models.customer_id := customer;
     invoice_models.customer_name := Some "Customer";
     invoice_models.customer_email := Some "customer@example.com";
     invoice_models.customer_address := None;
     invoice_models.subtotal := 100;
     invoice_models.tax_amount := 0;
     invoice_models.discount_amount := 0;
     invoice_models.total_amount := 100;
     invoice_models.status := invoice_models.DRAFT;
     invoice_models.notes := None;
     invoice_models.issue_date := created;
     invoice_models.due_date := None;
     invoice_models.paid_date := None;
     invoice_models.created_at := created;
     invoice_models.updated_at := created |}.

(** A world with two invoices, one of alice and one of bob, and some
    history for each. *)
Definition two_invoices : invoice_service.World :=
  {| invoice_service.db :=
       {| invoice_repository.invoices :=
            [invoice_of 1 "alice" "cust-1" 10; invoice_of 2 "bob" "cust-1" 20];
          invoice_repository.invoice_items := [];
          invoice_repository.invoice_payments := [];
          invoice_repository.invoice_history :=
            [{| invoice_models.h_id := 1; invoice_models.h_invoice_id := 1;
                invoice_models.h_user_id := "alice";
                invoice_models.action := "created";
                invoice_models.details := invoice_models.Created "INV-1";
                invoice_models.h_created_at := 10 |};
             {| invoice_models.h_id := 2; invoice_models.h_invoice_id := 2;
                invoice_models.h_user_id := "bob";
                invoice_models.action := "created";
                invoice_models.details := invoice_models.Created "INV-2";
                invoice_models.h_created_at := 20 |}] |};
     invoice_service.bus := Events.init;
     invoice_service.log := [] |}.

(** An update of two different columns. *)
Definition rename_and_annotate : list invoice_models.update_entry :=
  [invoice_models.upd_customer_name (Some "Customer Renamed");
   invoice_models.upd_notes (Some "net 30")].

(** A discount database whose coupons cannot be used at time 20: one is
    switched off and one expired at time 5.  Regular users get 3%. *)
Definition stale_coupons_db : discount_repository.Db :=
  {| discount_repository.discount_coupons :=
       [{| discount_models.id := 1; discount_models.code := "OLD";
           discount_models.description := None;
           discount_models.discount_percent := 50;
           discount_models.max_discount_amount := None;
           discount_models.is_active := false;
           discount_models.valid_until := None |};
        {| discount_models.id := 2; discount_models.code := "OLD";
           discount_models.description := None;
           discount_models.discount_percent := 40;
           discount_models.max_discount_amount := None;
           discount_models.is_active := true;
           discount_models.valid_until := Some 5 |}];
     discount_repository.user_type_discounts :=
       [{| discount_models.ut_id := 1; discount_models.user_type := "regular";
           discount_models.ut_discount_percent := 3 |}];
     discount_repository.amount_based_discounts := [];
     discount_repository.discount_applications := [] |}.

Definition stale_coupons_world : discount_service.World :=
  {| discount_service.db := stale_coupons_db; discount_service.bus := Events.init |}.

(** A request state as the middlewares leave it for an authenticated call,
    and one for a path the JWT middleware let through without a token. *)
Definition alice_state : discount_routes.State :=
  {| discount_routes.state_user_id := Some (Some "alice");
     discount_routes.state_correlation_id := Some (Some "corr-1") |}.

Definition anonymous_state : discount_routes.State :=
  {| discount_routes.state_user_id := None;
     discount_routes.state_correlation_id := Some (Some "corr-2") |}.

(** A rendering of exceptions that shows the detail or message only. *)
Definition detail_only (e : exn) : string := event_consumer.exn_text e.

(** A token verifier that knows one token, issued to alice. *)
Definition known_token (token : string) : option dict :=
  if String.eqb token "tok-alice"
  then Some [("user_id", VStr "alice"); ("exp", VInt 2000)]
  else None.

End fixtures.

(** * Properties *)

Local Open Scope list_scope.

(** ** The publisher never raises *)

(** [connect] returns normally in every broker environment, makes one call
    of [connect_robust] when the publisher was not connected and none when
    it was, and publishes nothing. *)
Lemma connect_absorbs_failures :
  forall env p,
  exists p',
    Events.connect env p = (Return tt, p') /\
    Events.exchange p' = Events.exchange p /\
    Events.uuids_drawn p' = Events.uuids_drawn p /\
    Events.connect_calls p' =
      (if Events.connected p then Events.connect_calls p
       else S (Events.connect_calls p)) /\
    Events.connected p' =
      (Events.connected p
       || (Events.connect_robust_ok env && Events.channel_ok env
           && Events.declare_exchange_ok env)).
Proof.
  intros [c1 c2 c3 c4 c5] [cn ch cd calls uu ex].
  unfold Events.connect, bind, gets, try_except, ret, modify; simpl.
  destruct cd; simpl.
  - eexists; repeat split.
  - unfold Events.connect_robust, Events.open_channel, Events.declare_exchange; simpl.
    destruct c1; simpl; [destruct c2; simpl; [destruct c3; simpl|]|];
      eexists; repeat split.
Qed.

(** The guarded block returns a boolean: [True] after appending the message,
    [False] with the exchange untouched.  It never touches the connection. *)
Lemma try_publish_returns :
  forall env service_name now rk event_data corr p,
  exists b p',
    Events.try_publish env service_name now rk event_data corr p = (Return b, p') /\
    Events.exchange p' =
      (if b
       then Events.exchange p ++ [Events.sent_message service_name now rk event_data corr p]
       else Events.exchange p) /\
    Events.connect_calls p' = Events.connect_calls p /\
    Events.connected p' = Events.connected p /\
    b = (Events.get_exchange_ok env
         && (serialisable (dict_get event_data "event_type" (VStr "unknown"))
             && serialisable (dict_get event_data "payload" (VDict [])))
         && Events.publish_ok env).
Proof.
  intros env svc now rk ed corr p.
  unfold Events.try_publish, try_except, bind, Events.make_event, Events.uuid4, ret,
    Events.get_exchange, Events.json_dumps, Events.exchange_publish, raise,
    Events.sent_message.
  simpl.
  destruct (truthy_str corr) as [c|]; simpl;
    destruct (Events.get_exchange_ok env); simpl;
    destruct (serialisable (dict_get ed "event_type" (VStr "unknown"))); simpl;
    destruct (serialisable (dict_get ed "payload" (VDict []))); simpl;
    destruct (Events.publish_ok env); simpl;
    eexists; eexists; repeat split.
Qed.

(** [publish_event] in full: it returns the boolean [b], having made one
    connection attempt exactly when the publisher was not connected. *)
Lemma publish_event_returns :
  forall env service_name now rk event_data corr p,
  exists b p',
    Events.publish_event env service_name now rk event_data corr p = (Return b, p') /\
    Events.exchange p' =
      (if b
       then Events.exchange p ++ [Events.sent_message service_name now rk event_data corr p]
       else Events.exchange p) /\
    Events.connect_calls p' =
      (if Events.connected p then Events.connect_calls p
       else S (Events.connect_calls p)) /\
    (Events.connected p' = false -> b = false).
Proof.
  intros env svc now rk ed corr p.
  destruct (connect_absorbs_failures env p) as (p1 & Hc & Hex & Huu & Hcalls & Hconn).
  unfold Events.publish_event.
  unfold bind at 1. unfold gets at 1.
  destruct (Events.connected p) eqn:Hp; simpl.
  - unfold bind at 1. unfold ret at 1. simpl.
    destruct (try_publish_returns env svc now rk ed corr p)
      as (b & p' & Hr & He & Hcc & Hcd & _).
    exists b, p'. rewrite Hr. repeat split; try assumption.
    intros H. rewrite Hcd, Hp in H. discriminate.
  - unfold bind at 1. unfold bind at 1. rewrite Hc.
    unfold gets at 1.
    destruct (Events.connected p1) eqn:Hp1; simpl.
    + destruct (try_publish_returns env svc now rk ed corr p1)
        as (b & p' & Hr & He & Hcc & Hcd & _).
      exists b, p'. rewrite Hr. repeat split.
      * rewrite He, Hex. unfold Events.sent_message. rewrite Huu. reflexivity.
      * rewrite Hcc. assumption.
      * intros H. rewrite Hcd, Hp1 in H. discriminate.
    + unfold ret. exists false, p1. repeat split; assumption.
Qed.

(** What [connect] leaves behind, field by field. *)
Lemma connect_state :
  forall env p,
  exists p',
    Events.connect env p = (Return tt, p') /\
    Events.exchange p' = Events.exchange p /\
    Events.uuids_drawn p' = Events.uuids_drawn p /\
    Events.connect_calls p' =
      (if Events.connected p then Events.connect_calls p
       else S (Events.connect_calls p)) /\
    Events.connected p' =
      (Events.connected p
       || (Events.connect_robust_ok env && Events.channel_ok env
           && Events.declare_exchange_ok env)) /\
    (Events.connected p = true -> p' = p) /\
    (Events.connected p = false -> Events.connected p' = true ->
     Events.connection p' = true).
Proof.
  intros [c1 c2 c3 c4 c5] [cn ch cd calls uu ex].
  unfold Events.connect, bind, gets, try_except, ret, modify; simpl.
  destruct cd; simpl.
  - eexists; repeat split; discriminate.
  - unfold Events.connect_robust, Events.open_channel, Events.declare_exchange; simpl.
    destruct c1; simpl; [destruct c2; simpl; [destruct c3; simpl|]|];
      eexists; repeat split; discriminate.
Qed.

(** What the guarded block of [publish_event] leaves behind. *)
Lemma try_publish_state :
  forall env service_name now rk event_data corr p,
  exists b p',
    Events.try_publish env service_name now rk event_data corr p = (Return b, p') /\
    Events.exchange p' =
      (if b
       then Events.exchange p ++ [Events.sent_message service_name now rk event_data corr p]
       else Events.exchange p) /\
    Events.connect_calls p' = Events.connect_calls p /\
    Events.connected p' = Events.connected p /\
    Events.connection p' = Events.connection p /\
    Events.uuids_drawn p < Events.uuids_drawn p' /\
    b = (Events.get_exchange_ok env
         && (serialisable (dict_get event_data "event_type" (VStr "unknown"))
             && serialisable (dict_get event_data "payload" (VDict [])))
         && Events.publish_ok env).
Proof.
  intros env svc now rk ed corr p.
  unfold Events.try_publish, try_except, bind, Events.make_event, Events.uuid4, ret,
    Events.get_exchange, Events.json_dumps, Events.exchange_publish, raise,
    Events.sent_message.
  simpl.
  destruct (truthy_str corr) as [c|]; simpl;
    destruct (Events.get_exchange_ok env); simpl;
    destruct (serialisable (dict_get ed "event_type" (VStr "unknown"))); simpl;
    destruct (serialisable (dict_get ed "payload" (VDict []))); simpl;
    destruct (Events.publish_ok env); simpl;
    eexists; eexists; repeat split; simpl; lia.
Qed.

(** [publish_event] in full: the boolean it returns and the state it leaves. *)
Lemma publish_event_state :
  forall env service_name now rk event_data corr p,
  exists b p',
    Events.publish_event env service_name now rk event_data corr p = (Return b, p') /\
    Events.exchange p' =
      (if b
       then Events.exchange p ++ [Events.sent_message service_name now rk event_data corr p]
       else Events.exchange p) /\
    Events.connect_calls p' =
      (if Events.connected p then Events.connect_calls p
       else S (Events.connect_calls p)) /\
    Events.uuids_drawn p <= Events.uuids_drawn p' /\
    (b = true -> Events.uuids_drawn p < Events.uuids_drawn p') /\
    ((Events.connected p = true -> Events.connection p = true) ->
     Events.connected p' = true -> Events.connection p' = true) /\
    b = ((Events.connected p
          || (Events.connect_robust_ok env && Events.channel_ok env
              && Events.declare_exchange_ok env))
         && (Events.get_exchange_ok env
             && (serialisable (dict_get event_data "event_type" (VStr "unknown"))
                 && serialisable (dict_get event_data "payload" (VDict [])))
             && Events.publish_ok env)).
Proof.
  intros env svc now rk ed corr p.
  destruct (connect_state env p) as (p1 & Hc & Hex & Huu & Hcalls & Hconn & Hsame & Hlink).
  unfold Events.publish_event.
  unfold bind at 1. unfold gets at 1.
  destruct (Events.connected p) eqn:Hp; simpl.
  - unfold bind at 1. unfold ret at 1. simpl.
    destruct (try_publish_state env svc now rk ed corr p)
      as (b & p' & Hr & He & Hcc & Hcd & Hcn & Hu & Hb).
    exists b, p'. rewrite Hr. repeat split; try assumption; try lia.
    intros Hl _. rewrite Hcn. apply Hl. reflexivity.
  - unfold bind at 1. unfold bind at 1. rewrite Hc.
    unfold gets at 1.
    destruct (Events.connected p1) eqn:Hp1; simpl.
    + destruct (try_publish_state env svc now rk ed corr p1)
        as (b & p' & Hr & He & Hcc & Hcd & Hcn & Hu & Hb).
      exists b, p'. rewrite Hr. repeat split.
      * rewrite He, Hex. unfold Events.sent_message. rewrite Huu. reflexivity.
      * rewrite Hcc. assumption.
      * lia.
      * intros _. lia.
      * intros _ _. rewrite Hcn. apply Hlink; reflexivity.
      * rewrite Hb. simpl in Hconn. rewrite <- Hconn. reflexivity.
    + unfold ret. exists false, p1. repeat split; try assumption; try lia.
      * intros _ H. rewrite H in Hp1. discriminate.
      * simpl in Hconn. rewrite <- Hconn. reflexivity.
Qed.

(** [publish_event] answers, and what it leaves on the exchange. *)
Lemma publish_event_answers :
  forall env service_name now rk event_data corr p,
  exists b,
    Events.publish_event env service_name now rk event_data corr p
    = (Return b, snd (Events.publish_event env service_name now rk event_data corr p)).
Proof.
  intros env svc now rk ed corr p.
  destruct (publish_event_state env svc now rk ed corr p) as (b & p' & H & _).
  exists b. rewrite H. reflexivity.
Qed.

Lemma publish_event_exchange :
  forall env service_name now rk event_data corr p,
    Events.exchange
      (snd (Events.publish_event env service_name now rk event_data corr p))
    = (if publisher_calls.accepted env p event_data
       then Events.exchange p
              ++ [Events.sent_message service_name now rk event_data corr p]
       else Events.exchange p).
Proof.
  intros env svc now rk ed corr p.
  destruct (publish_event_state env svc now rk ed corr p)
    as (b & p' & H & Hex & _ & _ & _ & _ & Hb).
  rewrite H. cbn [snd]. rewrite Hex, Hb. reflexivity.
Qed.

(** C9.  [publish_event] returns a boolean in every broker environment and
    for every input: no exception reaches the caller.  The boolean is [True]
    exactly when the publisher is connected after the one connection attempt
    it may make, the exchange is found, the event encodes as JSON and the
    broker accepts the message.  When it returns [True] it has appended
    exactly one message to the exchange: the payload wrapped in the envelope
    (fresh [event_id], the current time, the given correlation id when it is
    a non-empty string and a fresh one otherwise), with persistent delivery.
    When it returns [False] nothing was published.  A publisher that was
    connected makes no connection attempt; one that was not makes exactly
    one, and returns [False] when that attempt leaves it disconnected. *)
Theorem publish_event_never_raises :
  forall env service_name now rk event_data corr p,
  exists b p',
    Events.publish_event env service_name now rk event_data corr p = (Return b, p') /\
    b = ((Events.connected p
          || (Events.connect_robust_ok env && Events.channel_ok env
              && Events.declare_exchange_ok env))
         && (Events.get_exchange_ok env
             && (serialisable (dict_get event_data "event_type" (VStr "unknown"))
                 && serialisable (dict_get event_data "payload" (VDict [])))
             && Events.publish_ok env)) /\
    Events.exchange p' =
      (if b
       then Events.exchange p
              ++ [Events.sent_message service_name now rk event_data corr p]
       else Events.exchange p) /\
    (b = true ->
     exists m,
       Events.exchange p' = Events.exchange p ++ [m] /\
       Events.delivery_mode m = Events.PERSISTENT /\
       Events.content_type m = "application/json"%string /\
       Events.msg_correlation_id m = corr /\
       Events.routing_key m = rk /\
       Events.message_id m = Events.event_id (Events.body m) /\
       Events.event_id (Events.body m) = Events.Uuid (Events.uuids_drawn p) /\
       Events.timestamp (Events.body m) = now /\
       Events.source_service (Events.body m) = service_name /\
       Events.event_type (Events.body m)
         = dict_get event_data "event_type" (VStr "unknown") /\
       Events.payload (Events.body m) = dict_get event_data "payload" (VDict []) /\
       Events.correlation_id (Events.body m)
         = match truthy_str corr with
           | Some c => Events.Given c
           | None => Events.Uuid (S (Events.uuids_drawn p))
           end) /\
    (b = false -> Events.exchange p' = Events.exchange p) /\
    (Events.connected p = true ->
     Events.connect_calls p' = Events.connect_calls p) /\
    (Events.connected p = false ->
     Events.connect_calls p' = S (Events.connect_calls p) /\
     (Events.connected p' = false -> b = false)).
Proof.
  intros env svc now rk ed corr p.
  destruct (publish_event_returns env svc now rk ed corr p)
    as (b & p' & Hr & He & Hcalls & Hoff).
  destruct (publish_event_state env svc now rk ed corr p)
    as (b2 & p2 & Hr2 & _ & _ & _ & _ & _ & Hb).
  rewrite Hr in Hr2. injection Hr2 as Hbb Hpp. rewrite <- Hbb in Hb.
  exists b, p'. split; [exact Hr|]. split; [exact Hb|]. split; [exact He|].
  clear Hb Hbb Hpp.
  repeat split.
  - intros ->. exists (Events.sent_message svc now rk ed corr p).
    repeat split. exact He.
  - intros ->. exact He.
  - intros H. rewrite H in Hcalls. exact Hcalls.
  - rewrite H in Hcalls. exact Hcalls.
  - exact Hoff.
Qed.

(** With the broker down a fresh publisher tries to connect once, publishes
    nothing and returns [False]; with the broker up it connects and sends one
    persistent message that carries the caller's correlation id. *)
Example publish_with_broker_down :
  let r := Events.publish_event samples.broker_down None 20 "invoice.updated"
             [("event_type"%string, VStr "invoice_updated")] None Events.init in
  fst r = Return false
  /\ Events.connect_calls (snd r) = 1
  /\ Events.exchange (snd r) = [].
Proof. repeat split. Qed.

Example publish_with_broker_up :
  let r := Events.publish_event samples.broker_up None 20 "invoice.updated"
             [("event_type"%string, VStr "invoice_updated")] (Some "corr-1"%string)
             Events.init in
  fst r = Return true
  /\ Events.connect_calls (snd r) = 1
  /\ map Events.delivery_mode (Events.exchange (snd r)) = [Events.PERSISTENT]
  /\ map (fun m => Events.correlation_id (Events.body m)) (Events.exchange (snd r))
     = [Events.Given "corr-1"].
Proof. repeat split. Qed.

(** ** Completion dates are written once *)

(** After [commit] every row is a row that was there or the committed one. *)
Lemma payment_commit_rows :
  forall p d r,
    In r (payment_repository.payments (payment_repository.commit p d)) ->
    In r (payment_repository.payments d) \/ r = p.
Proof.
  intros p d r Hin. unfold payment_repository.commit in Hin. simpl in Hin.
  apply in_map_iff in Hin. destruct Hin as (r0 & Heq & Hr0).
  destruct (Nat.eqb (payment_models.id r0) (payment_models.id p)).
  - right. symmetry. exact Heq.
  - left. subst r0. exact Hr0.
Qed.

Lemma invoice_commit_rows :
  forall i d r,
    In r (invoice_repository.invoices (invoice_repository.commit i d)) ->
    In r (invoice_repository.invoices d) \/ r = i.
Proof.
  intros i d r Hin. unfold invoice_repository.commit in Hin. simpl in Hin.
  apply in_map_iff in Hin. destruct Hin as (r0 & Heq & Hr0).
  destruct (Nat.eqb (invoice_models.id r0) (invoice_models.id i)).
  - right. symmetry. exact Heq.
  - left. subst r0. exact Hr0.
Qed.

Lemma add_history_entry_invoices :
  forall now k user act det d,
    invoice_repository.invoices
      (snd (invoice_repository.add_history_entry now k user act det d))
    = invoice_repository.invoices d.
Proof. reflexivity. Qed.

Lemma payment_date_after_update :
  forall now p st msg reference d,
    payment_models.payment_date
      (fst (payment_repository.update_payment_status now p st msg reference d))
    = match payment_models.payment_date p with
      | Some t => Some t
      | None => if payment_models.PaymentStatus_eqb st payment_models.COMPLETED
                then Some now else None
      end.
Proof.
  intros now p st msg reference d.
  unfold payment_repository.update_payment_status. simpl.
  destruct (payment_models.payment_date p);
    destruct (payment_models.PaymentStatus_eqb st payment_models.COMPLETED);
    reflexivity.
Qed.

Lemma paid_date_after_update :
  forall now i user st d,
    invoice_models.paid_date
      (fst (invoice_repository.update_invoice_status now i user st d))
    = match invoice_models.paid_date i with
      | Some t => Some t
      | None =>
          if negb (invoice_models.InvoiceStatus_eqb (invoice_models.status i) st)
             && invoice_models.InvoiceStatus_eqb st invoice_models.PAID
          then Some now else None
      end.
Proof.
  intros now i user st d.
  unfold invoice_repository.update_invoice_status.
  destruct (invoice_models.InvoiceStatus_eqb (invoice_models.status i) st); simpl.
  - destruct (invoice_models.paid_date i); reflexivity.
  - destruct (invoice_models.InvoiceStatus_eqb st invoice_models.PAID); simpl;
      destruct (invoice_models.paid_date i) eqn:Hd; simpl; rewrite ?Hd;
      reflexivity.
Qed.

Lemma payment_date_kept_by_updates :
  forall updates p d t,
    payment_models.payment_date p = Some t ->
    payment_models.payment_date
      (fst (payment_repository.update_payment_statuses updates p d)) = Some t.
Proof.
  unfold payment_repository.update_payment_statuses.
  induction updates as [|u rest IH]; intros p d t H; simpl.
  - exact H.
  - destruct (payment_repository.update_payment_status
                (payment_repository.su_now u) p (payment_repository.su_status u)
                (payment_repository.su_message u) (payment_repository.su_reference u) d)
      as [p1 d1] eqn:E.
    apply IH.
    pose proof (payment_date_after_update
                  (payment_repository.su_now u) p (payment_repository.su_status u)
                  (payment_repository.su_message u) (payment_repository.su_reference u) d)
      as Hs.
    rewrite E, H in Hs. exact Hs.
Qed.

Lemma paid_date_kept_by_updates :
  forall updates i d t,
    invoice_models.paid_date i = Some t ->
    invoice_models.paid_date
      (fst (invoice_repository.update_invoice_statuses updates i d)) = Some t.
Proof.
  unfold invoice_repository.update_invoice_statuses.
  induction updates as [|u rest IH]; intros i d t H; simpl.
  - exact H.
  - destruct (invoice_repository.update_invoice_status
                (invoice_repository.su_now u) i (invoice_repository.su_user u)
                (invoice_repository.su_status u) d) as [i1 d1] eqn:E.
    apply IH.
    pose proof (paid_date_after_update
                  (invoice_repository.su_now u) i (invoice_repository.su_user u)
                  (invoice_repository.su_status u) d) as Hs.
    rewrite E, H in Hs. exact Hs.
Qed.

(** C10.  [update_payment_status] writes [payment_date] only when it is
    unset and the new status is COMPLETED, and [update_invoice_status] writes
    [paid_date] only when it is unset and the status changes to PAID.  A date
    that is set comes back unchanged whatever the status, message, reference
    or time of the update, and so after any run of later status updates.
    The object returned is the only row an update can have written: every
    other row of the table was there before. *)
Theorem completion_date_written_once :
  (forall now p st msg reference d,
      let p' := fst (payment_repository.update_payment_status now p st msg reference d) in
      let d' := snd (payment_repository.update_payment_status now p st msg reference d) in
      payment_models.payment_date p' =
        match payment_models.payment_date p with
        | Some t => Some t
        | None => if payment_models.PaymentStatus_eqb st payment_models.COMPLETED
                  then Some now else None
        end
      /\ forall r, In r (payment_repository.payments d') ->
                   In r (payment_repository.payments d) \/ r = p')
  /\
  (forall updates p d t,
      payment_models.payment_date p = Some t ->
      payment_models.payment_date
        (fst (payment_repository.update_payment_statuses updates p d)) = Some t)
  /\
  (forall now i user st d,
      let i' := fst (invoice_repository.update_invoice_status now i user st d) in
      let d' := snd (invoice_repository.update_invoice_status now i user st d) in
      invoice_models.paid_date i' =
        match invoice_models.paid_date i with
        | Some t => Some t
        | None =>
            if negb (invoice_models.InvoiceStatus_eqb (invoice_models.status i) st)
               && invoice_models.InvoiceStatus_eqb st invoice_models.PAID
            then Some now else None
        end
      /\ forall r, In r (invoice_repository.invoices d') ->
                   In r (invoice_repository.invoices d) \/ r = i')
  /\
  (forall updates i d t,
      invoice_models.paid_date i = Some t ->
      invoice_models.paid_date
        (fst (invoice_repository.update_invoice_statuses updates i d)) = Some t).
Proof.
  split; [|split; [|split]].
  - intros now p st msg reference d p' d'. split.
    + apply payment_date_after_update.
    + intros r Hin. subst p' d'.
      unfold payment_repository.update_payment_status in *. simpl in *.
      apply payment_commit_rows. exact Hin.
  - exact payment_date_kept_by_updates.
  - intros now i user st d i' d'. split.
    + apply paid_date_after_update.
    + intros r Hin. subst i' d'.
      unfold invoice_repository.update_invoice_status in *.
      destruct (invoice_models.InvoiceStatus_eqb (invoice_models.status i) st);
        cbn [negb fst snd] in *.
      * left. exact Hin.
      * rewrite add_history_entry_invoices in Hin.
        apply invoice_commit_rows in Hin. exact Hin.
  - exact paid_date_kept_by_updates.
Qed.

(** A payment completed at time 20 keeps that date when it is later marked
    REFUNDED at 30 and COMPLETED again at 40. *)
Example payment_date_survives_refund :
  payment_models.payment_date
    (fst (payment_repository.update_payment_statuses
            [{| payment_repository.su_now := 20;
                payment_repository.su_status := payment_models.COMPLETED;
                payment_repository.su_message := None;
                payment_repository.su_reference := Some "gw-1"%string |};
             {| payment_repository.su_now := 30;
                payment_repository.su_status := payment_models.REFUNDED;
                payment_repository.su_message := Some "Payment refunded"%string;
                payment_repository.su_reference := None |};
             {| payment_repository.su_now := 40;
                payment_repository.su_status := payment_models.COMPLETED;
                payment_repository.su_message := None;
                payment_repository.su_reference := None |}]
            samples.processing_payment
            (payment_service.db (samples.payment_world samples.processing_payment))))
  = Some 20.
Proof. reflexivity. Qed.

(** ** Monad and lookup facts shared by the service proofs *)

Lemma bind_return :
  forall (S A B : Type) (m : M S A) (k : A -> M S B) s a s',
    m s = (Return a, s') -> bind m k s = k a s'.
Proof. intros S A B m k s a s' H. unfold bind. rewrite H. reflexivity. Qed.

Lemma bind_raise :
  forall (S A B : Type) (m : M S A) (k : A -> M S B) s e s',
    m s = (Raise e, s') -> bind m k s = (Raise e, s').
Proof. intros S A B m k s e s' H. unfold bind. rewrite H. reflexivity. Qed.

Lemma bind_assoc :
  forall (S A B C : Type) (m : M S A) (f : A -> M S B) (g : B -> M S C) s,
    bind (bind m f) g s = bind m (fun x => bind (f x) g) s.
Proof.
  intros. unfold bind. destruct (m s) as [[a|e] s']; reflexivity.
Qed.

Lemma InvoiceStatus_eqb_eq :
  forall a b, invoice_models.InvoiceStatus_eqb a b = true <-> a = b.
Proof. intros [] []; simpl; split; intros H; try reflexivity; discriminate. Qed.

Lemma InvoiceStatus_eqb_refl :
  forall a, invoice_models.InvoiceStatus_eqb a a = true.
Proof. intros []; reflexivity. Qed.

Lemma InvoiceStatus_eqb_neq :
  forall a b, invoice_models.InvoiceStatus_eqb a b = false <-> a <> b.
Proof.
  intros a b. split.
  - intros H E. apply InvoiceStatus_eqb_eq in E. congruence.
  - intros H. destruct (invoice_models.InvoiceStatus_eqb a b) eqn:E; [|reflexivity].
    apply InvoiceStatus_eqb_eq in E. contradiction.
Qed.

(** A row found by key carries that key. *)
Lemma get_invoice_by_id_key :
  forall d k i,
    invoice_repository.get_invoice_by_id d k = Some i -> invoice_models.id i = k.
Proof.
  intros d k i H. unfold invoice_repository.get_invoice_by_id in H.
  apply find_some in H. destruct H as [_ H]. apply Nat.eqb_eq. exact H.
Qed.

(** After a commit of a row with key [k], the lookup of [k] gives that row. *)
Lemma get_invoice_by_id_commit :
  forall d k i0 i,
    invoice_repository.get_invoice_by_id d k = Some i0 ->
    invoice_models.id i = k ->
    invoice_repository.get_invoice_by_id (invoice_repository.commit i d) k = Some i.
Proof.
  intros d k i0 i H Hk. subst k.
  unfold invoice_repository.get_invoice_by_id, invoice_repository.commit in *.
  simpl. induction (invoice_repository.invoices d) as [|r rows IH]; simpl in *.
  - discriminate.
  - destruct (Nat.eqb (invoice_models.id r) (invoice_models.id i)) eqn:E.
    + rewrite Nat.eqb_refl. reflexivity.
    + rewrite E. apply IH. exact H.
Qed.

Lemma get_invoice_by_id_history :
  forall now j user act det d k,
    invoice_repository.get_invoice_by_id
      (snd (invoice_repository.add_history_entry now j user act det d)) k
    = invoice_repository.get_invoice_by_id d k.
Proof. reflexivity. Qed.

Section InvoiceServiceFacts.

Import invoice_models invoice_repository invoice_service.

Variable settings : Settings.
Variable env : Events.BrokerEnv.
Variable now : nat.

Lemma get_invoice_found :
  forall w k user invoice,
    get_invoice_by_id (db w) k = Some invoice ->
    get_invoice k user w =
      (if String.eqb (user_id invoice) user
       then Return invoice
       else Raise (HTTPException 403 "Not authorized to access this invoice"), w).
Proof.
  intros w k user invoice H. unfold get_invoice, bind, gets. rewrite H.
  destruct (String.eqb (user_id invoice) user); reflexivity.
Qed.

Lemma get_invoice_missing :
  forall w k user,
    get_invoice_by_id (db w) k = None ->
    get_invoice k user w =
      (Raise (HTTPException 404 ("Invoice with ID " ++ nat_str k ++ " not found")%string), w).
Proof.
  intros w k user H. unfold get_invoice, bind, gets. rewrite H. reflexivity.
Qed.

(** The two publish calls of the invoice service return a boolean and
    change nothing but the publisher. *)
Lemma publish_invoice_created_returns :
  forall data corr w,
  exists b p',
    on_bus (invoice_event_publisher.publish_invoice_created env now data corr) w
    = (Return b, {| db := db w; bus := p'; log := log w |}).
Proof.
  intros data corr w.
  unfold on_bus, zoom, invoice_event_publisher.publish_invoice_created.
  match goal with
  | |- context [Events.publish_event ?e ?s ?n ?rk ?ed ?c ?p] =>
      destruct (publish_event_returns e s n rk ed c p) as (b & p' & H & _)
  end.
  exists b, p'. rewrite H. reflexivity.
Qed.

Lemma publish_invoice_updated_returns :
  forall data corr w,
  exists b p',
    on_bus (invoice_event_publisher.publish_invoice_updated env now data corr) w
    = (Return b, {| db := db w; bus := p'; log := log w |}).
Proof.
  intros data corr w.
  unfold on_bus, zoom, invoice_event_publisher.publish_invoice_updated.
  match goal with
  | |- context [Events.publish_event ?e ?s ?n ?rk ?ed ?c ?p] =>
      destruct (publish_event_returns e s n rk ed c p) as (b & p' & H & _)
  end.
  exists b, p'. rewrite H. reflexivity.
Qed.

Lemma on_db_run :
  forall (A : Type) (f : Db -> A * Db) w,
    on_db f w = (Return (fst (f (db w))),
                 {| db := snd (f (db w)); bus := bus w; log := log w |}).
Proof. intros A f w. unfold on_db. destruct (f (db w)); reflexivity. Qed.

(** [issue_invoice] by the owner of a DRAFT invoice returns the row
    [update_invoice_status] produced and stores it. *)
Lemma issue_invoice_draft :
  forall w k user corr invoice,
    get_invoice_by_id (db w) k = Some invoice ->
    user_id invoice = user ->
    status invoice = DRAFT ->
    exists w',
      issue_invoice settings env now k user corr w
      = (Return (fst (update_invoice_status now invoice user ISSUED (db w))), w')
      /\ db w' = snd (update_invoice_status now invoice user ISSUED (db w)).
Proof.
  intros w k user corr invoice Hget Huser Hst.
  unfold issue_invoice.
  pose proof (get_invoice_found w k user Hget) as Hg.
  rewrite Huser, String.eqb_refl in Hg.
  erewrite bind_return by exact Hg.
  rewrite Hst. cbn [InvoiceStatus_eqb negb].
  erewrite bind_return by apply on_db_run.
  match goal with
  | |- context [on_bus (invoice_event_publisher.publish_invoice_created ?e ?n ?data ?c)] =>
      match goal with
      | |- context [bind _ _ ?w1] =>
          destruct (publish_invoice_created_returns data c w1) as (b & p' & Hp)
      end
  end.
  erewrite bind_return by exact Hp.
  cbn [db bus log].
  destruct (PDF_GENERATION_ENABLED settings).
  - eexists. split; [reflexivity|]. reflexivity.
  - eexists. split; [reflexivity|]. reflexivity.
Qed.

(** [issue_invoice] on an invoice that is not DRAFT raises and changes
    nothing, whoever asks. *)
Lemma issue_invoice_rejected :
  forall w k user corr invoice,
    get_invoice_by_id (db w) k = Some invoice ->
    status invoice <> DRAFT ->
    issue_invoice settings env now k user corr w =
      (Raise (if String.eqb (user_id invoice) user
              then HTTPException 400
                     ("Can only issue draft invoices. Current status: "
                        ++ InvoiceStatus_value (status invoice))%string
              else HTTPException 403 "Not authorized to access this invoice"), w).
Proof.
  intros w k user corr invoice Hget Hst.
  unfold issue_invoice.
  pose proof (get_invoice_found w k user Hget) as Hg.
  destruct (String.eqb (user_id invoice) user).
  - erewrite bind_return by exact Hg.
    apply InvoiceStatus_eqb_neq in Hst. rewrite Hst. reflexivity.
  - erewrite bind_raise by exact Hg. reflexivity.
Qed.

(** [update_invoice] on an invoice that is not DRAFT raises and changes nothing. *)
Lemma update_invoice_rejected :
  forall w k user data corr invoice,
    get_invoice_by_id (db w) k = Some invoice ->
    status invoice <> DRAFT ->
    update_invoice now k user data corr w =
      (Raise (if String.eqb (user_id invoice) user
              then HTTPException 400 "Can only update draft invoices"
              else HTTPException 403 "Not authorized to access this invoice"), w).
Proof.
  intros w k user data corr invoice Hget Hst.
  unfold update_invoice.
  pose proof (get_invoice_found w k user Hget) as Hg.
  destruct (String.eqb (user_id invoice) user).
  - erewrite bind_return by exact Hg.
    apply InvoiceStatus_eqb_neq in Hst. rewrite Hst. reflexivity.
  - erewrite bind_raise by exact Hg. reflexivity.
Qed.

(** [cancel_invoice] on a PAID invoice raises and changes nothing. *)
Lemma cancel_invoice_rejected :
  forall w k user corr invoice,
    get_invoice_by_id (db w) k = Some invoice ->
    status invoice = PAID ->
    cancel_invoice env now k user corr w =
      (Raise (if String.eqb (user_id invoice) user
              then HTTPException 400 "Cannot cancel paid invoices"
              else HTTPException 403 "Not authorized to access this invoice"), w).
Proof.
  intros w k user corr invoice Hget Hst.
  unfold cancel_invoice.
  pose proof (get_invoice_found w k user Hget) as Hg.
  destruct (String.eqb (user_id invoice) user).
  - erewrite bind_return by exact Hg. rewrite Hst. reflexivity.
  - erewrite bind_raise by exact Hg. reflexivity.
Qed.

(** [cancel_invoice] by the owner of an invoice that is not PAID returns the
    row [update_invoice_status] produced; the database is the one that call
    left and the log is untouched. *)
Lemma cancel_invoice_accepted :
  forall w k user corr invoice,
    get_invoice_by_id (db w) k = Some invoice ->
    user_id invoice = user ->
    status invoice <> PAID ->
    exists w',
      cancel_invoice env now k user corr w
      = (Return (fst (update_invoice_status now invoice user CANCELLED (db w))), w')
      /\ db w' = snd (update_invoice_status now invoice user CANCELLED (db w))
      /\ log w' = log w.
Proof.
  intros w k user corr invoice Hget Huser Hst.
  unfold cancel_invoice.
  pose proof (get_invoice_found w k user Hget) as Hg.
  rewrite Huser, String.eqb_refl in Hg.
  erewrite bind_return by exact Hg.
  apply InvoiceStatus_eqb_neq in Hst. rewrite Hst.
  erewrite bind_return by apply on_db_run.
  match goal with
  | |- context [on_bus (invoice_event_publisher.publish_invoice_updated ?e ?n ?data ?c)] =>
      match goal with
      | |- context [bind _ _ ?w1] =>
          destruct (publish_invoice_updated_returns data c w1) as (b & p' & Hp)
      end
  end.
  erewrite bind_return by exact Hp.
  cbn [db bus log].
  eexists. split; [reflexivity|]. split; reflexivity.
Qed.

End InvoiceServiceFacts.

(** What [update_invoice_status] leaves alone, and what it sets. *)
Lemma update_invoice_status_result :
  forall now i user st d,
    let i' := fst (invoice_repository.update_invoice_status now i user st d) in
    invoice_models.status i' = st /\
    invoice_models.id i' = invoice_models.id i /\
    invoice_models.user_id i' = invoice_models.user_id i /\
    invoice_models.subtotal i' = invoice_models.subtotal i /\
    invoice_models.tax_amount i' = invoice_models.tax_amount i /\
    invoice_models.discount_amount i' = invoice_models.discount_amount i /\
    invoice_models.total_amount i' = invoice_models.total_amount i.
Proof.
  intros now i user st d i'. subst i'.
  unfold invoice_repository.update_invoice_status.
  destruct (invoice_models.InvoiceStatus_eqb (invoice_models.status i) st) eqn:E;
    cbn [negb fst].
  - apply InvoiceStatus_eqb_eq in E. repeat split; assumption.
  - destruct (invoice_models.InvoiceStatus_eqb st invoice_models.PAID
              && invoice_repository.is_none
                   (invoice_models.paid_date (invoice_models.with_status st i)));
      repeat split.
Qed.

(** The row [update_invoice_status] returns is the row stored under its key. *)
Lemma update_invoice_status_stored :
  forall now i user st d k,
    invoice_repository.get_invoice_by_id d k = Some i ->
    invoice_repository.get_invoice_by_id
      (snd (invoice_repository.update_invoice_status now i user st d)) k
    = Some (fst (invoice_repository.update_invoice_status now i user st d)).
Proof.
  intros now i user st d k H.
  pose proof (get_invoice_by_id_key _ _ H) as Hk.
  pose proof (update_invoice_status_result now i user st d) as (_ & Hid & _).
  revert Hid.
  unfold invoice_repository.update_invoice_status.
  destruct (invoice_models.InvoiceStatus_eqb (invoice_models.status i) st);
    cbn [negb fst snd]; intros Hid.
  - exact H.
  - rewrite get_invoice_by_id_history.
    eapply get_invoice_by_id_commit; [exact H|].
    rewrite Hid. exact Hk.
Qed.

(** Re-applying the status an invoice already has changes nothing. *)
Lemma update_invoice_status_same :
  forall now i user d,
    invoice_repository.update_invoice_status now i user (invoice_models.status i) d
    = (i, d).
Proof.
  intros now i user d. unfold invoice_repository.update_invoice_status.
  rewrite InvoiceStatus_eqb_refl. reflexivity.
Qed.

(** ** Issuing is possible from DRAFT only *)

(** C3.  Take an invoice stored under key [k].  If its status is not DRAFT,
    [issue_invoice] raises for every caller and returns the world unchanged,
    and for the owner the exception is the 400 that names the current
    status.  If it is DRAFT, the owner's [issue_invoice] returns the invoice
    with status ISSUED, stored under [k]; a second [issue_invoice], at any
    later time and broker state, raises that 400 and leaves the world, and
    so the status ISSUED, as the first call left it. *)
Theorem issue_invoice_only_from_draft :
  forall settings env now w k corr invoice,
    invoice_repository.get_invoice_by_id (invoice_service.db w) k = Some invoice ->
    (invoice_models.status invoice <> invoice_models.DRAFT ->
     (forall user, exists e,
         invoice_service.issue_invoice settings env now k user corr w = (Raise e, w))
     /\ invoice_service.issue_invoice settings env now k
          (invoice_models.user_id invoice) corr w
        = (Raise (HTTPException 400
                    ("Can only issue draft invoices. Current status: "
                       ++ invoice_models.InvoiceStatus_value
                            (invoice_models.status invoice))%string), w))
    /\
    (invoice_models.status invoice = invoice_models.DRAFT ->
     exists issued w1,
       invoice_service.issue_invoice settings env now k
         (invoice_models.user_id invoice) corr w = (Return issued, w1)
       /\ invoice_models.status issued = invoice_models.ISSUED
       /\ invoice_repository.get_invoice_by_id (invoice_service.db w1) k = Some issued
       /\ forall settings2 env2 now2 corr2,
           invoice_service.issue_invoice settings2 env2 now2 k
             (invoice_models.user_id invoice) corr2 w1
           = (Raise (HTTPException 400
                       "Can only issue draft invoices. Current status: issued"), w1)).
Proof.
  intros settings env now w k corr invoice Hget. split.
  - intros Hst. split.
    + intros user. eexists.
      apply (issue_invoice_rejected settings env now w k user corr Hget Hst).
    + rewrite (issue_invoice_rejected settings env now w k
                 (invoice_models.user_id invoice) corr Hget Hst).
      rewrite String.eqb_refl. reflexivity.
  - intros Hst.
    destruct (issue_invoice_draft settings env now w k corr Hget eq_refl Hst)
      as (w1 & Hrun & Hdb).
    pose proof (update_invoice_status_result now invoice
                  (invoice_models.user_id invoice) invoice_models.ISSUED
                  (invoice_service.db w)) as (Hs & _ & Hu & _).
    pose proof (@update_invoice_status_stored now invoice
                  (invoice_models.user_id invoice) invoice_models.ISSUED
                  (invoice_service.db w) k Hget)
      as Hstored.
    rewrite <- Hdb in Hstored.
    eexists. exists w1. split; [exact Hrun|]. split; [exact Hs|].
    split; [exact Hstored|].
    intros settings2 env2 now2 corr2.
    rewrite (issue_invoice_rejected settings2 env2 now2 w1 k
               (invoice_models.user_id invoice) corr2 Hstored).
    + rewrite Hu, String.eqb_refl, Hs. reflexivity.
    + rewrite Hs. discriminate.
Qed.

(** The theorem at the sample DRAFT invoice of alice: the first call issues
    it, the second is refused. *)
Lemma issue_invoice_only_from_draft_witness :
  invoice_repository.get_invoice_by_id
    (invoice_service.db (samples.invoice_world (samples.invoice_in invoice_models.DRAFT None))) 1
  = Some (samples.invoice_in invoice_models.DRAFT None)
  /\ exists issued w1,
      invoice_service.issue_invoice samples.settings samples.broker_up 20 1 "alice" None
        (samples.invoice_world (samples.invoice_in invoice_models.DRAFT None))
      = (Return issued, w1)
      /\ invoice_models.status issued = invoice_models.ISSUED
      /\ invoice_service.issue_invoice samples.settings samples.broker_up 30 1 "alice" None w1
         = (Raise (HTTPException 400
                     "Can only issue draft invoices. Current status: issued"), w1).
Proof.
  split; [reflexivity|].
  destruct (issue_invoice_only_from_draft samples.settings samples.broker_up 20
              (samples.invoice_world (samples.invoice_in invoice_models.DRAFT None))
              1 None (invoice := samples.invoice_in invoice_models.DRAFT None) eq_refl)
    as [_ H].
  destruct (H eq_refl) as (issued & w1 & Hrun & Hs & _ & Hagain).
  exists issued, w1. split; [exact Hrun|]. split; [exact Hs|].
  apply Hagain.
Defined.

(** ** Cancelling *)

(** No request against a CANCELLED invoice changes the database. *)
Lemma execute_on_cancelled :
  forall k r w invoice,
    invoice_repository.get_invoice_by_id (invoice_service.db w) k = Some invoice ->
    invoice_models.status invoice = invoice_models.CANCELLED ->
    invoice_service.db (invoice_requests.execute k r w) = invoice_service.db w.
Proof.
  intros k [settings env now cmd] w invoice Hget Hst.
  assert (Hnd : invoice_models.status invoice <> invoice_models.DRAFT)
    by (rewrite Hst; discriminate).
  unfold invoice_requests.execute; simpl.
  destruct cmd as [user data corr | user corr | user corr | event].
  - rewrite (@update_invoice_rejected now w k user data corr invoice Hget Hnd).
    reflexivity.
  - rewrite (@issue_invoice_rejected settings env now w k user corr invoice Hget Hnd).
    reflexivity.
  - destruct (String.eqb (invoice_models.user_id invoice) user) eqn:Eu.
    + apply String.eqb_eq in Eu.
      assert (Hnp : invoice_models.status invoice <> invoice_models.PAID)
        by (rewrite Hst; discriminate).
      destruct (@cancel_invoice_accepted env now w k user corr invoice Hget Eu Hnp)
        as (w' & Hrun & Hdb & _).
      rewrite Hrun. simpl. rewrite Hdb, <- Hst.
      rewrite update_invoice_status_same. reflexivity.
    + unfold invoice_service.cancel_invoice.
      pose proof (@get_invoice_found w k user invoice Hget) as Hg.
      rewrite Eu in Hg.
      erewrite bind_raise by exact Hg. reflexivity.
  - reflexivity.
Qed.

Lemma execute_all_on_cancelled :
  forall k rs w invoice,
    invoice_repository.get_invoice_by_id (invoice_service.db w) k = Some invoice ->
    invoice_models.status invoice = invoice_models.CANCELLED ->
    invoice_service.db (invoice_requests.execute_all k rs w) = invoice_service.db w.
Proof.
  intros k rs. induction rs as [|r rs IH]; intros w invoice Hget Hst.
  - reflexivity.
  - unfold invoice_requests.execute_all in *. simpl.
    pose proof (execute_on_cancelled k r w Hget Hst) as Hstep.
    rewrite (IH (invoice_requests.execute k r w) invoice).
    + exact Hstep.
    + rewrite Hstep. exact Hget.
    + exact Hst.
Qed.

(** C4.  Take an invoice stored under key [k].  If it is PAID,
    [cancel_invoice] raises for every caller and changes nothing.  If it is
    DRAFT or ISSUED, the owner's [cancel_invoice] returns it with status
    CANCELLED, stored under [k].  Once it is CANCELLED, [update_invoice] and
    [issue_invoice] raise for every caller and change nothing, and after any
    sequence of update, issue, cancel and payment-received requests against
    it the database is the same: the invoice stays CANCELLED. *)
Theorem cancel_invoice_lifecycle :
  forall env now w k corr invoice,
    invoice_repository.get_invoice_by_id (invoice_service.db w) k = Some invoice ->
    (invoice_models.status invoice = invoice_models.PAID ->
     forall user, exists e,
       invoice_service.cancel_invoice env now k user corr w = (Raise e, w))
    /\
    (invoice_models.status invoice = invoice_models.DRAFT
     \/ invoice_models.status invoice = invoice_models.ISSUED ->
     exists cancelled w1,
       invoice_service.cancel_invoice env now k (invoice_models.user_id invoice) corr w
       = (Return cancelled, w1)
       /\ invoice_models.status cancelled = invoice_models.CANCELLED
       /\ invoice_repository.get_invoice_by_id (invoice_service.db w1) k
          = Some cancelled)
    /\
    (invoice_models.status invoice = invoice_models.CANCELLED ->
     (forall now2 user data corr2, exists e,
         invoice_service.update_invoice now2 k user data corr2 w = (Raise e, w))
     /\ (forall settings2 env2 now2 user corr2, exists e,
            invoice_service.issue_invoice settings2 env2 now2 k user corr2 w
            = (Raise e, w))
     /\ forall requests,
         invoice_service.db (invoice_requests.execute_all k requests w)
         = invoice_service.db w).
Proof.
  intros env now w k corr invoice Hget. split; [|split].
  - intros Hst user. eexists.
    apply (@cancel_invoice_rejected env now w k user corr invoice Hget Hst).
  - intros Hst.
    assert (Hnp : invoice_models.status invoice <> invoice_models.PAID)
      by (destruct Hst as [H|H]; rewrite H; discriminate).
    destruct (@cancel_invoice_accepted env now w k (invoice_models.user_id invoice)
                corr invoice Hget eq_refl Hnp) as (w1 & Hrun & Hdb & _).
    pose proof (update_invoice_status_result now invoice
                  (invoice_models.user_id invoice) invoice_models.CANCELLED
                  (invoice_service.db w)) as (Hs & _).
    pose proof (@update_invoice_status_stored now invoice
                  (invoice_models.user_id invoice) invoice_models.CANCELLED
                  (invoice_service.db w) k Hget) as Hstored.
    rewrite <- Hdb in Hstored.
    eexists. exists w1. split; [exact Hrun|]. split; [exact Hs | exact Hstored].
  - intros Hst.
    assert (Hnd : invoice_models.status invoice <> invoice_models.DRAFT)
      by (rewrite Hst; discriminate).
    split; [|split].
    + intros now2 user data corr2. eexists.
      apply (@update_invoice_rejected now2 w k user data corr2 invoice Hget Hnd).
    + intros settings2 env2 now2 user corr2. eexists.
      apply (@issue_invoice_rejected settings2 env2 now2 w k user corr2 invoice Hget Hnd).
    + intros requests. apply (execute_all_on_cancelled k requests w Hget Hst).
Qed.

(** The theorem at the sample invoice of alice.  ISSUED, it is cancelled,
    after which no sequence of requests changes the database and a new
    [issue_invoice] is refused; PAID, the cancellation is refused. *)
Lemma cancel_invoice_lifecycle_witness :
  (exists cancelled w1,
      invoice_service.cancel_invoice samples.broker_up 20 1 "alice" None
        (samples.invoice_world (samples.invoice_in invoice_models.ISSUED None))
      = (Return cancelled, w1)
      /\ invoice_models.status cancelled = invoice_models.CANCELLED
      /\ (forall requests,
             invoice_service.db (invoice_requests.execute_all 1 requests w1)
             = invoice_service.db w1)
      /\ exists e,
          invoice_service.issue_invoice samples.settings samples.broker_up 30 1
            "alice" None w1 = (Raise e, w1))
  /\ exists e,
      invoice_service.cancel_invoice samples.broker_up 20 1 "alice" None
        (samples.invoice_world (samples.invoice_in invoice_models.PAID (Some 15)))
      = (Raise e, samples.invoice_world (samples.invoice_in invoice_models.PAID (Some 15))).
Proof.
  split.
  - destruct (@cancel_invoice_lifecycle samples.broker_up 20
                (samples.invoice_world (samples.invoice_in invoice_models.ISSUED None))
                1 None (samples.invoice_in invoice_models.ISSUED None) eq_refl)
      as (_ & H & _).
    destruct (H (or_intror eq_refl)) as (c & w1 & Hrun & Hs & Hstored).
    destruct (@cancel_invoice_lifecycle samples.broker_up 30 w1 1 None c Hstored)
      as (_ & _ & Hterminal).
    destruct (Hterminal Hs) as (_ & Hissue & Hall).
    exists c, w1. split; [exact Hrun|]. split; [exact Hs|].
    split; [exact Hall|].
    exact (Hissue samples.settings samples.broker_up 30 "alice"%string None).
  - destruct (@cancel_invoice_lifecycle samples.broker_up 20
                (samples.invoice_world (samples.invoice_in invoice_models.PAID (Some 15)))
                1 None (samples.invoice_in invoice_models.PAID (Some 15)) eq_refl)
      as (H & _).
    exact (H eq_refl "alice"%string).
Defined.

(** A repeated [cancel_invoice] by the owner is answered with the invoice
    again: [update_invoice_status] finds the status unchanged and writes
    nothing (no row, no history entry), and a second [invoice.updated]
    message goes out. *)
Example repeated_cancel_changes_nothing :
  let w0 := samples.invoice_world (samples.invoice_in invoice_models.ISSUED None) in
  let r1 := invoice_service.cancel_invoice samples.broker_up 20 1 "alice" None w0 in
  let r2 := invoice_service.cancel_invoice samples.broker_up 30 1 "alice" None (snd r1) in
  fst r2 = fst r1
  /\ invoice_service.db (snd r2) = invoice_service.db (snd r1)
  /\ List.length (invoice_repository.invoice_history (invoice_service.db (snd r2))) = 1
  /\ map Events.routing_key (Events.exchange (invoice_service.bus (snd r2)))
     = ["invoice.updated"%string; "invoice.updated"%string].
Proof. vm_compute. repeat split. Qed.

(** ** The total of an invoice *)

Lemma invoice_in_db_run :
  forall (A : Type) (m : M invoice_repository.Db A) w r d,
    m (invoice_service.db w) = (r, d) ->
    invoice_service.in_db m w
    = (r, {| invoice_service.db := d; invoice_service.bus := invoice_service.bus w;
             invoice_service.log := invoice_service.log w |}).
Proof.
  intros A m w r d H. unfold invoice_service.in_db, zoom. rewrite H. reflexivity.
Qed.

Section TotalInvariant.

Import invoice_models invoice_repository invoice_service invoice_invariants.





(** An update that fails at the commit leaves the database as it was. *)
Lemma update_invoice_raises :
  forall now i user data d e d',
    invoice_repository.update_invoice now i user data d = (Raise e, d') -> d' = d.
Proof.
  intros now i user data d e d' H.
  unfold invoice_repository.update_invoice in H.
  destruct (assign_entries i data []) as [assigned dets].
  destruct dets as [|x xs]; [discriminate|].
  destruct (number_check d i (with_updated_at now assigned)); inversion H; reflexivity.
Qed.





End TotalInvariant.

Lemma string_length_append :
  forall a b : string, String.length (a ++ b) = String.length a + String.length b.
Proof.
  induction a as [|c a IH]; intros b; simpl; [reflexivity | rewrite IH; reflexivity].
Qed.

(** A generated number fits the column only while the digits of the
    timestamp and the random part are no more than fifteen. *)
Lemma storable_number_length :
  forall d now rnd,
    invoice_rows.storable d (invoice_service._generate_invoice_number now rnd) = true ->
    String.length (invoice_service.nat_str now) + String.length rnd <= 15.
Proof.
  intros d now rnd H. unfold invoice_rows.storable in H.
  apply andb_prop in H. destruct H as [H _]. apply Nat.leb_le in H.
  unfold invoice_service._generate_invoice_number in H.
  rewrite !string_length_append in H. simpl in H. lia.
Qed.

Section TotalInvariantOfService.

Import invoice_models invoice_repository invoice_service invoice_invariants.

Variable settings : Settings.
Variable env : Events.BrokerEnv.
Variable now : nat.






End TotalInvariantOfService.





(** It fails for [create_invoice] as well, by rounding: an invoice of 0.1
    with 0.2 tax and no discount is stored with the floats nearest to 0.1,
    0.2 and 0.3, and the float nearest to 0.3 is not the sum of the other
    two, neither exactly nor as Python adds floats. *)
Lemma create_invoice_rounds_total :
  exists inv w',
    invoice_service.create_invoice samples.broker_up 20 "12345678" "alice" "cust-1"
      "Customer One" "one@example.com" None (1 # 10) (2 # 10) 0 [] None None
      invoice_models.DRAFT None
      {| invoice_service.db := invoice_repository.empty_db;
         invoice_service.bus := Events.init;
         invoice_service.log := [] |}
    = (Return inv, w')
    /\ invoice_repository.invoices (invoice_service.db w') = [inv]
    /\ invoice_models.invoice_number inv = "INV-20-12345678"%string
    /\ invoice_models.total_amount inv = float_of (3 # 10)
    /\ Qeq_bool (invoice_models.total_amount inv)
                (invoice_models.subtotal inv + invoice_models.tax_amount inv
                 - invoice_models.discount_amount inv) = false
    /\ Qeq_bool (invoice_models.total_amount inv)
                (float_of (float_of (invoice_models.subtotal inv
                                     + invoice_models.tax_amount inv)
                           - invoice_models.discount_amount inv)) = false
    /\ ~ invoice_invariants.consistent inv.
Proof.
  eexists. eexists. split; [vm_compute; reflexivity|].
  split; [reflexivity|]. split; [reflexivity|]. split; [vm_compute; reflexivity|].
  split; [vm_compute; reflexivity|]. split; [vm_compute; reflexivity|].
  unfold invoice_invariants.consistent. intros H.
  apply Qeq_bool_iff in H. vm_compute in H. discriminate.
Qed.

(** And with a timestamp of ten digits, as the time in seconds has had
    since 2001, the generated number has 23 characters: [create_invoice]
    raises and stores nothing, whatever the amounts. *)
Lemma create_invoice_number_too_long :
  forall env now rnd user customer cname cemail caddr sub tax disc items nts due st
         corr w,
    String.length (invoice_service.nat_str now) = 10 ->
    String.length rnd = 8 ->
    exists what,
      invoice_service.create_invoice env now rnd user customer cname cemail caddr
        sub tax disc items nts due st corr w
      = (Raise (DataError what), w).
Proof.
  intros env now rnd user customer cname cemail caddr sub tax disc items nts due st
         corr w Hnow Hrnd.
  assert (Hlen : String.length (invoice_service._generate_invoice_number now rnd) = 23).
  { unfold invoice_service._generate_invoice_number.
    rewrite !string_length_append. simpl. lia. }
  eexists. unfold invoice_service.create_invoice.
  erewrite bind_raise.
  2:{ apply invoice_in_db_run. unfold invoice_repository.create_invoice.
      rewrite Hlen. reflexivity. }
  destruct w; reflexivity.
Qed.

(** ** Payment-received events on the invoice side *)

(** C2 (where the code departs from it).  [handle_payment_received] returns
    after one log line.  It reads nothing of the event but its [event_id],
    records no payment, and leaves the database as it was: no invoice becomes
    PAID or PARTIALLY_PAID and no [paid_date] is set, whatever amount the
    event carries.  At the sample ISSUED invoice of total 105, an event
    carrying a completed payment of 105 leaves the invoice ISSUED and
    unpaid. *)
Theorem handle_payment_received_only_logs :
  (forall event w,
      invoice_service.handle_payment_received event w
      = (Return tt,
         {| invoice_service.db := invoice_service.db w;
            invoice_service.bus := invoice_service.bus w;
            invoice_service.log :=
              invoice_service.log w
                ++ [("Handling payment_received event: "%string,
                     dict_get event "event_id" VNone)] |}))
  /\
  (let w := samples.invoice_world (samples.invoice_in invoice_models.ISSUED None) in
   let event :=
     [("event_id"%string, VStr "evt-1");
      ("event_type"%string, VStr "payment_received");
      ("payload"%string,
       VDict [("invoice_id"%string, VInt 1);
              ("amount"%string, VNum 105);
              ("status"%string, VStr "completed")])] in
   let w' := snd (invoice_service.handle_payment_received event w) in
   invoice_repository.get_invoice_by_id (invoice_service.db w') 1
   = Some (samples.invoice_in invoice_models.ISSUED None)
   /\ invoice_repository.get_invoice_payments (invoice_service.db w') 1 = []).
Proof.
  split.
  - intros event w. reflexivity.
  - cbv zeta. split; reflexivity.
Qed.

(** ** Webhook re-delivery *)

Lemma PaymentStatus_eqb_eq :
  forall a b, payment_models.PaymentStatus_eqb a b = true <-> a = b.
Proof. intros [] []; simpl; split; intros H; try reflexivity; discriminate. Qed.

(** A status update that repeats the status the payment already shows. *)
Lemma update_payment_status_redelivered :
  forall now p st msg d,
    payment_models.status p = st ->
    payment_repository.update_payment_status now p st msg None d
    = (payment_webhooks.redelivered now msg p,
       payment_repository.commit (payment_webhooks.redelivered now msg p) d).
Proof.
  intros now p st msg d Hst. subst st.
  unfold payment_repository.update_payment_status, payment_webhooks.redelivered.
  assert (E : (if payment_models.PaymentStatus_eqb (payment_models.status p)
                    payment_models.COMPLETED
                  && negb (payment_repository.is_some (payment_models.payment_date p))
               then Some now else payment_models.payment_date p)
              = match payment_models.payment_date p with
                | Some t => Some t
                | None =>
                    if payment_models.PaymentStatus_eqb (payment_models.status p)
                         payment_models.COMPLETED
                    then Some now else None
                end).
  { destruct (payment_models.payment_date p);
      destruct (payment_models.PaymentStatus_eqb (payment_models.status p)
                  payment_models.COMPLETED); reflexivity. }
  simpl. rewrite E. reflexivity.
Qed.

(** A payment that shows the message and the date as well is stored again
    with a new [updated_at] and nothing else changed. *)
Lemma redelivered_delivered :
  forall now p st msg,
    payment_webhooks.delivered st msg p ->
    payment_webhooks.redelivered now msg p = payment_webhooks.touch now p.
Proof.
  intros now p st msg (Hst & Hmsg & Hdate).
  unfold payment_webhooks.redelivered, payment_webhooks.touch.
  assert (E1 : match truthy_str msg with
               | Some m => Some m
               | None => payment_models.status_message p
               end = payment_models.status_message p).
  { destruct (truthy_str msg) as [m|] eqn:E; [|reflexivity].
    symmetry. apply Hmsg. reflexivity. }
  assert (E2 : match payment_models.payment_date p with
               | Some t => Some t
               | None =>
                   if payment_models.PaymentStatus_eqb (payment_models.status p)
                        payment_models.COMPLETED
                   then Some now else None
               end = payment_models.payment_date p).
  { destruct (payment_models.payment_date p) eqn:Ed; [reflexivity|].
    destruct (payment_models.PaymentStatus_eqb (payment_models.status p)
                payment_models.COMPLETED) eqn:E; [|reflexivity].
    apply PaymentStatus_eqb_eq in E. rewrite Hst in E.
    exfalso. apply (Hdate E). reflexivity. }
  rewrite E1, E2. reflexivity.
Qed.

Section PaymentServiceFacts.

Import payment_models payment_repository payment_service.

Variable env : Events.BrokerEnv.
Variable now : nat.

Lemma payment_on_db_run :
  forall (A : Type) (f : Db -> A * Db) w,
    on_db f w = (Return (fst (f (db w))),
                 {| db := snd (f (db w)); bus := bus w; log := log w |}).
Proof. intros A f w. unfold on_db. destruct (f (db w)); reflexivity. Qed.

(** The two publish calls of the payment service return a boolean, change
    nothing but the publisher, and put at most one message on the exchange:
    exactly one when they return [True]. *)
Lemma publish_payment_received_returns :
  forall data corr w,
  exists b p' m,
    on_bus (payment_event_publisher.publish_payment_received env now data corr) w
    = (Return b, {| db := db w; bus := p'; log := log w |})
    /\ Events.exchange p'
       = (if b then Events.exchange (bus w) ++ [m] else Events.exchange (bus w))
    /\ Events.routing_key m = "payment.received"%string
    /\ Events.event_type (Events.body m) = VStr "payment_received"
    /\ Events.payload (Events.body m) = VDict data.
Proof.
  intros data corr w.
  unfold on_bus, zoom, payment_event_publisher.publish_payment_received.
  match goal with
  | |- context [Events.publish_event ?e ?s ?n ?rk ?ed ?c ?p] =>
      destruct (publish_event_returns e s n rk ed c p) as (b & p' & H & Hex & _)
  end.
  exists b, p'. eexists. rewrite H. split; [reflexivity|].
  split; [exact Hex|]. repeat split.
Qed.

Lemma publish_payment_failed_returns :
  forall data corr w,
  exists b p' m,
    on_bus (payment_event_publisher.publish_payment_failed env now data corr) w
    = (Return b, {| db := db w; bus := p'; log := log w |})
    /\ Events.exchange p'
       = (if b then Events.exchange (bus w) ++ [m] else Events.exchange (bus w))
    /\ Events.routing_key m = "payment.failed"%string
    /\ Events.event_type (Events.body m) = VStr "payment_failed"
    /\ Events.payload (Events.body m) = VDict data.
Proof.
  intros data corr w.
  unfold on_bus, zoom, payment_event_publisher.publish_payment_failed.
  match goal with
  | |- context [Events.publish_event ?e ?s ?n ?rk ?ed ?c ?p] =>
      destruct (publish_event_returns e s n rk ed c p) as (b & p' & H & Hex & _)
  end.
  exists b, p'. eexists. rewrite H. split; [reflexivity|].
  split; [exact Hex|]. repeat split.
Qed.

(** Each publish call is one call of the publisher on the bus: it answers,
    and the world differs in the bus only. *)
Lemma publish_payment_received_run :
  forall data corr w,
  exists b,
    on_bus (payment_event_publisher.publish_payment_received env now data corr) w
    = (Return b,
       {| db := db w;
          bus := snd (payment_event_publisher.publish_payment_received env now data
                        corr (bus w));
          log := log w |}).
Proof.
  intros data corr w.
  unfold on_bus, zoom.
  destruct (publish_event_answers env None now "payment.received"
              (payment_webhooks.received_event data) corr (bus w)) as (b & H).
  unfold payment_event_publisher.publish_payment_received.
  unfold payment_webhooks.received_event in H. rewrite H.
  exists b. reflexivity.
Qed.

Lemma publish_payment_failed_run :
  forall data corr w,
  exists b,
    on_bus (payment_event_publisher.publish_payment_failed env now data corr) w
    = (Return b,
       {| db := db w;
          bus := snd (payment_event_publisher.publish_payment_failed env now data
                        corr (bus w));
          log := log w |}).
Proof.
  intros data corr w.
  unfold on_bus, zoom.
  destruct (publish_event_answers env None now "payment.failed"
              (payment_webhooks.failed_event data) corr (bus w)) as (b & H).
  unfold payment_event_publisher.publish_payment_failed.
  unfold payment_webhooks.failed_event in H. rewrite H.
  exists b. reflexivity.
Qed.

(** What the one call leaves on the exchange. *)
Lemma publish_payment_received_exchange :
  forall data corr p,
    Events.exchange
      (snd (payment_event_publisher.publish_payment_received env now data corr p))
    = (if publisher_calls.accepted env p (payment_webhooks.received_event data)
       then Events.exchange p
              ++ [Events.sent_message None now "payment.received"
                    (payment_webhooks.received_event data) corr p]
       else Events.exchange p).
Proof. intros. apply publish_event_exchange. Qed.

Lemma publish_payment_failed_exchange :
  forall data corr p,
    Events.exchange
      (snd (payment_event_publisher.publish_payment_failed env now data corr p))
    = (if publisher_calls.accepted env p (payment_webhooks.failed_event data)
       then Events.exchange p
              ++ [Events.sent_message None now "payment.failed"
                    (payment_webhooks.failed_event data) corr p]
       else Events.exchange p).
Proof. intros. apply publish_event_exchange. Qed.

(** A webhook that names a stored payment already showing its status: the
    handler reports success, the payment is committed as [redelivered]
    gives it, and the publisher is called as for a first delivery. *)
Lemma handle_webhook_event_redelivered :
  forall event_data w t payment st msg,
    dict_get event_data "transaction_id" VNone = VStr t ->
    t <> ""%string ->
    get_payment_by_transaction_reference (db w) t = Some payment ->
    payment_webhooks.webhook_outcome event_data = Some (st, msg) ->
    status payment = st ->
    handle_webhook_event env now event_data w
    = (Return [("status"%string, VStr "success")],
       {| db := commit (payment_webhooks.redelivered now msg payment) (db w);
          bus :=
            match st with
            | COMPLETED =>
                snd (payment_event_publisher.publish_payment_received env now
                       (payment_webhooks.received_data now
                          (payment_webhooks.redelivered now msg payment)
                          (user_id payment))
                       None (bus w))
            | FAILED =>
                snd (payment_event_publisher.publish_payment_failed env now
                       (payment_webhooks.failed_data
                          (payment_webhooks.redelivered now msg payment)
                          (dict_get event_data "error_message" (VStr "Payment failed"))
                          (user_id payment))
                       None (bus w))
            | _ => bus w
            end;
          log := log w |}).
Proof.
  intros event_data w t payment st msg Ht Hne Hget Hout Hst.
  unfold handle_webhook_event. rewrite Ht.
  assert (Htruthy : truthy (VStr t) = true).
  { simpl. apply String.eqb_neq in Hne. rewrite Hne. reflexivity. }
  rewrite Htruthy. cbn [negb].
  unfold bind at 1. unfold gets at 1. rewrite Hget.
  unfold payment_webhooks.webhook_outcome in Hout.
  destruct (is_str (dict_get event_data "event_type" VNone) "payment.succeeded").
  - inversion Hout; subst st msg; clear Hout.
    rewrite bind_assoc.
    erewrite bind_return by apply payment_on_db_run.
    rewrite update_payment_status_redelivered by (symmetry; assumption).
    cbn [fst snd].
    rewrite bind_assoc.
    match goal with
    | |- context [on_bus (payment_event_publisher.publish_payment_received _ _ ?data ?c)] =>
        match goal with
        | |- context [bind _ _ ?w1] =>
            destruct (publish_payment_received_run data c w1) as (b & Hp)
        end
    end.
    erewrite bind_return by exact Hp.
    reflexivity.
  - destruct (is_str (dict_get event_data "event_type" VNone) "payment.failed").
    + inversion Hout; subst st msg; clear Hout.
      rewrite bind_assoc.
      erewrite bind_return by apply payment_on_db_run.
      rewrite update_payment_status_redelivered by (symmetry; assumption).
      cbn [fst snd].
      rewrite bind_assoc.
      match goal with
      | |- context [on_bus (payment_event_publisher.publish_payment_failed _ _ ?data ?c)] =>
          match goal with
          | |- context [bind _ _ ?w1] =>
              destruct (publish_payment_failed_run data c w1) as (b & Hp)
          end
      end.
      erewrite bind_return by exact Hp.
      reflexivity.
    + destruct (is_str (dict_get event_data "event_type" VNone) "payment.refunded");
        [|discriminate].
      inversion Hout; subst st msg; clear Hout.
      rewrite bind_assoc.
      erewrite bind_return by apply payment_on_db_run.
      rewrite update_payment_status_redelivered by (symmetry; assumption).
      reflexivity.
Qed.

(** The repository's insert when the database takes the row, and when it
    does not. *)
Lemma create_payment_inserts :
  forall user inv_id inv_number amt cur method details st d,
    payment_webhooks.insertable d now inv_id inv_number = true ->
    payment_repository.create_payment now user inv_id inv_number amt cur method
      details st d
    = (Return (new_payment now user inv_id inv_number amt cur method details st d),
       insert (new_payment now user inv_id inv_number amt cur method details st d) d).
Proof.
  intros user inv_id inv_number amt cur method details st d H.
  unfold payment_webhooks.insertable in H. apply andb_prop in H.
  destruct H as [Hlen Hfree].
  unfold payment_repository.create_payment.
  apply Nat.leb_le in Hlen.
  destruct (Nat.ltb 20 (String.length inv_number)) eqn:E.
  - apply Nat.ltb_lt in E. lia.
  - apply negb_true_iff in Hfree. rewrite Hfree. reflexivity.
Qed.

Lemma create_payment_refused :
  forall user inv_id inv_number amt cur method details st d,
    payment_webhooks.insertable d now inv_id inv_number = false ->
    exists what,
      (payment_repository.create_payment now user inv_id inv_number amt cur method
         details st d = (Raise (DataError what), d)
       /\ 20 < String.length inv_number)
      \/ (payment_repository.create_payment now user inv_id inv_number amt cur method
            details st d = (Raise (IntegrityError what), d)
          /\ reference_taken d (new_reference now inv_id) = true).
Proof.
  intros user inv_id inv_number amt cur method details st d H.
  unfold payment_webhooks.insertable in H.
  unfold payment_repository.create_payment.
  destruct (Nat.ltb 20 (String.length inv_number)) eqn:E.
  - eexists. left. split; [reflexivity|]. apply Nat.ltb_lt. exact E.
  - assert (Hle : Nat.leb (String.length inv_number) 20 = true).
    { apply Nat.leb_le. apply Nat.ltb_ge in E. exact E. }
    rewrite Hle in H. simpl in H. apply negb_false_iff in H. rewrite H.
    eexists. right. split; reflexivity.
Qed.

Lemma payment_in_db_run :
  forall (A : Type) (m : M Db A) w r d,
    m (db w) = (r, d) ->
    in_db m w = (r, {| db := d; bus := bus w; log := log w |}).
Proof. intros A m w r d H. unfold in_db, zoom. rewrite H. reflexivity. Qed.

End PaymentServiceFacts.

Lemma get_payment_by_reference_commit :
  forall d t p p',
    payment_repository.get_payment_by_transaction_reference d t = Some p ->
    payment_models.transaction_reference p' = payment_models.transaction_reference p ->
    payment_models.id p' = payment_models.id p ->
    payment_repository.get_payment_by_transaction_reference
      (payment_repository.commit p' d) t = Some p'.
Proof.
  intros d t p p' H Href Hid.
  unfold payment_repository.get_payment_by_transaction_reference in *.
  pose proof (find_some _ _ H) as [_ Hp]. rewrite <- Href in Hp.
  unfold payment_repository.commit. simpl.
  induction (payment_repository.payments d) as [|r rows IH]; simpl in *.
  - discriminate.
  - destruct (Nat.eqb (payment_models.id r) (payment_models.id p')) eqn:E.
    + rewrite Hp. reflexivity.
    + destruct (match payment_models.transaction_reference r with
                | Some t0 => String.eqb t0 t
                | None => false
                end) eqn:Er.
      * inversion H; subst r. rewrite Hid, Nat.eqb_refl in E. discriminate.
      * apply IH. exact H.
Qed.

(** C5, as the code has it.  Let a webhook event name, by a non-empty
    [transaction_id], a stored payment that already shows the event's
    status (COMPLETED for [payment.succeeded], FAILED for [payment.failed],
    REFUNDED for [payment.refunded]).  Then [handle_webhook_event] returns
    [{"status": "success"}], and the delivery is handled like a first one:
    the payment is stored again with [updated_at] set to the time of this
    delivery, with the event's message as [status_message] when that is not
    empty, and with a payment date if it is COMPLETED and had none; when it
    already showed the message and the date, [updated_at] is the only
    column that changes.  The other rows, the attempts and the log are
    untouched.  The publisher is called once more, for [payment.received]
    or [payment.failed], and not at all for a refund: the message goes out
    again whenever the broker accepts it. *)
Theorem webhook_redelivery_refreshes_updated_at :
  forall env now event_data w t payment st msg,
    dict_get event_data "transaction_id" VNone = VStr t ->
    t <> ""%string ->
    payment_repository.get_payment_by_transaction_reference (payment_service.db w) t
    = Some payment ->
    payment_webhooks.webhook_outcome event_data = Some (st, msg) ->
    payment_models.status payment = st ->
    exists w',
      payment_service.handle_webhook_event env now event_data w
      = (Return [("status"%string, VStr "success")], w')
      /\ payment_repository.get_payment_by_transaction_reference
           (payment_service.db w') t
         = Some (payment_webhooks.redelivered now msg payment)
      /\ payment_models.updated_at (payment_webhooks.redelivered now msg payment) = now
      /\ (payment_webhooks.delivered st msg payment ->
          payment_webhooks.redelivered now msg payment
          = payment_webhooks.touch now payment)
      /\ payment_repository.payments (payment_service.db w')
         = map (fun r => if Nat.eqb (payment_models.id r) (payment_models.id payment)
                         then payment_webhooks.redelivered now msg payment else r)
               (payment_repository.payments (payment_service.db w))
      /\ payment_repository.payment_attempts (payment_service.db w')
         = payment_repository.payment_attempts (payment_service.db w)
      /\ payment_service.log w' = payment_service.log w
      /\ payment_service.bus w'
         = match st with
           | payment_models.COMPLETED =>
               snd (payment_event_publisher.publish_payment_received env now
                      (payment_webhooks.received_data now
                         (payment_webhooks.redelivered now msg payment)
                         (payment_models.user_id payment))
                      None (payment_service.bus w))
           | payment_models.FAILED =>
               snd (payment_event_publisher.publish_payment_failed env now
                      (payment_webhooks.failed_data
                         (payment_webhooks.redelivered now msg payment)
                         (dict_get event_data "error_message" (VStr "Payment failed"))
                         (payment_models.user_id payment))
                      None (payment_service.bus w))
           | _ => payment_service.bus w
           end
      /\ Events.exchange (payment_service.bus w')
         = match st with
           | payment_models.COMPLETED =>
               if publisher_calls.accepted env (payment_service.bus w)
                    (payment_webhooks.received_event
                       (payment_webhooks.received_data now
                          (payment_webhooks.redelivered now msg payment)
                          (payment_models.user_id payment)))
               then Events.exchange (payment_service.bus w)
                      ++ [Events.sent_message None now "payment.received"
                            (payment_webhooks.received_event
                               (payment_webhooks.received_data now
                                  (payment_webhooks.redelivered now msg payment)
                                  (payment_models.user_id payment)))
                            None (payment_service.bus w)]
               else Events.exchange (payment_service.bus w)
           | payment_models.FAILED =>
               if publisher_calls.accepted env (payment_service.bus w)
                    (payment_webhooks.failed_event
                       (payment_webhooks.failed_data
                          (payment_webhooks.redelivered now msg payment)
                          (dict_get event_data "error_message"
                                    (VStr "Payment failed"))
                          (payment_models.user_id payment)))
               then Events.exchange (payment_service.bus w)
                      ++ [Events.sent_message None now "payment.failed"
                            (payment_webhooks.failed_event
                               (payment_webhooks.failed_data
                                  (payment_webhooks.redelivered now msg payment)
                                  (dict_get event_data "error_message"
                                            (VStr "Payment failed"))
                                  (payment_models.user_id payment)))
                            None (payment_service.bus w)]
               else Events.exchange (payment_service.bus w)
           | _ => Events.exchange (payment_service.bus w)
           end.
Proof.
  intros env now event_data w t payment st msg Ht Hne Hget Hout Hst.
  eexists. split.
  { apply (@handle_webhook_event_redelivered env now event_data w t payment st msg);
      assumption. }
  cbn [payment_service.db payment_service.bus payment_service.log].
  split.
  { eapply get_payment_by_reference_commit; [exact Hget | reflexivity | reflexivity]. }
  split; [reflexivity|].
  split; [apply redelivered_delivered|].
  split; [reflexivity|]. split; [reflexivity|]. split; [reflexivity|].
  split; [reflexivity|].
  destruct st; try reflexivity.
  - apply publish_payment_received_exchange.
  - apply publish_payment_failed_exchange.
Qed.

(** The theorem at the second delivery of the same event, at time 30. *)
Lemma webhook_redelivery_refreshes_updated_at_witness :
  exists completed w',
    payment_repository.get_payment_by_transaction_reference
      (payment_service.db samples.after_first_delivery) "TXN-10-1" = Some completed
    /\ payment_models.status completed = payment_models.COMPLETED
    /\ payment_service.handle_webhook_event samples.broker_up 30
         samples.succeeded_event samples.after_first_delivery
       = (Return [("status"%string, VStr "success")], w')
    /\ payment_repository.get_payment_by_transaction_reference
         (payment_service.db w') "TXN-10-1"
       = Some (payment_webhooks.touch 30 completed).
Proof.
  eexists.
  destruct (@webhook_redelivery_refreshes_updated_at samples.broker_up 30
              samples.succeeded_event samples.after_first_delivery "TXN-10-1"%string
              (payment_webhooks.touch 20
                 {| payment_models.id := 1;
                    payment_models.user_id := "alice";
                    payment_models.invoice_id := 1;
                    payment_models.invoice_number := "INV-1700000-12345678";
                    payment_models.amount := 105;
                    payment_models.currency := "USD";
                    payment_models.payment_method := "credit_card";
                    payment_models.payment_method_details := None;
                    payment_models.transaction_reference := Some "TXN-10-1"%string;
                    payment_models.external_reference := None;
                    payment_models.status := payment_models.COMPLETED;
                    payment_models.status_message :=
                      Some "Payment confirmed by gateway"%string;
                    payment_models.payment_date := Some 20;
                    payment_models.created_at := 10;
                    payment_models.updated_at := 10 |})
              payment_models.COMPLETED (Some "Payment confirmed by gateway"%string)
              eq_refl)
    as (w' & Hrun & Hget & _).
  - discriminate.
  - reflexivity.
  - reflexivity.
  - reflexivity.
  - exists w'. split; [reflexivity|]. split; [reflexivity|].
    split; [exact Hrun | exact Hget].
Defined.

(** C5 as stated fails: the payment record does not stay unchanged, and the
    delivery is no no-op.  After the first delivery the sample payment is
    COMPLETED with [updated_at = 20].  The same event delivered again at
    time 30 is answered with success, but the stored payment differs from
    the one before (its [updated_at] is 30), and a second
    [payment.received] message is on the exchange. *)
Lemma webhook_redelivery_changes_payment :
  exists before after w',
    payment_repository.get_payment_by_transaction_reference
      (payment_service.db samples.after_first_delivery) "TXN-10-1" = Some before
    /\ payment_models.status before = payment_models.COMPLETED
    /\ payment_service.handle_webhook_event samples.broker_up 30
         samples.succeeded_event samples.after_first_delivery
       = (Return [("status"%string, VStr "success")], w')
    /\ payment_repository.get_payment_by_transaction_reference
         (payment_service.db w') "TXN-10-1" = Some after
    /\ after <> before
    /\ payment_models.updated_at before = 20
    /\ payment_models.updated_at after = 30
    /\ List.length (Events.exchange (payment_service.bus samples.after_first_delivery)) = 1
    /\ List.length (Events.exchange (payment_service.bus w')) = 2
    /\ map Events.routing_key (Events.exchange (payment_service.bus w'))
       = ["payment.received"%string; "payment.received"%string].
Proof.
  eexists. eexists. eexists.
  split; [vm_compute; reflexivity|].
  split; [reflexivity|].
  split; [vm_compute; reflexivity|].
  split; [vm_compute; reflexivity|].
  split; [intros H; inversion H|].
  repeat split.
Qed.

(** ** A gateway call *)

Lemma truthy_success_default :
  forall (r : dict) k,
    truthy (dict_get r k (VBool false)) = truthy (dict_get r k VNone).
Proof.
  induction r as [|[k0 v] r IH]; intros k; simpl.
  - reflexivity.
  - destruct (String.eqb k0 k); [reflexivity | apply IH].
Qed.

(** Neither gateway touches the database or the publisher. *)
Lemma process_payment_frame :
  forall mock http now amt cur method details metadata w r w',
    payment_service.process_payment mock http now amt cur method details metadata w
    = (r, w') ->
    payment_service.db w' = payment_service.db w
    /\ payment_service.bus w' = payment_service.bus w.
Proof.
  intros mock http now amt cur method details metadata w r w' H.
  unfold payment_service.process_payment, payment_service.mock_process_payment,
    payment_service.real_process_payment in H.
  destruct mock.
  - destruct (dict_get details "card_number" (VStr "")); try (inversion H; split; reflexivity).
    destruct (endswith s "0000"); inversion H; split; reflexivity.
  - destruct http as [message | code ec em di ds].
    + inversion H. split; reflexivity.
    + destruct (Nat.leb 400 code); inversion H; split; reflexivity.
Qed.

(** [create_payment] for a valid method, a row the database takes, and a
    gateway that answers: the payment returned and the world left. *)
Lemma create_payment_run :
  forall mock http env now user inv_id inv_number amt method details corr w
         response w2,
    existsb (String.eqb method) payment_models.PaymentMethod_values = true ->
    payment_webhooks.insertable (payment_service.db w) now inv_id inv_number = true ->
    payment_service.process_payment mock http now (float_of amt) "USD" method details
      [("user_id"%string, VStr user);
       ("invoice_id"%string, VInt inv_id);
       ("invoice_number"%string, VStr inv_number);
       ("payment_id"%string,
        VInt (S (List.length (payment_repository.payments (payment_service.db w)))));
       ("correlation_id"%string, opt_str corr)]
      {| payment_service.db :=
           payment_repository.insert
             (payment_repository.new_payment now user inv_id inv_number (float_of amt)
                "USD" method details payment_models.PROCESSING (payment_service.db w))
             (payment_service.db w);
         payment_service.bus := payment_service.bus w;
         payment_service.log := payment_service.log w |}
    = (Return response, w2) ->
    exists p w' a,
      payment_service.create_payment mock http env now user inv_id inv_number amt
        method details corr w = (Return p, w')
      /\ p = fst (if truthy (dict_get response "success" VNone)
                  then payment_repository.update_payment_status now
                         (payment_repository.new_payment now user inv_id inv_number
                            (float_of amt) "USD" method details
                            payment_models.PROCESSING (payment_service.db w))
                         payment_models.COMPLETED None
                         (payment_service.text_of
                            (dict_get response "transaction_id" VNone))
                         (payment_service.db w)
                  else payment_repository.update_payment_status now
                         (payment_repository.new_payment now user inv_id inv_number
                            (float_of amt) "USD" method details
                            payment_models.PROCESSING (payment_service.db w))
                         payment_models.FAILED
                         (payment_service.text_of
                            (dict_get response "error_message" VNone))
                         None (payment_service.db w))
      /\ payment_repository.payments (payment_service.db w')
         = payment_repository.payments
             (payment_repository.commit p
                (payment_repository.insert
                   (payment_repository.new_payment now user inv_id inv_number
                      (float_of amt) "USD" method details payment_models.PROCESSING
                      (payment_service.db w))
                   (payment_service.db w)))
      /\ payment_repository.payment_attempts (payment_service.db w')
         = payment_repository.payment_attempts (payment_service.db w) ++ [a]
      /\ a = fst (payment_repository.record_payment_attempt now (payment_models.id p)
                    [("amount"%string, VNum (float_of amt));
                     ("currency"%string, VStr "USD");
                     ("payment_method"%string, VStr method);
                     ("metadata"%string,
                      VDict [("invoice_id"%string, VInt inv_id);
                             ("invoice_number"%string, VStr inv_number)])]
                    response
                    (truthy (dict_get response "success" VNone))
                    (payment_service.text_of (dict_get response "error_message" VNone))
                    corr (payment_service.db w))
      /\ payment_service.log w' = payment_service.log w2
      /\ payment_service.bus w'
         = (if truthy (dict_get response "success" VNone)
            then snd (payment_event_publisher.publish_payment_received env now
                        (payment_webhooks.received_data now p user) corr
                        (payment_service.bus w))
            else snd (payment_event_publisher.publish_payment_failed env now
                        (payment_webhooks.failed_data p
                           (dict_get response "error_message" VNone) user)
                        corr (payment_service.bus w))).
Proof.
  intros mock http env now user inv_id inv_number amt method details corr w
         response w2 Hmethod Hins Hgw.
  destruct (process_payment_frame _ _ _ _ _ _ _ _ _ Hgw) as [Hdb2 Hbus2].
  cbn [payment_service.db payment_service.bus] in Hdb2, Hbus2.
  unfold payment_service.create_payment.
  rewrite Hmethod. cbn [negb].
  erewrite bind_return
    by (apply payment_in_db_run; apply create_payment_inserts; exact Hins).
  cbn [payment_models.id payment_repository.new_payment].
  erewrite bind_return by exact Hgw.
  erewrite bind_return by apply payment_on_db_run.
  rewrite truthy_success_default.
  destruct (truthy (dict_get response "success" VNone)) eqn:Hs.
  - erewrite bind_return by apply payment_on_db_run.
    match goal with
    | |- context [payment_service.on_bus
                    (payment_event_publisher.publish_payment_received _ _ ?data ?c)] =>
        match goal with
        | |- context [bind _ _ ?w1] =>
            destruct (publish_payment_received_run env now data c w1) as (b & Hp)
        end
    end.
    erewrite bind_return by exact Hp.
    eexists. eexists. eexists.
    split; [reflexivity|].
    cbn [payment_service.db payment_service.bus payment_service.log fst snd].
    rewrite Hdb2, Hbus2.
    split; [reflexivity|]. split; [reflexivity|]. split; [reflexivity|].
    split; [reflexivity|]. split; reflexivity.
  - erewrite bind_return by apply payment_on_db_run.
    match goal with
    | |- context [payment_service.on_bus
                    (payment_event_publisher.publish_payment_failed _ _ ?data ?c)] =>
        match goal with
        | |- context [bind _ _ ?w1] =>
            destruct (publish_payment_failed_run env now data c w1) as (b & Hp)
        end
    end.
    erewrite bind_return by exact Hp.
    eexists. eexists. eexists.
    split; [reflexivity|].
    cbn [payment_service.db payment_service.bus payment_service.log fst snd].
    rewrite Hdb2, Hbus2.
    split; [reflexivity|]. split; [reflexivity|]. split; [reflexivity|].
    split; [reflexivity|]. split; reflexivity.
Qed.

(** [create_payment] when the database refuses the row: the exception of
    the commit reaches the caller before the gateway is called, and the
    world is as it was. *)
Lemma create_payment_not_inserted :
  forall mock http env now user inv_id inv_number amt method details corr w,
    existsb (String.eqb method) payment_models.PaymentMethod_values = true ->
    payment_webhooks.insertable (payment_service.db w) now inv_id inv_number = false ->
    exists what,
      (payment_service.create_payment mock http env now user inv_id inv_number amt
         method details corr w = (Raise (DataError what), w)
       /\ 20 < String.length inv_number)
      \/ (payment_service.create_payment mock http env now user inv_id inv_number amt
            method details corr w = (Raise (IntegrityError what), w)
          /\ payment_repository.reference_taken (payment_service.db w)
               (payment_repository.new_reference now inv_id) = true).
Proof.
  intros mock http env now user inv_id inv_number amt method details corr w Hm Hins.
  destruct (create_payment_refused now user inv_id inv_number (float_of amt) "USD"
              method details payment_models.PROCESSING (payment_service.db w) Hins)
    as (what & [[Hr Hlen] | [Hr Htaken]]);
    exists what; [left | right]; (split; [|assumption]);
    unfold payment_service.create_payment; rewrite Hm; cbn [negb];
    erewrite bind_raise by (apply payment_in_db_run; exact Hr);
    destruct w; reflexivity.
Qed.

(** C8, as the code has it.  Take a payment by a valid method that the
    database accepts (its invoice number fits the column of 20 characters
    and no payment for this invoice was created in the same second), and let
    the gateway call of [create_payment] return a response whose [success]
    is falsy.  Then [create_payment] returns the payment with status FAILED
    and no payment date; its [status_message] is the gateway's
    [error_message] when that is a non-empty string and stays unset
    otherwise; exactly one attempt is appended, for this payment, with
    [success = 0], the gateway's response and error message and the
    correlation id; and [publish_payment_failed] is called exactly once,
    with the payment's data, so that the [payment.failed] message is on the
    exchange whenever the broker accepts it. *)
Theorem create_payment_gateway_failure :
  forall mock http env now user inv_id inv_number amt method details corr w
         response w2,
    existsb (String.eqb method) payment_models.PaymentMethod_values = true ->
    payment_webhooks.insertable (payment_service.db w) now inv_id inv_number = true ->
    payment_service.process_payment mock http now (float_of amt) "USD" method details
      [("user_id"%string, VStr user);
       ("invoice_id"%string, VInt inv_id);
       ("invoice_number"%string, VStr inv_number);
       ("payment_id"%string,
        VInt (S (List.length (payment_repository.payments (payment_service.db w)))));
       ("correlation_id"%string, opt_str corr)]
      {| payment_service.db :=
           payment_repository.insert
             (payment_repository.new_payment now user inv_id inv_number (float_of amt)
                "USD" method details payment_models.PROCESSING (payment_service.db w))
             (payment_service.db w);
         payment_service.bus := payment_service.bus w;
         payment_service.log := payment_service.log w |}
    = (Return response, w2) ->
    truthy (dict_get response "success" VNone) = false ->
    exists p w' a,
      payment_service.create_payment mock http env now user inv_id inv_number amt
        method details corr w = (Return p, w')
      /\ payment_models.status p = payment_models.FAILED
      /\ payment_models.status_message p
         = truthy_str (payment_service.text_of (dict_get response "error_message" VNone))
      /\ payment_models.payment_date p = None
      /\ payment_models.id p
         = S (List.length (payment_repository.payments (payment_service.db w)))
      /\ payment_repository.payments (payment_service.db w')
         = payment_repository.payments
             (payment_repository.commit p
                (payment_repository.insert
                   (payment_repository.new_payment now user inv_id inv_number
                      (float_of amt) "USD" method details payment_models.PROCESSING
                      (payment_service.db w))
                   (payment_service.db w)))
      /\ In p (payment_repository.payments (payment_service.db w'))
      /\ payment_repository.payment_attempts (payment_service.db w')
         = payment_repository.payment_attempts (payment_service.db w) ++ [a]
      /\ payment_models.success a = 0
      /\ payment_models.payment_id a = payment_models.id p
      /\ payment_models.gateway_response a = response
      /\ payment_models.error_message a
         = payment_service.text_of (dict_get response "error_message" VNone)
      /\ payment_models.correlation_id a = corr
      /\ payment_service.bus w'
         = snd (payment_event_publisher.publish_payment_failed env now
                  (payment_webhooks.failed_data p
                     (dict_get response "error_message" VNone) user)
                  corr (payment_service.bus w))
      /\ Events.exchange (payment_service.bus w')
         = (if publisher_calls.accepted env (payment_service.bus w)
                 (payment_webhooks.failed_event
                    (payment_webhooks.failed_data p
                       (dict_get response "error_message" VNone) user))
            then Events.exchange (payment_service.bus w)
                   ++ [Events.sent_message None now "payment.failed"
                         (payment_webhooks.failed_event
                            (payment_webhooks.failed_data p
                               (dict_get response "error_message" VNone) user))
                         corr (payment_service.bus w)]
            else Events.exchange (payment_service.bus w)).
Proof.
  intros mock http env now user inv_id inv_number amt method details corr w
         response w2 Hmethod Hins Hgw Hfail.
  destruct (@create_payment_run mock http env now user inv_id inv_number amt method
              details corr w response w2 Hmethod Hins Hgw)
    as (p & w' & a & Hrun & Hp & Hpay & Hatt & Ha & _ & Hbus).
  rewrite Hfail in *.
  exists p, w', a. split; [exact Hrun|].
  assert (Hid : payment_models.id p
                = S (List.length (payment_repository.payments (payment_service.db w))))
    by (subst p; reflexivity).
  split; [subst p; reflexivity|].
  split; [subst p; simpl; destruct (truthy_str _); reflexivity|].
  split; [subst p; reflexivity|].
  split; [exact Hid|].
  split; [exact Hpay|].
  split.
  { rewrite Hpay. unfold payment_repository.commit, payment_repository.insert. simpl.
    rewrite map_app. apply in_or_app. right. simpl.
    rewrite Hid, Nat.eqb_refl. left. reflexivity. }
  split; [exact Hatt|].
  split; [subst a; reflexivity|].
  split; [subst a; reflexivity|].
  split; [subst a; reflexivity|].
  split; [subst a; reflexivity|].
  split; [subst a; reflexivity|].
  split; [exact Hbus|].
  rewrite Hbus. apply publish_payment_failed_exchange.
Qed.

(** The theorem at the mock gateway's simulated decline: a card number
    ending in 0000. *)
Lemma create_payment_gateway_failure_witness :
  exists p w' a,
    payment_service.create_payment true (payment_service.HttpRaises "") samples.broker_up
      20 "alice" 1 "INV-1" 105 "credit_card"
      [("card_number"%string, VStr "4000000000000000")] (Some "corr-1"%string)
      samples.empty_payment_world = (Return p, w')
    /\ payment_models.status p = payment_models.FAILED
    /\ payment_models.status_message p = Some "Card was declined"%string
    /\ payment_repository.payment_attempts (payment_service.db w') = [a]
    /\ payment_models.success a = 0.
Proof.
  destruct (@create_payment_gateway_failure true (payment_service.HttpRaises "")
              samples.broker_up 20 "alice"%string 1 "INV-1"%string 105
              "credit_card"%string
              [("card_number"%string, VStr "4000000000000000")]
              (Some "corr-1"%string) samples.empty_payment_world
              [("success"%string, VBool false);
               ("error_code"%string, VStr "card_declined");
               ("error_message"%string, VStr "Card was declined");
               ("transaction_id"%string, VNone)]
              _ eq_refl eq_refl eq_refl eq_refl)
    as (p & w' & a & Hrun & Hst & Hmsg & _ & _ & _ & _ & Hatt & Hsucc & _).
  exists p, w', a. split; [exact Hrun|]. split; [exact Hst|].
  split; [exact Hmsg|]. split; [exact Hatt | exact Hsucc].
Defined.

(** C8 as stated fails for a gateway failure that carries no message: the
    real gateway answers 402 with a body that has no [error.message].  The
    payment becomes FAILED, one failed attempt is recorded and one
    [payment.failed] message goes out, but [status_message] stays unset. *)
Lemma gateway_failure_without_message :
  exists p w' a,
    payment_service.create_payment false
      (payment_service.HttpResponse 402 None None None None) samples.broker_up
      20 "alice" 1 "INV-1" 105 "credit_card"
      [("card_number"%string, VStr "4111111111111111")] None
      samples.empty_payment_world = (Return p, w')
    /\ payment_models.status p = payment_models.FAILED
    /\ payment_models.status_message p = None
    /\ payment_repository.payment_attempts (payment_service.db w') = [a]
    /\ payment_models.success a = 0
    /\ payment_models.error_message a = None
    /\ map Events.routing_key (Events.exchange (payment_service.bus w'))
       = ["payment.failed"%string].
Proof.
  eexists. eexists. eexists.
  split; [vm_compute; reflexivity|].
  repeat split.
Qed.

(** The same holds when the HTTP exchange raises an exception whose text is
    empty, as timeouts commonly are: the attempt is recorded with an empty
    error message and [status_message] stays unset. *)
Lemma gateway_timeout_without_message :
  exists p w' a,
    payment_service.create_payment false (payment_service.HttpRaises "")
      samples.broker_up 20 "alice" 1 "INV-1" 105 "credit_card"
      [("card_number"%string, VStr "4111111111111111")] None
      samples.empty_payment_world = (Return p, w')
    /\ payment_models.status p = payment_models.FAILED
    /\ payment_models.status_message p = None
    /\ payment_repository.payment_attempts (payment_service.db w') = [a]
    /\ payment_models.error_message a = Some ""%string.
Proof.
  eexists. eexists. eexists.
  split; [vm_compute; reflexivity|].
  repeat split.
Qed.

(** When the mock gateway itself raises (a [card_number] that is not a
    string has no [endswith]), [create_payment] raises with it: the payment
    row stays PROCESSING, no attempt is recorded and nothing is published. *)
Lemma mock_gateway_exception_skips_attempt :
  exists w',
    payment_service.create_payment true (payment_service.HttpRaises "")
      samples.broker_up 20 "alice" 1 "INV-1" 105 "credit_card"
      [("card_number"%string, VInt 4000)] None samples.empty_payment_world
    = (Raise (AttributeError "endswith"), w')
    /\ map payment_models.status (payment_repository.payments (payment_service.db w'))
       = [payment_models.PROCESSING]
    /\ payment_repository.payment_attempts (payment_service.db w') = []
    /\ Events.exchange (payment_service.bus w') = [].
Proof.
  eexists. split; [vm_compute; reflexivity|]. repeat split.
Qed.

(** An invoice number as the invoice service makes them from a timestamp
    of ten digits, 23 characters long, does not fit the payment's column:
    the payment is refused by the database before the gateway is called,
    and nothing is stored, recorded or published. *)
Lemma payment_for_long_invoice_number :
  exists what,
    payment_service.create_payment true (payment_service.HttpRaises "")
      samples.broker_up 20 "alice" 1 "INV-1700000000-12345678" 105 "credit_card"
      [("card_number"%string, VStr "4242424242424242")] None
      samples.empty_payment_world
    = (Raise (DataError what), samples.empty_payment_world).
Proof.
  eexists. vm_compute. reflexivity.
Qed.

(** ** Discount tiers *)

Section DiscountFacts.

Import discount_schemas discount_service.

Variable env : Events.BrokerEnv.
Variable now : nat.

Lemma publish_discount_applied_returns :
  forall data corr w,
  exists b p' m,
    on_bus (publish_discount_applied env now data corr) w
    = (Return b, {| db := db w; bus := p' |})
    /\ Events.exchange p'
       = (if b then Events.exchange (bus w) ++ [m] else Events.exchange (bus w))
    /\ Events.routing_key m = "discount.applied"%string.
Proof.
  intros data corr w.
  unfold on_bus, zoom, publish_discount_applied.
  match goal with
  | |- context [Events.publish_event ?e ?s ?n ?rk ?ed ?c ?p] =>
      destruct (publish_event_returns e s n rk ed c p) as (b & p' & H & Hex & _)
  end.
  exists b, p'. eexists. rewrite H. split; [reflexivity|].
  split; [exact Hex | reflexivity].
Qed.

(** A coupon whose discount is not zero wins: the later tiers leave the
    locals as the coupon tier set them. *)
Lemma coupon_wins :
  forall d amt coupon_code user c coupon,
    truthy_str coupon_code = Some c ->
    discount_repository.get_coupon_by_code now d c = Some coupon ->
    Qeq_bool (coupon_discount amt coupon) 0 = false ->
    l_discount_amount (tiers now d amt coupon_code user) = coupon_discount amt coupon
    /\ l_discount_type (tiers now d amt coupon_code user) = "coupon"%string
    /\ l_coupon_id (tiers now d amt coupon_code user) = Some (discount_models.id coupon)
    /\ option_map discount_type (l_discount_rule (tiers now d amt coupon_code user))
       = Some "coupon"%string.
Proof.
  intros d amt coupon_code user c coupon Hc Hget Hnz.
  unfold tiers, coupon_tier. rewrite Hc, Hget.
  unfold user_type_tier. cbn [l_discount_amount]. rewrite Hnz. cbn [andb].
  unfold amount_tier. cbn [l_discount_amount]. rewrite Hnz.
  repeat split.
Qed.

(** The discount is that of one tier, or zero: tiers never add up. *)
Lemma one_tier_at_most :
  forall d amt coupon_code user,
    let l := tiers now d amt coupon_code user in
    Qeq_bool (l_discount_amount l) 0 = true
    \/ (exists c coupon,
           truthy_str coupon_code = Some c
           /\ discount_repository.get_coupon_by_code now d c = Some coupon
           /\ l_discount_amount l = coupon_discount amt coupon
           /\ l_discount_type l = "coupon"%string)
    \/ (exists user_discount,
           discount_repository.get_user_type_discount d "regular" = Some user_discount
           /\ l_discount_amount l
              = percent_of amt (discount_models.ut_discount_percent user_discount)
           /\ l_discount_type l = "user_type"%string)
    \/ (exists amount_discount,
           discount_repository.get_amount_based_discount d amt = Some amount_discount
           /\ l_discount_amount l
              = percent_of amt (discount_models.ab_discount_percent amount_discount)
           /\ l_discount_type l = "amount_based"%string).
Proof.
  intros d amt coupon_code user l. subst l. unfold tiers.
  set (l1 := coupon_tier now d amt coupon_code no_discount).
  assert (H1 : Qeq_bool (l_discount_amount l1) 0 = true
               \/ exists c coupon,
                   truthy_str coupon_code = Some c
                   /\ discount_repository.get_coupon_by_code now d c = Some coupon
                   /\ l1 = {| l_discount_amount := coupon_discount amt coupon;
                              l_discount_rule := l_discount_rule l1;
                              l_coupon_id := l_coupon_id l1;
                              l_discount_type := "coupon" |}).
  { subst l1. unfold coupon_tier.
    destruct (truthy_str coupon_code) as [c|]; [|left; reflexivity].
    destruct (discount_repository.get_coupon_by_code now d c) as [coupon|] eqn:E;
      [|left; reflexivity].
    right. exists c, coupon. split; [reflexivity|]. split; [exact E | reflexivity]. }
  set (l2 := user_type_tier d amt user l1).
  unfold amount_tier. fold l2.
  destruct (Qeq_bool (l_discount_amount l2) 0) eqn:E2.
  - destruct (discount_repository.get_amount_based_discount d amt) as [ad|] eqn:Ea.
    + right. right. right. exists ad. repeat split.
    + left. exact E2.
  - subst l2. unfold user_type_tier in *.
    destruct (Qeq_bool (l_discount_amount l1) 0
              && match truthy_str user with Some _ => true | None => false end) eqn:E1.
    + destruct (discount_repository.get_user_type_discount d "regular") as [ud|] eqn:Eu.
      * right. right. left. exists ud. repeat split.
      * apply andb_prop in E1. destruct E1 as [E1 _]. rewrite E1 in E2. discriminate.
    + destruct H1 as [H1 | (c & coupon & Hc & Hg & Hl)].
      * rewrite H1 in E2. discriminate.
      * right. left. exists c, coupon. split; [exact Hc|]. split; [exact Hg|].
        rewrite Hl. split; reflexivity.
Qed.

(** [apply_discount] returns the response built from the tiers; it records
    an application and calls the publisher exactly when the discount is
    positive. *)
Lemma apply_discount_run :
  forall amt coupon_code user corr w,
    let l := tiers now (db w) amt coupon_code user in
    exists w',
      apply_discount env now amt coupon_code user corr w
      = (Return {| original_amount := amt;
                   discount_amount := l_discount_amount l;
                   final_amount := (amt - l_discount_amount l)%Q;
                   discount_rule := l_discount_rule l;
                   coupon_code := if String.eqb (l_discount_type l) "coupon"
                                  then coupon_code else None |}, w')
      /\ (Qlt_bool 0 (l_discount_amount l) = false -> w' = w)
      /\ (Qlt_bool 0 (l_discount_amount l) = true ->
          exists msgs,
            discount_repository.discount_applications (db w')
            = discount_repository.discount_applications (db w)
                ++ [fst (discount_repository.create_discount_application now user amt
                           (l_discount_amount l) (amt - l_discount_amount l)%Q
                           (l_discount_type l) (l_coupon_id l) corr (db w))]
            /\ Events.exchange (bus w') = Events.exchange (bus w) ++ msgs
            /\ (msgs = []
                \/ exists m, msgs = [m]
                             /\ Events.routing_key m = "discount.applied"%string)).
Proof.
  intros amt coupon_code user corr w l.
  unfold apply_discount. unfold bind at 1. unfold gets at 1.
  fold l.
  destruct (Qlt_bool 0 (l_discount_amount l)) eqn:Epos.
  - rewrite bind_assoc.
    assert (Hdb : forall (A : Type) (f : discount_repository.Db -> A * discount_repository.Db) w0,
               on_db f w0 = (Return (fst (f (db w0))), {| db := snd (f (db w0)); bus := bus w0 |})).
    { intros A f w0. unfold on_db. destruct (f (db w0)); reflexivity. }
    erewrite bind_return by apply Hdb.
    rewrite bind_assoc.
    match goal with
    | |- context [on_bus (publish_discount_applied _ _ ?data ?c)] =>
        match goal with
        | |- context [bind _ _ ?w1] =>
            destruct (publish_discount_applied_returns data c w1)
              as (b & p' & m & Hp & Hex & Hrk)
        end
    end.
    erewrite bind_return by exact Hp.
    eexists. split; [reflexivity|]. split; [discriminate|].
    intros _. exists (if b then [m] else []). cbn [db bus].
    split; [reflexivity|]. split.
    + rewrite Hex. cbn [bus]. destruct b; [reflexivity | rewrite app_nil_r; reflexivity].
    + destruct b; [right | left; reflexivity]. exists m. split; [reflexivity | exact Hrk].
  - exists w. split; [reflexivity|]. split; [reflexivity | discriminate].
Qed.





End DiscountFacts.


(** The spec's example: amount 200, coupon SAVE10 (10%, capped at 15) and
    an amount tier of 5% that also qualifies.  The discount is the cap, 15;
    one application is recorded and one event published. *)
Lemma coupon_capped_at_15 :
  exists resp w',
    discount_service.apply_discount samples.broker_up 20 200 (Some "SAVE10"%string)
      (Some "alice"%string) (Some "corr-1"%string) samples.discount_world
    = (Return resp, w')
    /\ discount_schemas.discount_amount resp = 15%Q
    /\ (discount_schemas.final_amount resp == 185)%Q
    /\ discount_schemas.coupon_code resp = Some "SAVE10"%string
    /\ map discount_models.discount_type
         (discount_repository.discount_applications (discount_service.db w'))
       = ["coupon"%string]
    /\ map Events.routing_key (Events.exchange (discount_service.bus w'))
       = ["discount.applied"%string].
Proof.
  eexists. eexists. split; [vm_compute; reflexivity|].
  repeat split.
Qed.


(** ** Tax *)

(** A connected publisher goes straight to the guarded block. *)
Lemma publish_event_connected :
  forall env service_name now rk event_data corr p,
    Events.connected p = true ->
    Events.publish_event env service_name now rk event_data corr p
    = Events.try_publish env service_name now rk event_data corr p.
Proof.
  intros env svc now rk ed corr p Hc.
  unfold Events.publish_event, bind at 1, gets at 1.
  rewrite Hc. reflexivity.
Qed.

(** The code's choice of rules is the specification's. *)
Lemma applicable_rules_spec :
  forall d pt,
    tax_service.applicable_rules d pt
    = tax_facts.rules_for (tax_repository.tax_rules d) pt.
Proof.
  intros d pt.
  unfold tax_service.applicable_rules, tax_facts.rules_for,
    tax_repository.get_tax_rules_by_product_type, tax_repository.get_default_tax_rule.
  destruct (filter (fun r => String.eqb (tax_models.product_type r) pt)
                   (tax_repository.tax_rules d)); reflexivity.
Qed.

(** Over rules that all have a description the loop adds the sum of the
    rule taxes to the running amount and appends the rules, in order, to
    the running list. *)
Lemma accumulate_described :
  forall amt rules tax applied,
    forallb tax_facts.described rules = true ->
    exists t,
      tax_service.accumulate amt rules tax applied
      = Return (t, applied ++ map tax_facts.listed rules)
      /\ (t == tax + tax_service.sum_of_rule_taxes amt rules)%Q.
Proof.
  intros amt rules. induction rules as [|rule rest IH]; intros tax applied H; simpl.
  - exists tax. split; [rewrite app_nil_r; reflexivity | ring].
  - simpl in H. apply andb_prop in H. destruct H as [Hr Hrest].
    unfold tax_service.as_schema, tax_facts.listed, tax_facts.described in *.
    destruct (tax_models.description rule) as [text|]; [|discriminate].
    destruct (IH (tax + amt * tax_models.rate rule)%Q
                 (applied ++ [{| tax_schemas.name := tax_models.name rule;
                                 tax_schemas.description := text;
                                 tax_schemas.rate := tax_models.rate rule |}])
                 Hrest) as (t & Hacc & Ht).
    exists t. split.
    + rewrite Hacc, <- app_assoc. reflexivity.
    + rewrite Ht. ring.
Qed.

(** The loop raises at the first rule without a description. *)
Lemma accumulate_undescribed :
  forall amt rules tax applied,
    forallb tax_facts.described rules = false ->
    tax_service.accumulate amt rules tax applied
    = Raise (ValidationError "description").
Proof.
  intros amt rules. induction rules as [|rule rest IH]; intros tax applied H; simpl.
  - discriminate.
  - simpl in H. unfold tax_service.as_schema, tax_facts.described in *.
    destruct (tax_models.description rule) as [text|]; [|reflexivity].
    apply IH. exact H.
Qed.



Section TaxFacts.

Import tax_schemas tax_service.

Variable env : Events.BrokerEnv.
Variable now : nat.

(** The publisher is called on the bus and answers; the database is not
    touched. *)
Lemma publish_tax_calculated_run :
  forall data corr w,
  exists b,
    on_bus (publish_tax_calculated env now data corr) w
    = (Return b,
       {| db := db w;
          bus := snd (publish_tax_calculated env now data corr (bus w)) |}).
Proof.
  intros data corr w.
  unfold on_bus, zoom, publish_tax_calculated.
  match goal with
  | |- context [Events.publish_event ?e ?s ?n ?rk ?ed ?c ?p] =>
      destruct (publish_event_state e s n rk ed c p) as (b & p' & H & _)
  end.
  exists b. rewrite H. reflexivity.
Qed.


Lemma tax_on_db_run :
  forall (A : Type) (f : tax_repository.Db -> A * tax_repository.Db) w,
    on_db f w = (Return (fst (f (db w))), {| db := snd (f (db w)); bus := bus w |}).
Proof. intros A f w. unfold on_db. destruct (f (db w)); reflexivity. Qed.

(** [calculate_tax] over rules that all have a description: the response,
    the database and the bus it leaves. *)
Lemma calculate_tax_run :
  forall amt pt user corr w,
    forallb tax_facts.described (applicable_rules (db w) pt) = true ->
    exists resp w',
      calculate_tax env now amt pt user corr w = (Return resp, w')
      /\ (tax_amount resp
          == tax_service.sum_of_rule_taxes amt (applicable_rules (db w) pt))%Q
      /\ rules_applied resp = map tax_facts.listed (applicable_rules (db w) pt)
      /\ original_amount resp = amt
      /\ total_amount resp = (amt + tax_amount resp)%Q
      /\ (applicable_rules (db w) pt = [] -> tax_amount resp = 0%Q)
      /\ db w'
         = match applicable_rules (db w) pt with
           | [] => db w
           | primary :: _ =>
               snd (tax_repository.create_tax_calculation now user amt
                      (tax_amount resp) (total_amount resp) pt
                      (tax_models.id primary) corr (db w))
           end
      /\ bus w'
         = snd (publish_tax_calculated env now (tax_payload resp pt user)
                  (Some corr) (bus w)).
Proof.
  intros amt pt user corr w Hdesc.
  destruct (accumulate_described amt (applicable_rules (db w) pt) 0%Q [] Hdesc)
    as (tax & Hacc & Htax).
  unfold calculate_tax. unfold bind at 1. unfold gets at 1.
  rewrite Hacc.
  set (resp := {| original_amount := amt; tax_amount := tax;
                  rules_applied := map tax_facts.listed (applicable_rules (db w) pt);
                  total_amount := (amt + tax)%Q |}).
  destruct (applicable_rules (db w) pt) as [|primary rest] eqn:Erules.
  - erewrite bind_return by reflexivity.
    destruct (publish_tax_calculated_run (tax_payload resp pt user) (Some corr) w)
      as (b & Hp).
    unfold tax_payload in Hp. cbn [original_amount tax_amount rules_applied resp] in Hp.
    cbn [app]. erewrite bind_return by exact Hp.
    exists resp. eexists. split; [reflexivity|].
    split; [cbn [tax_amount resp]; rewrite Htax; ring|].
    repeat split.
    intros _. simpl in Hacc. injection Hacc as Ht. symmetry. exact Ht.
  - rewrite bind_assoc. erewrite bind_return by apply tax_on_db_run.
    erewrite bind_return by reflexivity.
    match goal with
    | |- context [bind _ _ ?w1] =>
        destruct (publish_tax_calculated_run (tax_payload resp pt user) (Some corr) w1)
          as (b & Hp)
    end.
    unfold tax_payload in Hp. cbn [original_amount tax_amount rules_applied resp] in Hp.
    cbn [app]. erewrite bind_return by exact Hp.
    exists resp. eexists. split; [reflexivity|].
    split; [cbn [tax_amount resp]; rewrite Htax; ring|].
    repeat split. discriminate.
Qed.

(** [calculate_tax] when an applicable rule has no description: the
    validation error leaves before anything is recorded or published. *)
Lemma calculate_tax_rejected :
  forall amt pt user corr w,
    forallb tax_facts.described (applicable_rules (db w) pt) = false ->
    calculate_tax env now amt pt user corr w
    = (Raise (ValidationError "description"), w).
Proof.
  intros amt pt user corr w Hdesc.
  unfold calculate_tax. unfold bind at 1. unfold gets at 1.
  rewrite (accumulate_undescribed amt _ 0%Q [] Hdesc). reflexivity.
Qed.

End TaxFacts.



(** Two rules match [digital] in the sample database (20% and 5%): the tax
    on 200 is 50, both rules are listed, and one event is published. *)
Lemma tax_on_digital_goods :
  exists resp w',
    tax_service.calculate_tax samples.broker_up 20 200 "digital" "alice" "corr-1"
      samples.tax_world = (Return resp, w')
    /\ (tax_schemas.tax_amount resp == 50)%Q
    /\ map tax_schemas.name (tax_schemas.rules_applied resp)
       = ["VAT"%string; "Levy"%string]
    /\ map Events.routing_key (Events.exchange (tax_service.bus w'))
       = ["tax.calculated"%string].
Proof.
  eexists. eexists. split; [vm_compute; reflexivity|]. repeat split.
Qed.

(** No rule matches [service] and the sample database has no default rule:
    the tax is zero, the list empty, nothing is recorded, and the event is
    published with an empty rule list. *)
Lemma tax_without_rules :
  exists resp w' m,
    tax_service.calculate_tax samples.broker_up 20 200 "service" "alice" "corr-1"
      samples.tax_world = (Return resp, w')
    /\ tax_schemas.tax_amount resp = 0%Q
    /\ tax_schemas.rules_applied resp = []
    /\ tax_repository.tax_calculations (tax_service.db w') = []
    /\ Events.exchange (tax_service.bus w') = [m]
    /\ Events.routing_key m = "tax.calculated"%string
    /\ dict_get (tax_service.tax_payload resp "service" "alice") "rules_applied" VNone
       = VList []
    /\ Events.payload (Events.body m)
       = VDict (tax_service.tax_payload resp "service" "alice").
Proof.
  eexists. eexists. eexists. split; [vm_compute; reflexivity|]. repeat split.
Qed.

(** * Further properties of the code *)

From Stdlib Require Import Sorted Permutation Lqa.

(** ** The publisher over runs of calls *)

(** X1.  [connect] never raises and never publishes.  On a connected
    publisher it does nothing at all, so connecting twice is connecting
    once; on a disconnected one it makes one attempt, and the publisher ends
    connected exactly when the connection, the channel and the exchange
    declaration all succeed, so that a failed attempt is retried by the next
    call. *)
Theorem connect_twice_is_connect_once :
  forall env env2 p,
    fst (Events.connect env p) = Return tt
    /\ Events.exchange (snd (Events.connect env p)) = Events.exchange p
    /\ (Events.connected p = true -> snd (Events.connect env p) = p)
    /\ (Events.connected p = false ->
        Events.connected (snd (Events.connect env p))
        = (Events.connect_robust_ok env && Events.channel_ok env
           && Events.declare_exchange_ok env))
    /\ (Events.connected (snd (Events.connect env p)) = true ->
        Events.connect env2 (snd (Events.connect env p))
        = (Return tt, snd (Events.connect env p)))
    /\ (Events.connected (snd (Events.connect env p)) = false ->
        Events.connect_calls (snd (Events.connect env2 (snd (Events.connect env p))))
        = S (Events.connect_calls (snd (Events.connect env p)))).
Proof.
  intros env env2 p.
  destruct (connect_state env p) as (p1 & Hc & Hex & Huu & Hcalls & Hconn & Hsame & _).
  rewrite Hc. cbn [fst snd].
  destruct (connect_state env2 p1) as (p2 & Hc2 & _ & _ & Hcalls2 & _ & Hsame2 & _).
  rewrite Hc2. cbn [snd].
  repeat split; try assumption.
  - intros Hp. rewrite Hp in Hconn. exact Hconn.
  - intros Hp1. rewrite (Hsame2 Hp1). reflexivity.
  - intros Hp1. rewrite Hp1 in Hcalls2. exact Hcalls2.
Qed.

(** Every call keeps the link between the flag and the connection object:
    a publisher that says it is connected holds a connection. *)
Lemma run_keeps_link :
  forall c p,
    (Events.connected p = true -> Events.connection p = true) ->
    Events.connected (publisher_calls.run c p) = true ->
    Events.connection (publisher_calls.run c p) = true.
Proof.
  intros c p Hl. destruct c as [env | env | env svc now rk ed corr]; simpl.
  - destruct (connect_state env p) as (p1 & Hc & _ & _ & _ & _ & Hsame & Hlink).
    rewrite Hc. cbn [snd]. intros H1.
    destruct (Events.connected p) eqn:Hp.
    + rewrite (Hsame eq_refl). apply Hl. reflexivity.
    + apply Hlink; [reflexivity | exact H1].
  - unfold Events.disconnect, Events.close, bind, gets, modify, ret.
    destruct (Events.connection p && Events.connected p) eqn:E; simpl.
    + destruct (Events.close_ok env); simpl; [discriminate|].
      intros _. apply andb_prop in E. apply E.
    + exact Hl.
  - destruct (publish_event_state env svc now rk ed corr p)
      as (b & p' & Hr & _ & _ & _ & _ & Hlink & _).
    rewrite Hr. cbn [snd]. apply Hlink. exact Hl.
Qed.

Lemma run_all_keeps_link :
  forall calls p,
    (Events.connected p = true -> Events.connection p = true) ->
    Events.connected (publisher_calls.run_all calls p) = true ->
    Events.connection (publisher_calls.run_all calls p) = true.
Proof.
  induction calls as [|c rest IH]; intros p Hl; simpl.
  - exact Hl.
  - apply IH. apply run_keeps_link. exact Hl.
Qed.

(** X2.  Take a publisher after any run of calls.  [disconnect] never
    touches the published messages.  When the publisher is not connected,
    or the broker closes the connection without error, [disconnect] returns
    normally and leaves the publisher disconnected, and the next
    [publish_event] makes exactly one new connection attempt.  When the
    publisher is connected and closing the connection fails, the failure
    reaches the caller of [disconnect], the publisher is left as it was,
    still marked connected, and the next [publish_event] makes no
    connection attempt. *)
Theorem disconnect_then_publish_reconnects :
  forall calls env0 env service_name now rk event_data corr,
    Events.exchange
      (snd (Events.disconnect env0 (publisher_calls.run_all calls Events.init)))
    = Events.exchange (publisher_calls.run_all calls Events.init)
    /\ (Events.connected (publisher_calls.run_all calls Events.init) = false
        \/ Events.close_ok env0 = true ->
        fst (Events.disconnect env0 (publisher_calls.run_all calls Events.init))
        = Return tt
        /\ Events.connected
             (snd (Events.disconnect env0 (publisher_calls.run_all calls Events.init)))
           = false
        /\ Events.connect_calls
             (snd (Events.publish_event env service_name now rk event_data corr
                     (snd (Events.disconnect env0
                             (publisher_calls.run_all calls Events.init)))))
           = S (Events.connect_calls (publisher_calls.run_all calls Events.init)))
    /\ (Events.connected (publisher_calls.run_all calls Events.init) = true ->
        Events.close_ok env0 = false ->
        Events.disconnect env0 (publisher_calls.run_all calls Events.init)
        = (Raise (BrokerError "close"), publisher_calls.run_all calls Events.init)
        /\ Events.connect_calls
             (snd (Events.publish_event env service_name now rk event_data corr
                     (publisher_calls.run_all calls Events.init)))
           = Events.connect_calls (publisher_calls.run_all calls Events.init)).
Proof.
  intros calls env0 env svc now rk ed corr.
  pose proof (@run_all_keeps_link calls Events.init) as Hl.
  assert (H0 : Events.connected Events.init = true -> Events.connection Events.init = true)
    by (simpl; discriminate).
  specialize (Hl H0). clear H0.
  set (p := publisher_calls.run_all calls Events.init) in *.
  split; [|split].
  - unfold Events.disconnect, Events.close, bind, gets, modify, ret.
    destruct (Events.connection p && Events.connected p); simpl;
      [destruct (Events.close_ok env0)|]; reflexivity.
  - intros Hcase.
    assert (Hd : exists p1, Events.disconnect env0 p = (Return tt, p1)
                            /\ Events.connected p1 = false
                            /\ Events.connect_calls p1 = Events.connect_calls p).
    { unfold Events.disconnect, Events.close, bind, gets, modify, ret.
      destruct (Events.connected p) eqn:Hp.
      - destruct Hcase as [Hoff | Hclose]; [discriminate|].
        rewrite (Hl eq_refl), Hclose. simpl. eexists. repeat split.
      - rewrite andb_false_r. exists p. repeat split. exact Hp. }
    destruct Hd as (p1 & Hd & Hoff & Hcalls).
    rewrite Hd. cbn [fst snd].
    destruct (publish_event_state env svc now rk ed corr p1)
      as (b & p' & Hr & _ & Hcc & _).
    rewrite Hr. cbn [snd]. rewrite Hcc, Hoff, Hcalls.
    repeat split; assumption.
  - intros Hp Hclose. split.
    + unfold Events.disconnect, Events.close, bind, gets, modify, ret.
      rewrite (Hl Hp), Hp, Hclose. reflexivity.
    + destruct (publish_event_state env svc now rk ed corr p)
        as (b & p' & Hr & _ & Hcc & _).
      rewrite Hr. cbn [snd]. rewrite Hcc, Hp. reflexivity.
Qed.

(** X3.  [publish_event] returns [True] exactly when the publisher is
    connected after the connection attempt it may make, the exchange is
    found, the event type and the payload can be encoded as JSON, and the
    broker accepts the message; in every other case it returns [False], and
    it never raises. *)
Theorem publish_event_true_iff :
  forall env service_name now rk event_data corr p,
    fst (Events.publish_event env service_name now rk event_data corr p)
    = Return ((Events.connected p
               || (Events.connect_robust_ok env && Events.channel_ok env
                   && Events.declare_exchange_ok env))
              && (Events.get_exchange_ok env
                  && (serialisable (dict_get event_data "event_type" (VStr "unknown"))
                      && serialisable (dict_get event_data "payload" (VDict [])))
                  && Events.publish_ok env)).
Proof.
  intros env svc now rk ed corr p.
  destruct (publish_event_state env svc now rk ed corr p)
    as (b & p' & Hr & _ & _ & _ & _ & _ & Hb).
  rewrite Hr. cbn [fst]. rewrite Hb. reflexivity.
Qed.

(** One call keeps what was published and adds at most one message, whose
    id is the uuid drawn for it. *)
Lemma run_exchange :
  forall c p,
    Events.uuids_drawn p <= Events.uuids_drawn (publisher_calls.run c p)
    /\ (Events.exchange (publisher_calls.run c p) = Events.exchange p
        \/ exists m,
             Events.exchange (publisher_calls.run c p) = Events.exchange p ++ [m]
             /\ Events.message_id m = Events.Uuid (Events.uuids_drawn p)
             /\ Events.event_id (Events.body m) = Events.message_id m
             /\ Events.delivery_mode m = Events.PERSISTENT
             /\ Events.uuids_drawn p < Events.uuids_drawn (publisher_calls.run c p)).
Proof.
  intros c p. destruct c as [env | env | env svc now rk ed corr]; simpl.
  - destruct (connect_state env p) as (p1 & Hc & Hex & Huu & _).
    rewrite Hc. cbn [snd]. split; [lia | left; exact Hex].
  - unfold Events.disconnect, Events.close, bind, gets, modify, ret.
    destruct (Events.connection p && Events.connected p); simpl;
      [destruct (Events.close_ok env); simpl|];
      (split; [lia | left; reflexivity]).
  - destruct (publish_event_state env svc now rk ed corr p)
      as (b & p' & Hr & Hex & _ & Hle & Hlt & _).
    rewrite Hr. cbn [snd]. split; [exact Hle|].
    destruct b.
    + right. eexists. split; [exact Hex|]. repeat split. apply Hlt. reflexivity.
    + left. exact Hex.
Qed.

(** X4.  The exchange only ever grows: after any run of calls the messages
    published before are still there, in the same order, followed by the
    new ones. *)
Theorem exchange_is_append_only :
  forall calls p,
  exists added,
    Events.exchange (publisher_calls.run_all calls p) = Events.exchange p ++ added
    /\ List.length added <= List.length calls
    /\ Forall (fun m => Events.delivery_mode m = Events.PERSISTENT
                        /\ Events.event_id (Events.body m) = Events.message_id m)
              added.
Proof.
  induction calls as [|c rest IH]; intros p; simpl.
  - exists []. rewrite app_nil_r. repeat split; [simpl; lia | constructor].
  - destruct (IH (publisher_calls.run c p)) as (added & Hex & Hlen & Hall).
    destruct (run_exchange c p) as (_ & [Hsame | (m & Hm & _ & Hid & Hdm & _)]).
    + exists added. rewrite Hex, Hsame. repeat split; [simpl; lia | exact Hall].
    + exists (m :: added). rewrite Hex, Hm, <- app_assoc. simpl.
      repeat split; [simpl; lia|]. constructor; [split; assumption | exact Hall].
Qed.

(** ** The consumer *)

Section ConsumerFacts.

Import event_consumer.

Variable App : Type.

(** Lookup after an assignment: the new value under the assigned key, the
    old one under any other. *)
Lemma get_item_set_item :
  forall (A : Type) (d : list (string * A)) k v k',
    get_item (set_item d k v) k'
    = if String.eqb k k' then Some v else get_item d k'.
Proof.
  intros A d k v k'. induction d as [|[k0 v0] d IH]; simpl.
  - reflexivity.
  - destruct (String.eqb k0 k) eqn:E; simpl.
    + apply String.eqb_eq in E. subst k0.
      destruct (String.eqb k k'); reflexivity.
    + rewrite IH. destruct (String.eqb k0 k') eqn:E'; [|reflexivity].
      apply String.eqb_eq in E'. subst k0.
      rewrite String.eqb_sym in E. rewrite E. reflexivity.
Qed.

(** Decoding and dispatching touch neither the handler table nor what the
    broker was told; the application changes only through a handler. *)
Lemma dispatch_frame :
  forall body (c : Consumer App),
    event_handlers (snd (dispatch body c)) = event_handlers c
    /\ acked (snd (dispatch body c)) = acked c
    /\ rejected (snd (dispatch body c)) = rejected c
    /\ app (snd (dispatch body c))
       = match body with
         | VDict d =>
             match dict_get d "event_type" VNone with
             | VStr s =>
                 if String.eqb s "" then app c
                 else match get_item (event_handlers c) s with
                      | Some h => snd (h d (app c))
                      | None => app c
                      end
             | _ => app c
             end
         | _ => app c
         end.
Proof.
  intros body c. unfold dispatch.
  destruct body as [| | | | | | |d|]; try (repeat split; reflexivity).
  unfold bind, gets, logger, modify, on_app, zoom, raise.
  destruct (dict_get d "event_type" VNone) as [|b|n|q|s|t|l|d'|r]; simpl;
    try (repeat split; reflexivity).
  - destruct b; repeat split; reflexivity.
  - destruct (Nat.eqb n 0); repeat split; reflexivity.
  - destruct (Qeq_bool q 0); repeat split; reflexivity.
  - destruct (String.eqb s ""); simpl; [repeat split; reflexivity|].
    destruct (get_item (event_handlers c) s) as [h|]; [|repeat split; reflexivity].
    simpl. destruct (h d (app c)) as [r a']. repeat split; reflexivity.
  - destruct l; repeat split; reflexivity.
  - destruct d'; repeat split; reflexivity.
Qed.

(** [process_message] returns normally and acknowledges the message,
    whatever its body and whatever the handler does. *)
Lemma process_message_run :
  forall m (c : Consumer App),
  exists c',
    process_message m c = (Return tt, c')
    /\ event_handlers c' = event_handlers c
    /\ acked c' = acked c ++ [delivery_tag m]
    /\ rejected c' = rejected c
    /\ app c'
       = match msg_body m with
         | Json (VDict d) =>
             match dict_get d "event_type" VNone with
             | VStr s =>
                 if String.eqb s "" then app c
                 else match get_item (event_handlers c) s with
                      | Some h => snd (h d (app c))
                      | None => app c
                      end
             | _ => app c
             end
         | _ => app c
         end.
Proof.
  intros m c. unfold process_message, message_process.
  destruct (msg_body m) as [| |body]; simpl.
  - eexists. repeat split.
  - eexists. repeat split.
  - unfold try_except.
    destruct (dispatch_frame body c) as (Hh & Ha & Hr & Happ).
    destruct (dispatch body c) as [[u|e] c1]; simpl in *.
    + eexists. split; [reflexivity|]. simpl. rewrite Hh, Ha, Hr, Happ.
      repeat split.
    + eexists. split; [reflexivity|]. simpl. rewrite Hh, Ha, Hr, Happ.
      repeat split.
Qed.

(** X6.  Consuming a queue never raises and never rejects: every message
    is acknowledged, in the order of delivery, whether its body is
    undecodable, names no registered event type, or makes its handler
    raise.  The table of handlers is left as it was. *)
Theorem consume_acknowledges_every_message :
  forall messages (c : Consumer App),
  exists c',
    consume messages c = (Return tt, c')
    /\ acked c' = acked c ++ map delivery_tag messages
    /\ rejected c' = rejected c
    /\ event_handlers c' = event_handlers c.
Proof.
  induction messages as [|m rest IH]; intros c; simpl.
  - exists c. rewrite app_nil_r. repeat split.
  - destruct (process_message_run m c) as (c1 & Hr & Hh & Ha & Hrej & _).
    erewrite bind_return by exact Hr.
    destruct (IH c1) as (c' & Hr' & Ha' & Hrej' & Hh').
    exists c'. split; [exact Hr'|].
    rewrite Ha', Ha, Hrej', Hrej, Hh', Hh, <- app_assoc. repeat split.
Qed.

(** X7.  [process_message] runs a handler exactly when the body decodes to
    an object whose [event_type] is a non-empty string with a handler
    registered under it; it then runs that handler once on the decoded
    body, and what the handler did to the application stays even if the
    handler raised.  In every other case the application is untouched. *)
Theorem process_message_runs_registered_handler :
  forall m (c : Consumer App),
    fst (process_message m c) = Return tt
    /\ app (snd (process_message m c))
       = match msg_body m with
         | Json (VDict d) =>
             match dict_get d "event_type" VNone with
             | VStr s =>
                 if String.eqb s "" then app c
                 else match get_item (event_handlers c) s with
                      | Some h => snd (h d (app c))
                      | None => app c
                      end
             | _ => app c
             end
         | _ => app c
         end.
Proof.
  intros m c. destruct (process_message_run m c) as (c' & Hr & _ & _ & _ & Happ).
  rewrite Hr. split; [reflexivity | exact Happ].
Qed.

(** X8.  Registration is by event type and the last registration wins: after
    [register_handler t h], an event of type [t] is handled by [h], whatever
    was registered under [t] before, and the handlers of every other type
    are the ones registered before. *)
Theorem register_handler_last_wins :
  forall (c : Consumer App) t h tag d,
    t <> ""%string ->
    dict_get d "event_type" VNone = VStr t ->
    fst (register_handler t h c) = Return tt
    /\ app (snd (process_message {| delivery_tag := tag; msg_body := Json (VDict d) |}
                   (snd (register_handler t h c))))
       = snd (h d (app c))
    /\ (forall t', t' <> t ->
          get_item (event_handlers (snd (register_handler t h c))) t'
          = get_item (event_handlers c) t').
Proof.
  intros c t h tag d Hne Hty.
  split; [reflexivity|]. split.
  - match goal with
    | |- app (snd (process_message ?m ?c1)) = _ =>
        destruct (process_message_run m c1) as (c' & Hr & _ & _ & _ & Happ)
    end.
    rewrite Hr. cbn [snd]. rewrite Happ. cbn [msg_body]. rewrite Hty.
    apply String.eqb_neq in Hne. rewrite Hne.
    unfold register_handler, bind, modify, logger. simpl.
    rewrite get_item_set_item, String.eqb_refl. reflexivity.
  - intros t' Hne'.
    unfold register_handler, bind, modify, logger. simpl.
    rewrite get_item_set_item.
    destruct (String.eqb t t') eqn:E; [|reflexivity].
    apply String.eqb_eq in E. congruence.
Qed.

End ConsumerFacts.

Lemma register_handler_last_wins_witness :
  event_consumer.app
    (snd (event_consumer.process_message fixtures.invoice_created_message
            (snd (event_consumer.register_handler "invoice_created"
                    fixtures.count_event fixtures.idle_consumer))))
  = 1.
Proof.
  refine (let H := @register_handler_last_wins nat fixtures.idle_consumer
                     "invoice_created" fixtures.count_event 7
                     [("event_id", VStr "e-1");
                      ("event_type", VStr "invoice_created");
                      ("payload", VDict [])] _ _ in _).
  - destruct H as (_ & H & _). exact H.
  Unshelve.
  + discriminate.
  + reflexivity.
Defined.

(** A handler that fails after doing part of its work: the message is
    acknowledged all the same and the partial work stays. *)
Example failing_handler_is_acknowledged :
  let r := event_consumer.process_message fixtures.invoice_created_message
             fixtures.idle_consumer in
  fst r = Return tt
  /\ event_consumer.acked (snd r) = [7]
  /\ event_consumer.rejected (snd r) = []
  /\ event_consumer.app (snd r) = 1.
Proof. repeat split. Qed.

(** ** Ordering and paging of query results *)

Section OrderBy.

Variable A : Type.
Variable key : A -> nat.
Variable precedes : nat -> nat -> bool.

Hypothesis precedes_total : forall a b, precedes a b = false -> precedes b a = true.
Hypothesis precedes_trans :
  forall a b c, precedes a b = true -> precedes b c = true -> precedes a c = true.

Lemma insert_row_perm :
  forall x rows, Permutation (sql.insert_row key precedes x rows) (x :: rows).
Proof.
  intros x rows. induction rows as [|y rest IH]; simpl.
  - apply Permutation_refl.
  - destruct (precedes (key x) (key y)).
    + apply Permutation_refl.
    + eapply Permutation_trans; [apply perm_skip; exact IH | apply perm_swap].
Qed.

Lemma order_by_perm :
  forall rows, Permutation (sql.order_by key precedes rows) rows.
Proof.
  induction rows as [|x rest IH]; simpl.
  - apply Permutation_refl.
  - eapply Permutation_trans; [apply insert_row_perm | apply perm_skip; exact IH].
Qed.

Lemma insert_row_sorted :
  forall x rows,
    StronglySorted (fun a b => precedes (key a) (key b) = true) rows ->
    StronglySorted (fun a b => precedes (key a) (key b) = true)
                   (sql.insert_row key precedes x rows).
Proof.
  intros x rows Hs. induction Hs as [|y rest Hs IH Hy]; simpl.
  - constructor; constructor.
  - destruct (precedes (key x) (key y)) eqn:E.
    + constructor; [constructor; assumption|].
      constructor; [exact E|].
      rewrite Forall_forall in *. intros b Hb.
      eapply precedes_trans; [exact E | apply Hy; exact Hb].
    + constructor; [exact IH|].
      rewrite Forall_forall in *. intros b Hb.
      apply (Permutation_in _ (insert_row_perm x rest)) in Hb.
      destruct Hb as [<- | Hb]; [apply precedes_total; exact E | apply Hy; exact Hb].
Qed.

Lemma order_by_sorted :
  forall rows,
    StronglySorted (fun a b => precedes (key a) (key b) = true)
                   (sql.order_by key precedes rows).
Proof.
  induction rows as [|x rest IH]; simpl.
  - constructor.
  - apply insert_row_sorted. exact IH.
Qed.

End OrderBy.

Lemma order_by_desc_sorted :
  forall (A : Type) (key : A -> nat) rows,
    StronglySorted (fun a b => key b <= key a) (sql.order_by key sql.desc rows).
Proof.
  intros A key rows.
  assert (H : StronglySorted (fun a b => sql.desc (key a) (key b) = true)
                             (sql.order_by key sql.desc rows)).
  { apply order_by_sorted; unfold sql.desc.
    - intros a b H. apply Nat.leb_gt in H. apply Nat.leb_le. lia.
    - intros a b c H1 H2. apply Nat.leb_le in H1, H2. apply Nat.leb_le. lia. }
  induction H as [|x l Hs IH Hx]; constructor; [exact IH|].
  eapply Forall_impl; [|exact Hx]. intros b Hb. apply Nat.leb_le. exact Hb.
Qed.

Lemma order_by_asc_sorted :
  forall (A : Type) (key : A -> nat) rows,
    StronglySorted (fun a b => key a <= key b) (sql.order_by key sql.asc rows).
Proof.
  intros A key rows.
  assert (H : StronglySorted (fun a b => sql.asc (key a) (key b) = true)
                             (sql.order_by key sql.asc rows)).
  { apply order_by_sorted; unfold sql.asc.
    - intros a b H. apply Nat.leb_gt in H. apply Nat.leb_le. lia.
    - intros a b c H1 H2. apply Nat.leb_le in H1, H2. apply Nat.leb_le. lia. }
  induction H as [|x l Hs IH Hx]; constructor; [exact IH|].
  eapply Forall_impl; [|exact Hx]. intros b Hb. apply Nat.leb_le. exact Hb.
Qed.

Lemma order_by_in :
  forall (A : Type) (key : A -> nat) precedes rows x,
    In x (sql.order_by key precedes rows) <-> In x rows.
Proof.
  intros A key precedes rows x.
  pose proof (order_by_perm key precedes rows) as P.
  split; intros H.
  - eapply Permutation_in; [exact P | exact H].
  - eapply Permutation_in; [apply Permutation_sym; exact P | exact H].
Qed.

Lemma StronglySorted_skipn :
  forall (A : Type) (R : A -> A -> Prop) n l,
    StronglySorted R l -> StronglySorted R (skipn n l).
Proof.
  intros A R n. induction n as [|n IH]; intros l Hs; simpl.
  - exact Hs.
  - destruct l as [|x l]; [constructor|].
    apply IH. inversion Hs; assumption.
Qed.

Lemma StronglySorted_firstn :
  forall (A : Type) (R : A -> A -> Prop) n l,
    StronglySorted R l -> StronglySorted R (firstn n l).
Proof.
  intros A R n. induction n as [|n IH]; intros l Hs; simpl.
  - constructor.
  - destruct l as [|x l]; [constructor|].
    inversion Hs as [|? ? Hs' Hx]; subst.
    constructor; [apply IH; exact Hs'|].
    rewrite Forall_forall in *. intros b Hb. apply Hx.
    clear - Hb. revert l Hb. induction n as [|n IHn]; intros l Hb; simpl in Hb.
    + contradiction.
    + destruct l as [|y l]; [contradiction|].
      destruct Hb as [<- | Hb]; [left; reflexivity | right; apply IHn; exact Hb].
Qed.

Lemma StronglySorted_filter :
  forall (A : Type) (R : A -> A -> Prop) (f : A -> bool) l,
    StronglySorted R l -> StronglySorted R (filter f l).
Proof.
  intros A R f l Hs. induction Hs as [|x l Hs IH Hx]; simpl.
  - constructor.
  - destruct (f x); [|exact IH].
    constructor; [exact IH|].
    rewrite Forall_forall in *. intros b Hb. apply Hx.
    apply filter_In in Hb. destruct Hb as [Hb _]. exact Hb.
Qed.

Lemma page_sorted :
  forall (A : Type) (R : A -> A -> Prop) skip limit l,
    StronglySorted R l -> StronglySorted R (sql.page skip limit l).
Proof.
  intros. unfold sql.page. apply StronglySorted_firstn, StronglySorted_skipn.
  assumption.
Qed.

Lemma page_in :
  forall (A : Type) skip limit (l : list A) x,
    In x (sql.page skip limit l) -> In x l.
Proof.
  intros A skip limit l x H. unfold sql.page in H.
  assert (H1 : In x (skipn skip l)).
  { revert H. generalize (skipn skip l). intros l0. revert l0.
    induction limit as [|n IH]; intros l0 H; simpl in H.
    - contradiction.
    - destruct l0 as [|y l0]; [contradiction|].
      destruct H as [<- | H]; [left; reflexivity | right; apply IH; exact H]. }
  clear H. revert l H1. induction skip as [|n IH]; intros l H; simpl in H.
  - exact H.
  - destruct l as [|y l]; [contradiction|]. right. apply IH. exact H.
Qed.

Lemma page_length :
  forall (A : Type) skip limit (l : list A),
    List.length (sql.page skip limit l) <= limit.
Proof.
  intros. unfold sql.page. rewrite length_firstn. lia.
Qed.

Lemma page_all :
  forall (A : Type) limit (l : list A),
    List.length l <= limit -> sql.page 0 limit l = l.
Proof.
  intros A limit l H. unfold sql.page. simpl. apply firstn_all2. exact H.
Qed.

(** ** Reading invoices *)

(** X9.  [get_invoice] hands out an invoice only to its owner.  It changes
    nothing; when it returns, the invoice is the stored one of that id and
    belongs to the caller; it answers 404 only when no invoice has the id,
    and 403 only when the invoice of that id belongs to someone else. *)
Theorem get_invoice_only_for_owner :
  forall k user w,
    snd (invoice_service.get_invoice k user w) = w
    /\ match fst (invoice_service.get_invoice k user w) with
       | Return i =>
           invoice_repository.get_invoice_by_id (invoice_service.db w) k = Some i
           /\ In i (invoice_repository.invoices (invoice_service.db w))
           /\ invoice_models.id i = k
           /\ invoice_models.user_id i = user
       | Raise e =>
           (e = HTTPException 404
                  ("Invoice with ID " ++ invoice_service.nat_str k ++ " not found")%string
            /\ forall i, In i (invoice_repository.invoices (invoice_service.db w)) ->
                         invoice_models.id i <> k)
           \/ (e = HTTPException 403 "Not authorized to access this invoice"
               /\ exists i,
                    In i (invoice_repository.invoices (invoice_service.db w))
                    /\ invoice_models.id i = k
                    /\ invoice_models.user_id i <> user)
       end.
Proof.
  intros k user w.
  unfold invoice_service.get_invoice, bind, gets.
  destruct (invoice_repository.get_invoice_by_id (invoice_service.db w) k)
    as [i|] eqn:Hget.
  - pose proof Hget as Hfind. unfold invoice_repository.get_invoice_by_id in Hfind.
    apply find_some in Hfind. destruct Hfind as [Hin Hid].
    apply Nat.eqb_eq in Hid.
    destruct (String.eqb (invoice_models.user_id i) user) eqn:Hu; simpl.
    + apply String.eqb_eq in Hu. repeat split; assumption.
    + apply String.eqb_neq in Hu. split; [reflexivity|]. right.
      split; [reflexivity|]. exists i. repeat split; assumption.
  - simpl. split; [reflexivity|]. left. split; [reflexivity|].
    intros i Hin Hid.
    unfold invoice_repository.get_invoice_by_id in Hget.
    apply (find_none _ _ Hget) in Hin. apply Nat.eqb_neq in Hin. contradiction.
Qed.

(** The rows [get_invoices_by_user] pages through: the user's invoices,
    newest first. *)
Lemma user_invoices_sorted :
  forall d user,
    StronglySorted
      (fun a b => invoice_models.created_at b <= invoice_models.created_at a)
      (sql.order_by invoice_models.created_at sql.desc
         (filter (fun r => String.eqb (invoice_models.user_id r) user)
                 (invoice_repository.invoices d))).
Proof. intros. apply order_by_desc_sorted. Qed.

(** X10.  [get_user_invoices] changes nothing and lists only stored invoices
    of the user, at most [limit] of them, newest first.  The first page
    holds every invoice of the user when [limit] is at least their number.
    (Which of several invoices created at the same instant comes first is
    not said.) *)
Theorem get_user_invoices_pages :
  forall w user skip limit,
  exists page1,
    invoice_queries.get_user_invoices user skip limit w = (Return page1, w)
    /\ Forall (fun i => invoice_models.user_id i = user
                        /\ In i (invoice_repository.invoices (invoice_service.db w)))
              page1
    /\ List.length page1 <= limit
    /\ StronglySorted
         (fun a b => invoice_models.created_at b <= invoice_models.created_at a) page1
    /\ (skip = 0 ->
        List.length (filter (fun r => String.eqb (invoice_models.user_id r) user)
                            (invoice_repository.invoices (invoice_service.db w)))
        <= limit ->
        Permutation page1
          (filter (fun r => String.eqb (invoice_models.user_id r) user)
                  (invoice_repository.invoices (invoice_service.db w)))).
Proof.
  intros w user skip limit.
  unfold invoice_queries.get_user_invoices, bind, gets, ret.
  unfold invoice_queries.get_invoices_by_user.
  eexists. split; [reflexivity|].
  split; [|split; [apply page_length|split]].
  - rewrite Forall_forall. intros i Hi. apply page_in in Hi.
    apply order_by_in in Hi. apply filter_In in Hi. destruct Hi as [Hin Hu].
    apply String.eqb_eq in Hu. split; assumption.
  - apply page_sorted. apply user_invoices_sorted.
  - intros -> Hlen. rewrite page_all.
    + apply order_by_perm.
    + rewrite (Permutation_length (order_by_perm _ _ _)). exact Hlen.
Qed.

(** X11.  [get_customer_invoices] changes nothing and lists only stored
    invoices that belong both to the caller and to the customer asked for,
    at most [limit] of them, newest first: another user's invoices for the
    same customer are never shown. *)
Theorem get_customer_invoices_only_own :
  forall w user customer skip limit,
  exists listed,
    invoice_queries.get_customer_invoices user customer skip limit w = (Return listed, w)
    /\ Forall (fun i => invoice_models.user_id i = user
                        /\ invoice_models.customer_id i = customer
                        /\ In i (invoice_repository.invoices (invoice_service.db w)))
              listed
    /\ List.length listed <= limit
    /\ StronglySorted
         (fun a b => invoice_models.created_at b <= invoice_models.created_at a) listed.
Proof.
  intros w user customer skip limit.
  unfold invoice_queries.get_customer_invoices, bind, gets, ret.
  unfold invoice_queries.get_invoices_by_customer.
  eexists. split; [reflexivity|]. split; [|split].
  - rewrite Forall_forall. intros i Hi. apply filter_In in Hi.
    destruct Hi as [Hi Hu]. apply String.eqb_eq in Hu.
    apply page_in in Hi. apply order_by_in in Hi. apply filter_In in Hi.
    destruct Hi as [Hin Hc]. apply String.eqb_eq in Hc. repeat split; assumption.
  - eapply Nat.le_trans; [apply filter_length_le | apply page_length].
  - apply StronglySorted_filter. apply page_sorted. apply order_by_desc_sorted.
Qed.

(** The page of a customer's invoices is cut before the caller's own are
    picked out of it, so a page can come back short, or empty, while the
    caller has invoices for that customer further down. *)
Example customer_page_is_cut_before_owner_filter :
  let w := {| invoice_service.db :=
                {| invoice_repository.invoices :=
                     [fixtures.invoice_of 1 "alice" "cust-1" 10;
                      fixtures.invoice_of 2 "bob" "cust-1" 20];
                   invoice_repository.invoice_items := [];
                   invoice_repository.invoice_payments := [];
                   invoice_repository.invoice_history := [] |};
              invoice_service.bus := Events.init;
              invoice_service.log := [] |} in
  fst (invoice_queries.get_customer_invoices "alice" "cust-1" 0 1 w) = Return []
  /\ fst (invoice_queries.get_customer_invoices "alice" "cust-1" 1 1 w)
     = Return [fixtures.invoice_of 1 "alice" "cust-1" 10].
Proof. split; reflexivity. Qed.

(** X12.  The payments and the history of an invoice are shown to its owner
    only.  Both operations change nothing and fail exactly as [get_invoice]
    does (404 for an unknown id, 403 for someone else's invoice); for the
    owner they list the rows of that invoice, all of them and no others,
    payments by payment date and history newest first. *)
Theorem invoice_payments_and_history_for_owner :
  forall k user w,
    snd (invoice_queries.get_invoice_payments k user w) = w
    /\ snd (invoice_queries.get_invoice_history k user w) = w
    /\ match fst (invoice_service.get_invoice k user w) with
       | Raise e =>
           fst (invoice_queries.get_invoice_payments k user w) = Raise e
           /\ fst (invoice_queries.get_invoice_history k user w) = Raise e
       | Return _ =>
           exists payments history,
             fst (invoice_queries.get_invoice_payments k user w) = Return payments
             /\ fst (invoice_queries.get_invoice_history k user w) = Return history
             /\ (forall p, In p payments <->
                           In p (invoice_repository.invoice_payments (invoice_service.db w))
                           /\ invoice_models.ip_invoice_id p = k)
             /\ (forall h, In h history <->
                           In h (invoice_repository.invoice_history (invoice_service.db w))
                           /\ invoice_models.h_invoice_id h = k)
             /\ StronglySorted
                  (fun a b => invoice_models.payment_date a <= invoice_models.payment_date b)
                  payments
             /\ StronglySorted
                  (fun a b => invoice_models.h_created_at b <= invoice_models.h_created_at a)
                  history
       end.
Proof.
  intros k user w.
  unfold invoice_queries.get_invoice_payments, invoice_queries.get_invoice_history.
  assert (Hs : snd (invoice_service.get_invoice k user w) = w).
  { unfold invoice_service.get_invoice, bind, gets.
    destruct (invoice_repository.get_invoice_by_id (invoice_service.db w) k) as [i|];
      [|reflexivity].
    destruct (String.eqb (invoice_models.user_id i) user); reflexivity. }
  destruct (invoice_service.get_invoice k user w) as [[i|e] w1] eqn:Hg;
    simpl in Hs; subst w1.
  - rewrite !(@bind_return _ _ _ _ _ _ _ _ Hg).
    unfold bind, gets, ret. cbn [fst snd].
    split; [reflexivity|]. split; [reflexivity|].
    eexists. eexists. split; [reflexivity|]. split; [reflexivity|].
    split; [|split; [|split]].
    + intros p. unfold invoice_queries.get_invoice_payments_by_date.
      rewrite order_by_in. unfold invoice_repository.get_invoice_payments.
      rewrite filter_In, Nat.eqb_eq. reflexivity.
    + intros h. unfold invoice_queries.get_invoice_history_rows.
      rewrite order_by_in, filter_In, Nat.eqb_eq. reflexivity.
    + apply order_by_asc_sorted.
    + apply order_by_desc_sorted.
  - rewrite !(@bind_raise _ _ _ _ _ _ _ _ Hg).
    cbn [fst snd]. repeat split.
Qed.

(** ** Reading payments *)

(** X13.  The payment service shows a user none but their own payments.
    [get_payment] changes nothing, returns the stored payment of that id
    only when it belongs to the caller, and otherwise raises 404 (no such
    payment) or 403 (someone else's); the route [GET /payments] returns only
    stored payments of the caller, with or without an invoice filter. *)
Theorem payments_only_for_owner :
  forall w user pid skip limit inv_id,
    snd (payment_queries.get_payment pid user w) = w
    /\ match fst (payment_queries.get_payment pid user w) with
       | Return p =>
           In p (payment_repository.payments (payment_service.db w))
           /\ payment_models.id p = pid
           /\ payment_models.user_id p = user
       | Raise e =>
           (e = HTTPException 404
                  ("Payment with ID " ++ payment_service.nat_str pid ++ " not found")%string
            /\ forall p, In p (payment_repository.payments (payment_service.db w)) ->
                         payment_models.id p <> pid)
           \/ (e = HTTPException 403 "Not authorized to access this payment"
               /\ exists p,
                    In p (payment_repository.payments (payment_service.db w))
                    /\ payment_models.id p = pid
                    /\ payment_models.user_id p <> user)
       end
    /\ exists listed,
         payment_queries.get_payments user skip limit inv_id w = (Return listed, w)
         /\ Forall (fun p => payment_models.user_id p = user
                             /\ In p (payment_repository.payments (payment_service.db w))
                             /\ match inv_id with
                                | Some (S n) => payment_models.invoice_id p = S n
                                | _ => True
                                end)
                   listed.
Proof.
  intros w user pid skip limit inv_id.
  split; [|split].
  - unfold payment_queries.get_payment, bind, gets.
    destruct (payment_queries.get_payment_by_id (payment_service.db w) pid) as [p|];
      [|reflexivity].
    destruct (String.eqb (payment_models.user_id p) user); reflexivity.
  - unfold payment_queries.get_payment, bind, gets.
    destruct (payment_queries.get_payment_by_id (payment_service.db w) pid)
      as [p|] eqn:Hget.
    + unfold payment_queries.get_payment_by_id in Hget.
      apply find_some in Hget. destruct Hget as [Hin Hid]. apply Nat.eqb_eq in Hid.
      destruct (String.eqb (payment_models.user_id p) user) eqn:Hu; simpl.
      * apply String.eqb_eq in Hu. repeat split; assumption.
      * apply String.eqb_neq in Hu. right. split; [reflexivity|].
        exists p. repeat split; assumption.
    + simpl. left. split; [reflexivity|]. intros p Hin Hid.
      unfold payment_queries.get_payment_by_id in Hget.
      apply (find_none _ _ Hget) in Hin. apply Nat.eqb_neq in Hin. contradiction.
  - assert (Huser : exists listed,
               payment_queries.get_user_payments user skip limit w = (Return listed, w)
               /\ Forall (fun p => payment_models.user_id p = user
                                   /\ In p (payment_repository.payments
                                              (payment_service.db w)))
                         listed).
    { unfold payment_queries.get_user_payments, bind, gets, ret.
      eexists. split; [reflexivity|].
      rewrite Forall_forall. intros p Hp.
      unfold payment_queries.get_payments_by_user in Hp.
      apply page_in in Hp. apply order_by_in in Hp. apply filter_In in Hp.
      destruct Hp as [Hin Hu]. apply String.eqb_eq in Hu. split; assumption. }
    destruct Huser as (listed & Hr & Hall).
    unfold payment_queries.get_payments.
    destruct inv_id as [[|n]|].
    + exists listed. split; [exact Hr|].
      eapply Forall_impl; [|exact Hall]. intros p [H1 H2]. repeat split; assumption.
    + unfold payment_queries.get_invoice_payments, bind, gets, ret.
      eexists. split; [reflexivity|].
      rewrite Forall_forall. intros p Hp. apply filter_In in Hp.
      destruct Hp as [Hp Hu]. apply String.eqb_eq in Hu.
      unfold payment_queries.get_payments_by_invoice_id in Hp.
      apply filter_In in Hp. destruct Hp as [Hin Hi]. apply Nat.eqb_eq in Hi.
      repeat split; assumption.
    + exists listed. split; [exact Hr|].
      eapply Forall_impl; [|exact Hall]. intros p [H1 H2]. repeat split; assumption.
Qed.

(** ** Creating invoices *)









(** ** What a request on one invoice may change *)

Section InvoiceFrames.

Import invoice_models invoice_repository invoice_frames.

Lemma touches_only_refl : forall k d, touches_only k d d.
Proof.
  intros k d. unfold touches_only. split.
  - exists []. rewrite app_nil_r. split; [reflexivity | constructor].
  - repeat split.
Qed.

Lemma touches_only_trans :
  forall k d1 d2 d3,
    touches_only k d1 d2 -> touches_only k d2 d3 -> touches_only k d1 d3.
Proof.
  intros k d1 d2 d3 ((a1 & H1 & F1) & I1 & G1 & T1 & P1)
         ((a2 & H2 & F2) & I2 & G2 & T2 & P2).
  unfold touches_only. split.
  - exists (a1 ++ a2). rewrite H2, H1, app_assoc. split; [reflexivity|].
    apply Forall_app. split; assumption.
  - split; [congruence|]. split; [|split; congruence].
    intros j Hj. rewrite G2, G1 by exact Hj. reflexivity.
Qed.

Lemma commit_touches_only :
  forall i d, touches_only (id i) d (commit i d).
Proof.
  intros i d. unfold touches_only, commit; simpl. split.
  - exists []. rewrite app_nil_r. split; [reflexivity | constructor].
  - split; [|split; [|split; reflexivity]].
    + rewrite map_map. apply map_ext_in. intros r _.
      destruct (Nat.eqb (id r) (id i)) eqn:E; [|reflexivity].
      apply Nat.eqb_eq in E. congruence.
    + intros j Hj. unfold get_invoice_by_id. simpl.
      induction (invoices d) as [|r rows IH]; simpl; [reflexivity|].
      destruct (Nat.eqb (id r) (id i)) eqn:E.
      * apply Nat.eqb_eq in E.
        assert (E1 : Nat.eqb (id i) j = false) by (apply Nat.eqb_neq; congruence).
        assert (E2 : Nat.eqb (id r) j = false) by (apply Nat.eqb_neq; congruence).
        rewrite E1, E2. exact IH.
      * destruct (Nat.eqb (id r) j); [reflexivity | exact IH].
Qed.

Lemma add_history_entry_touches_only :
  forall now k user act det d,
    touches_only k d (snd (add_history_entry now k user act det d)).
Proof.
  intros. unfold touches_only, add_history_entry; simpl. split.
  - eexists. split; [reflexivity|]. constructor; [reflexivity | constructor].
  - repeat split.
Qed.

Lemma update_invoice_status_touches_only :
  forall now i user st d,
    touches_only (id i) d (snd (update_invoice_status now i user st d)).
Proof.
  intros now i user st d. unfold update_invoice_status.
  destruct (negb (InvoiceStatus_eqb (status i) st)); cbn [snd].
  - match goal with
    | |- context [add_history_entry ?n (id ?i3) ?u ?a ?dt (commit ?i3' d)] =>
        assert (Hid : id i3 = id i)
          by (destruct (InvoiceStatus_eqb st PAID && is_none _); reflexivity)
    end.
    eapply touches_only_trans.
    + rewrite <- Hid. apply commit_touches_only.
    + rewrite Hid. apply add_history_entry_touches_only.
  - apply touches_only_refl.
Qed.

Lemma setattr_id : forall i e, id (setattr i e) = id i.
Proof. intros i e. destruct e; reflexivity. Qed.

Lemma assign_entries_id :
  forall data i dets, id (fst (assign_entries i data dets)) = id i.
Proof.
  induction data as [|e rest IH]; intros i dets; simpl.
  - reflexivity.
  - destruct (hasattr e && differs i e).
    + rewrite IH. apply setattr_id.
    + apply IH.
Qed.

Lemma update_invoice_touches_only :
  forall now i user data d,
    touches_only (id i) d (snd (update_invoice now i user data d)).
Proof.
  intros now i user data d. unfold update_invoice.
  pose proof (assign_entries_id data i []) as Hid.
  destruct (assign_entries i data []) as [assigned dets]. cbn [fst] in Hid.
  destruct dets as [|c cs]; cbn [snd].
  - apply touches_only_refl.
  - destruct (number_check d i (with_updated_at now assigned)); cbn [snd].
    + apply touches_only_refl.
    + eapply touches_only_trans.
      * rewrite <- Hid. apply (commit_touches_only (with_updated_at now assigned)).
      * cbn [id with_updated_at]. rewrite Hid.
        apply add_history_entry_touches_only.
Qed.

(** One request on invoice [k] changes the database within the frame. *)
Lemma execute_touches_only :
  forall k r w,
    touches_only k (invoice_service.db w)
                 (invoice_service.db (invoice_requests.execute k r w)).
Proof.
  intros k [settings env now cmd] w.
  unfold invoice_requests.execute; simpl.
  destruct (get_invoice_by_id (invoice_service.db w) k) as [invoice|] eqn:Hget.
  - pose proof (get_invoice_by_id_key _ _ Hget) as Hk.
    pose proof (@get_invoice_found w k) as Hfound.
    destruct cmd as [user data corr | user corr | user corr | event].
    + unfold invoice_service.update_invoice.
      specialize (Hfound user invoice Hget).
      destruct (String.eqb (user_id invoice) user).
      * erewrite bind_return by exact Hfound.
        destruct (negb (InvoiceStatus_eqb (status invoice) DRAFT)).
        -- apply touches_only_refl.
        -- erewrite invoice_in_db_run by apply surjective_pairing.
           cbn [snd invoice_service.db]. rewrite <- Hk.
           apply update_invoice_touches_only.
      * erewrite bind_raise by exact Hfound. apply touches_only_refl.
    + destruct (String.eqb (user_id invoice) user) eqn:Eu.
      * apply String.eqb_eq in Eu.
        destruct (InvoiceStatus_eqb (status invoice) DRAFT) eqn:Est.
        -- apply InvoiceStatus_eqb_eq in Est.
           destruct (@issue_invoice_draft settings env now w k user corr invoice
                       Hget Eu Est) as (w' & Hrun & Hdb).
           rewrite Hrun. cbn [snd]. rewrite Hdb, <- Hk.
           apply update_invoice_status_touches_only.
        -- apply InvoiceStatus_eqb_neq in Est.
           rewrite (@issue_invoice_rejected settings env now w k user corr invoice
                      Hget Est).
           apply touches_only_refl.
      * unfold invoice_service.issue_invoice.
        specialize (Hfound user invoice Hget). rewrite Eu in Hfound.
        erewrite bind_raise by exact Hfound. apply touches_only_refl.
    + destruct (String.eqb (user_id invoice) user) eqn:Eu.
      * apply String.eqb_eq in Eu.
        destruct (InvoiceStatus_eqb (status invoice) PAID) eqn:Est.
        -- apply InvoiceStatus_eqb_eq in Est.
           rewrite (@cancel_invoice_rejected env now w k user corr invoice Hget Est).
           apply touches_only_refl.
        -- apply InvoiceStatus_eqb_neq in Est.
           destruct (@cancel_invoice_accepted env now w k user corr invoice
                       Hget Eu Est) as (w' & Hrun & Hdb & _).
           rewrite Hrun. cbn [snd]. rewrite Hdb, <- Hk.
           apply update_invoice_status_touches_only.
      * unfold invoice_service.cancel_invoice.
        specialize (Hfound user invoice Hget). rewrite Eu in Hfound.
        erewrite bind_raise by exact Hfound. apply touches_only_refl.
    + apply touches_only_refl.
  - pose proof (@get_invoice_missing w k) as Hmiss.
    destruct cmd as [user data corr | user corr | user corr | event].
    + unfold invoice_service.update_invoice.
      erewrite bind_raise by (apply Hmiss; exact Hget). apply touches_only_refl.
    + unfold invoice_service.issue_invoice.
      erewrite bind_raise by (apply Hmiss; exact Hget). apply touches_only_refl.
    + unfold invoice_service.cancel_invoice.
      erewrite bind_raise by (apply Hmiss; exact Hget). apply touches_only_refl.
    + apply touches_only_refl.
Qed.

End InvoiceFrames.

(** X16.  Requests on one invoice leave every other invoice alone.  Take
    any sequence of update, issue and cancel requests and payment events
    directed at invoice [k], by any users and with the broker in any state,
    where the update data name columns other than the primary key [id],
    with values of the column's type, or keys that are no attribute of the
    invoice (the entries of [update_entry]; the route's data are of this
    kind, an entry under [id], [items] or [payments] is not).  After it the
    history kept before is still there and only entries for [k] were added
    after it; no invoice was added or removed; the invoice stored under any
    other id is unchanged; items and payments are untouched. *)
Theorem requests_touch_only_their_invoice :
  forall k requests w,
    (exists added,
        invoice_repository.invoice_history
          (invoice_service.db (invoice_requests.execute_all k requests w))
        = invoice_repository.invoice_history (invoice_service.db w) ++ added
        /\ Forall (fun h => invoice_models.h_invoice_id h = k) added)
    /\ map invoice_models.id
           (invoice_repository.invoices
              (invoice_service.db (invoice_requests.execute_all k requests w)))
       = map invoice_models.id (invoice_repository.invoices (invoice_service.db w))
    /\ (forall j,
          j <> k ->
          invoice_repository.get_invoice_by_id
            (invoice_service.db (invoice_requests.execute_all k requests w)) j
          = invoice_repository.get_invoice_by_id (invoice_service.db w) j)
    /\ invoice_repository.invoice_items
         (invoice_service.db (invoice_requests.execute_all k requests w))
       = invoice_repository.invoice_items (invoice_service.db w)
    /\ invoice_repository.invoice_payments
         (invoice_service.db (invoice_requests.execute_all k requests w))
       = invoice_repository.invoice_payments (invoice_service.db w).
Proof.
  intros k requests w.
  change (invoice_frames.touches_only k (invoice_service.db w)
            (invoice_service.db (invoice_requests.execute_all k requests w))).
  revert w. induction requests as [|r rest IH]; intros w.
  - apply touches_only_refl.
  - simpl. eapply touches_only_trans; [apply execute_touches_only | apply IH].
Qed.

(** ** Repeating an update *)

Section UpdateTwice.

Import invoice_models invoice_repository.

Lemma option_eqb_refl :
  forall (A : Type) (eqb : A -> A -> bool) (o : option A),
    (forall a, eqb a a = true) -> option_eqb eqb o o = true.
Proof. intros A eqb [a|] H; simpl; [apply H | reflexivity]. Qed.

(** An entry just assigned, whose value is stored as given, no longer
    differs from the row. *)
Lemma setattr_settles :
  forall i e,
    invoice_rows.stored_as_given e = true -> differs (setattr i e) e = false.
Proof.
  intros i e Hs.
  destruct e as [v|v|v|v|v|v|v|v|v|v|v|v|v|v|v|v|v|key v];
    cbn [differs setattr subtotal tax_amount discount_amount total_amount
         invoice_number user_id customer_id customer_name customer_email
         customer_address status notes issue_date due_date paid_date created_at
         updated_at];
    cbn [invoice_rows.stored_as_given] in Hs;
    rewrite ?String.eqb_refl, ?InvoiceStatus_eqb_refl, ?Hs;
    try reflexivity;
    try (rewrite option_eqb_refl by apply String.eqb_refl; reflexivity);
    try (destruct v as [t|]; [|discriminate Hs]; simpl;
         rewrite Nat.eqb_refl; reflexivity);
    try (destruct v as [[t|]|]; [|discriminate Hs|]; simpl;
         rewrite ?Nat.eqb_refl; reflexivity).
Qed.

(** Assigning one key does not disturb the comparison of another. *)
Lemma setattr_other_key :
  forall i e e',
    invoice_rows.key_of e <> invoice_rows.key_of e' ->
    differs (setattr i e') e = differs i e.
Proof.
  intros i e e' Hk.
  destruct e; destruct e'; try reflexivity; exfalso; apply Hk; reflexivity.
Qed.

Lemma with_updated_at_differs :
  forall now i e,
    invoice_rows.key_of e <> invoice_rows.Column "updated_at" ->
    differs (with_updated_at now i) e = differs i e.
Proof.
  intros now i e Hk. destruct e; try reflexivity. exfalso. apply Hk. reflexivity.
Qed.

Lemma assign_entries_keeps_settled :
  forall data i dets e,
    ~ In (invoice_rows.key_of e) (map invoice_rows.key_of data) ->
    differs i e = false ->
    differs (fst (assign_entries i data dets)) e = false.
Proof.
  induction data as [|e' rest IH]; intros i dets e Hnin Hs; simpl.
  - exact Hs.
  - simpl in Hnin.
    destruct (hasattr e' && differs i e').
    + apply IH; [tauto|]. rewrite setattr_other_key; [exact Hs|].
      intros Heq. apply Hnin. left. symmetry. exact Heq.
    + apply IH; [tauto | exact Hs].
Qed.

(** After the loop no entry of distinct key, stored as given, still asks
    for a change. *)
Lemma assign_entries_settles :
  forall data i dets,
    NoDup (map invoice_rows.key_of data) ->
    forallb invoice_rows.stored_as_given data = true ->
    forall e, In e data ->
              hasattr e && differs (fst (assign_entries i data dets)) e = false.
Proof.
  induction data as [|e' rest IH]; intros i dets Hnd Hst e Hin; simpl in *.
  - contradiction.
  - inversion Hnd as [|? ? Hnin Hnd']; subst.
    apply andb_prop in Hst. destruct Hst as [Hst' Hst].
    destruct Hin as [<- | Hin].
    + destruct (hasattr e') eqn:Hh; [|reflexivity]. cbn [andb].
      destruct (differs i e') eqn:Hd.
      * apply assign_entries_keeps_settled;
          [exact Hnin | apply setattr_settles; exact Hst'].
      * apply assign_entries_keeps_settled; [exact Hnin | exact Hd].
    + destruct (hasattr e' && differs i e'); apply IH; assumption.
Qed.

(** A row on which no entry asks for a change goes through the loop as it is. *)
Lemma assign_entries_nothing :
  forall data i dets,
    (forall e, In e data -> hasattr e && differs i e = false) ->
    assign_entries i data dets = (i, dets).
Proof.
  induction data as [|e rest IH]; intros i dets H; simpl.
  - reflexivity.
  - rewrite (H e) by (left; reflexivity).
    apply IH. intros e' Hin. apply H. right. exact Hin.
Qed.

End UpdateTwice.

(** X17.  Repeating an update changes nothing.  When [update_data] names
    each key once, does not name [updated_at], and gives only values that
    the columns store as given (amounts that are floats, naive datetimes),
    and [update_invoice] returned an invoice, applying the same data again
    to the invoice returned finds no value to change: the second call
    returns that invoice as it is and leaves the database as the first call
    left it, with no new commit, no new [updated_at] and no new history
    entry. *)
Theorem update_invoice_twice_is_once :
  forall now now2 i user user2 update_data d inv d',
    NoDup (map invoice_rows.key_of update_data) ->
    ~ In (invoice_rows.Column "updated_at")
         (map invoice_rows.key_of update_data) ->
    forallb invoice_rows.stored_as_given update_data = true ->
    invoice_repository.update_invoice now i user update_data d = (Return inv, d') ->
    invoice_repository.update_invoice now2 inv user2 update_data d'
    = (Return inv, d').
Proof.
  intros now now2 i user user2 data d inv d' Hnd Hup Hst Hrun.
  pose proof (@assign_entries_settles data i [] Hnd Hst) as Hset.
  unfold invoice_repository.update_invoice in Hrun.
  destruct (invoice_repository.assign_entries i data []) as [assigned dets] eqn:Ea.
  cbn [fst] in Hset.
  assert (Hkeys : forall e, In e data ->
                            invoice_rows.key_of e
                            <> invoice_rows.Column "updated_at").
  { intros e Hin Hk. apply Hup. rewrite <- Hk. apply in_map. exact Hin. }
  assert (Hnone : forall e, In e data ->
                            invoice_models.hasattr e
                            && invoice_models.differs inv e = false).
  { destruct dets as [|c cs].
    - inversion Hrun; subst. exact Hset.
    - destruct (invoice_repository.number_check d i
                  (invoice_models.with_updated_at now assigned));
        inversion Hrun; subst.
      intros e Hin. rewrite with_updated_at_differs by (apply Hkeys; exact Hin).
      apply Hset. exact Hin. }
  unfold invoice_repository.update_invoice.
  rewrite (@assign_entries_nothing data inv [] Hnone). reflexivity.
Qed.

Lemma update_invoice_twice_is_once_witness :
  exists inv d',
    invoice_repository.update_invoice 40
      (fixtures.invoice_of 1 "alice" "cust-1" 10) "alice"
      fixtures.rename_and_annotate (invoice_service.db fixtures.two_invoices)
    = (Return inv, d')
    /\ invoice_repository.update_invoice 50 inv "alice"
         fixtures.rename_and_annotate d'
       = (Return inv, d').
Proof.
  eexists. eexists. split; [vm_compute; reflexivity|].
  apply (@update_invoice_twice_is_once 40 50
           (fixtures.invoice_of 1 "alice" "cust-1" 10)
           "alice" "alice" fixtures.rename_and_annotate
           (invoice_service.db fixtures.two_invoices)).
  - simpl. constructor.
    + simpl. intros [H | []]. discriminate H.
    + constructor; [intros [] | constructor].
  - simpl. intros [H | [H | []]]; discriminate H.
  - reflexivity.
  - vm_compute. reflexivity.
Defined.

(** ** Creating payments *)

(** X18.  Take a payment by a valid method that the database accepts.  When
    the gateway reports success, [create_payment] returns the payment as
    COMPLETED with [payment_date] set to the time of the call, the
    gateway's transaction id as external reference (when it is a non-empty
    string), no status message, the amount as a float, and the transaction
    reference [TXN-<time>-<invoice id>] given at insertion.  One attempt is
    recorded for it, with [success = 1], the gateway's response and the
    correlation id, and [publish_payment_received] is called exactly once,
    with the payment's data, so that the [payment.received] message is on
    the exchange whenever the broker accepts it. *)
Theorem create_payment_gateway_success :
  forall mock http env now user inv_id inv_number amt method details corr w
         response w2,
    existsb (String.eqb method) payment_models.PaymentMethod_values = true ->
    payment_webhooks.insertable (payment_service.db w) now inv_id inv_number = true ->
    payment_service.process_payment mock http now (float_of amt) "USD" method details
      [("user_id"%string, VStr user);
       ("invoice_id"%string, VInt inv_id);
       ("invoice_number"%string, VStr inv_number);
       ("payment_id"%string,
        VInt (S (List.length (payment_repository.payments (payment_service.db w)))));
       ("correlation_id"%string, opt_str corr)]
      {| payment_service.db :=
           payment_repository.insert
             (payment_repository.new_payment now user inv_id inv_number (float_of amt)
                "USD" method details payment_models.PROCESSING (payment_service.db w))
             (payment_service.db w);
         payment_service.bus := payment_service.bus w;
         payment_service.log := payment_service.log w |}
    = (Return response, w2) ->
    truthy (dict_get response "success" VNone) = true ->
    exists p w' a,
      payment_service.create_payment mock http env now user inv_id inv_number amt
        method details corr w = (Return p, w')
      /\ payment_models.status p = payment_models.COMPLETED
      /\ payment_models.payment_date p = Some now
      /\ payment_models.external_reference p
         = truthy_str (payment_service.text_of (dict_get response "transaction_id" VNone))
      /\ payment_models.status_message p = None
      /\ payment_models.transaction_reference p
         = Some ("TXN-" ++ payment_service.nat_str now ++ "-"
                  ++ payment_service.nat_str inv_id)%string
      /\ payment_models.user_id p = user
      /\ payment_models.amount p = float_of amt
      /\ payment_models.id p
         = S (List.length (payment_repository.payments (payment_service.db w)))
      /\ List.length (payment_repository.payments (payment_service.db w'))
         = S (List.length (payment_repository.payments (payment_service.db w)))
      /\ In p (payment_repository.payments (payment_service.db w'))
      /\ payment_repository.payment_attempts (payment_service.db w')
         = payment_repository.payment_attempts (payment_service.db w) ++ [a]
      /\ payment_models.success a = 1
      /\ payment_models.payment_id a = payment_models.id p
      /\ payment_models.gateway_response a = response
      /\ payment_models.correlation_id a = corr
      /\ payment_service.bus w'
         = snd (payment_event_publisher.publish_payment_received env now
                  (payment_webhooks.received_data now p user) corr
                  (payment_service.bus w))
      /\ Events.exchange (payment_service.bus w')
         = (if publisher_calls.accepted env (payment_service.bus w)
                 (payment_webhooks.received_event
                    (payment_webhooks.received_data now p user))
            then Events.exchange (payment_service.bus w)
                   ++ [Events.sent_message None now "payment.received"
                         (payment_webhooks.received_event
                            (payment_webhooks.received_data now p user))
                         corr (payment_service.bus w)]
            else Events.exchange (payment_service.bus w)).
Proof.
  intros mock http env now user inv_id inv_number amt method details corr w
         response w2 Hmethod Hins Hgw Hok.
  destruct (@create_payment_run mock http env now user inv_id inv_number amt method
              details corr w response w2 Hmethod Hins Hgw)
    as (p & w' & a & Hrun & Hp & Hpay & Hatt & Ha & _ & Hbus).
  rewrite Hok in *.
  exists p, w', a. split; [exact Hrun|].
  assert (Hid : payment_models.id p
                = S (List.length (payment_repository.payments (payment_service.db w))))
    by (subst p; reflexivity).
  split; [subst p; reflexivity|].
  split; [subst p; reflexivity|].
  split; [subst p; simpl; destruct (truthy_str _); reflexivity|].
  split; [subst p; reflexivity|].
  split; [subst p; reflexivity|].
  split; [subst p; reflexivity|].
  split; [subst p; reflexivity|].
  split; [exact Hid|].
  split.
  { rewrite Hpay. unfold payment_repository.commit, payment_repository.insert. simpl.
    rewrite length_map, length_app. simpl. lia. }
  split.
  { rewrite Hpay. unfold payment_repository.commit, payment_repository.insert. simpl.
    rewrite map_app. apply in_or_app. right. simpl.
    rewrite Hid, Nat.eqb_refl. left. reflexivity. }
  split; [exact Hatt|].
  split; [subst a; reflexivity|].
  split; [subst a; reflexivity|].
  split; [subst a; reflexivity|].
  split; [subst a; reflexivity|].
  split; [exact Hbus|].
  rewrite Hbus. apply publish_payment_received_exchange.
Qed.

Lemma create_payment_gateway_success_witness :
  exists p w' a,
    payment_service.create_payment true (payment_service.HttpRaises "") samples.broker_up
      20 "alice" 1 "INV-1" 105 "credit_card"
      [("card_number"%string, VStr "4242424242424242")] (Some "corr-1"%string)
      samples.empty_payment_world = (Return p, w')
    /\ payment_models.status p = payment_models.COMPLETED
    /\ payment_models.payment_date p = Some 20
    /\ payment_models.external_reference p = Some "mock-txn-20"%string
    /\ payment_repository.payment_attempts (payment_service.db w') = [a]
    /\ payment_models.success a = 1.
Proof.
  destruct (@create_payment_gateway_success true (payment_service.HttpRaises "")
              samples.broker_up 20 "alice"%string 1 "INV-1"%string 105
              "credit_card"%string
              [("card_number"%string, VStr "4242424242424242")]
              (Some "corr-1"%string) samples.empty_payment_world
              [("success"%string, VBool true);
               ("transaction_id"%string, VStr "mock-txn-20");
               ("status"%string, VStr "completed");
               ("details"%string,
                VDict [("amount"%string, VNum (float_of 105));
                       ("currency"%string, VStr "USD");
                       ("payment_method"%string, VStr "credit_card")])]
              _ eq_refl eq_refl eq_refl eq_refl)
    as (p & w' & a & Hrun & Hst & Hdate & Hext & _ & _ & _ & _ & _ & _ & _
        & Hatt & Hsucc & _).
  exists p, w', a. split; [exact Hrun|]. split; [exact Hst|].
  split; [exact Hdate|]. split; [exact Hext|]. split; [exact Hatt | exact Hsucc].
Defined.

(** The real gateway always answers: a transport failure and an HTTP error
    status both come back as a response without success. *)
Lemma real_gateway_answers :
  forall http now amt cur method details metadata w,
  exists response w2,
    payment_service.process_payment false http now amt cur method details metadata w
    = (Return response, w2)
    /\ truthy (dict_get response "success" VNone)
       = match http with
         | payment_service.HttpRaises _ => false
         | payment_service.HttpResponse code _ _ _ _ => negb (Nat.leb 400 code)
         end.
Proof.
  intros http now amt cur method details metadata w.
  unfold payment_service.process_payment, payment_service.real_process_payment.
  destruct http as [message | code ec em di ds].
  - eexists. eexists. split; reflexivity.
  - destruct (Nat.leb 400 code); eexists; eexists; split; reflexivity.
Qed.

(** X19.  With the real gateway [create_payment] has three outcomes.  A
    payment method outside the six known ones is refused with 400 before
    anything is stored or sent.  A payment that the database does not
    accept (its invoice number is longer than the 20 characters of the
    column, or a payment for the same invoice was created in the same
    second, so that the transaction reference is taken) fails with the
    database's error before the gateway is called: nothing is stored,
    recorded or published.  Otherwise the call returns a payment, having
    stored exactly one payment row and one attempt for it, whatever the
    HTTP exchange with the gateway did: the payment is COMPLETED when the
    gateway answered with a status below 400, and FAILED when it answered
    with an error status or the exchange itself failed (timeout, refused
    connection, undecodable body). *)
Theorem create_payment_real_gateway_outcomes :
  forall http env now user inv_id inv_number amt method details corr w,
    if existsb (String.eqb method) payment_models.PaymentMethod_values
    then
      if payment_webhooks.insertable (payment_service.db w) now inv_id inv_number
      then
        exists p w' a,
          payment_service.create_payment false http env now user inv_id inv_number
            amt method details corr w = (Return p, w')
          /\ payment_models.status p
             = match http with
               | payment_service.HttpRaises _ => payment_models.FAILED
               | payment_service.HttpResponse code _ _ _ _ =>
                   if Nat.leb 400 code then payment_models.FAILED
                   else payment_models.COMPLETED
               end
          /\ List.length (payment_repository.payments (payment_service.db w'))
             = S (List.length (payment_repository.payments (payment_service.db w)))
          /\ In p (payment_repository.payments (payment_service.db w'))
          /\ payment_repository.payment_attempts (payment_service.db w')
             = payment_repository.payment_attempts (payment_service.db w) ++ [a]
          /\ payment_models.payment_id a = payment_models.id p
          /\ (payment_models.success a = 1
              <-> payment_models.status p = payment_models.COMPLETED)
      else
        exists what,
          (payment_service.create_payment false http env now user inv_id inv_number
             amt method details corr w = (Raise (DataError what), w)
           /\ 20 < String.length inv_number)
          \/ (payment_service.create_payment false http env now user inv_id
                inv_number amt method details corr w
              = (Raise (IntegrityError what), w)
              /\ payment_repository.reference_taken (payment_service.db w)
                   (payment_repository.new_reference now inv_id) = true)
    else
      payment_service.create_payment false http env now user inv_id inv_number amt
        method details corr w
      = (Raise (HTTPException 400 ("Invalid payment method: " ++ method)%string), w).
Proof.
  intros http env now user inv_id inv_number amt method details corr w.
  destruct (existsb (String.eqb method) payment_models.PaymentMethod_values) eqn:Hm.
  - destruct (payment_webhooks.insertable (payment_service.db w) now inv_id inv_number)
      eqn:Hins.
    + destruct (real_gateway_answers http now (float_of amt) "USD" method details
                  [("user_id"%string, VStr user);
                   ("invoice_id"%string, VInt inv_id);
                   ("invoice_number"%string, VStr inv_number);
                   ("payment_id"%string,
                    VInt (S (List.length
                               (payment_repository.payments (payment_service.db w)))));
                   ("correlation_id"%string, opt_str corr)]
                  {| payment_service.db :=
                       payment_repository.insert
                         (payment_repository.new_payment now user inv_id inv_number
                            (float_of amt) "USD" method details
                            payment_models.PROCESSING (payment_service.db w))
                         (payment_service.db w);
                     payment_service.bus := payment_service.bus w;
                     payment_service.log := payment_service.log w |})
        as (response & w2 & Hgw & Hok).
      destruct (@create_payment_run false http env now user inv_id inv_number amt method
                  details corr w response w2 Hm Hins Hgw)
        as (p & w' & a & Hrun & Hp & Hpay & Hatt & Ha & _).
      exists p, w', a. split; [exact Hrun|].
      assert (Hid : payment_models.id p
                    = S (List.length (payment_repository.payments (payment_service.db w))))
        by (subst p; destruct (truthy _); reflexivity).
      assert (Hst : payment_models.status p
                    = if truthy (dict_get response "success" VNone)
                      then payment_models.COMPLETED else payment_models.FAILED)
        by (subst p; destruct (truthy _); reflexivity).
      split.
      { rewrite Hst, Hok. destruct http as [message | code ec em di ds];
          [reflexivity | destruct (Nat.leb 400 code); reflexivity]. }
      split.
      { rewrite Hpay. unfold payment_repository.commit, payment_repository.insert. simpl.
        rewrite length_map, length_app. simpl. lia. }
      split.
      { rewrite Hpay. unfold payment_repository.commit, payment_repository.insert. simpl.
        rewrite map_app. apply in_or_app. right. simpl.
        rewrite Hid, Nat.eqb_refl. left. reflexivity. }
      split; [exact Hatt|].
      split; [subst a; reflexivity|].
      rewrite Hst. subst a. simpl.
      destruct (truthy (dict_get response "success" VNone)); split; intros H;
        try reflexivity; discriminate H.
    + apply create_payment_not_inserted; assumption.
  - unfold payment_service.create_payment. rewrite Hm. reflexivity.
Qed.

(** ** Webhook deliveries *)

Lemma payment_commit_ids :
  forall p d,
    map payment_models.id (payment_repository.payments (payment_repository.commit p d))
    = map payment_models.id (payment_repository.payments d).
Proof.
  intros p d. unfold payment_repository.commit. simpl.
  rewrite map_map. apply map_ext. intros r.
  destruct (Nat.eqb (payment_models.id r) (payment_models.id p)) eqn:E; [|reflexivity].
  apply Nat.eqb_eq in E. symmetry. exact E.
Qed.

(** X20.  [handle_webhook_event] answers every delivery and never raises.
    It reports [Missing transaction_id] exactly when the event carries no
    truthy transaction id, and [Payment not found] when that id is not the
    transaction reference of a stored payment; in both cases, and for an
    event type other than the three it knows, neither the database nor the
    publisher is touched.  In no case does it add or remove a payment or
    record an attempt, and it publishes at most one message. *)
Theorem handle_webhook_event_always_answers :
  forall env now event_data w,
  exists response w' msgs,
    payment_service.handle_webhook_event env now event_data w = (Return response, w')
    /\ (truthy (dict_get event_data "transaction_id" VNone) = false ->
        response = [("status"%string, VStr "error");
                    ("message"%string, VStr "Missing transaction_id")])
    /\ (truthy (dict_get event_data "transaction_id" VNone) = true ->
        match dict_get event_data "transaction_id" VNone with
        | VStr t =>
            match payment_repository.get_payment_by_transaction_reference
                    (payment_service.db w) t with
            | Some _ => response = [("status"%string, VStr "success")]
            | None => response = [("status"%string, VStr "error");
                                  ("message"%string, VStr "Payment not found")]
            end
        | _ => response = [("status"%string, VStr "error");
                           ("message"%string, VStr "Payment not found")]
        end)
    /\ (response <> [("status"%string, VStr "success")] ->
        payment_service.db w' = payment_service.db w
        /\ payment_service.bus w' = payment_service.bus w)
    /\ (payment_webhooks.webhook_outcome event_data = None ->
        payment_service.db w' = payment_service.db w
        /\ payment_service.bus w' = payment_service.bus w)
    /\ map payment_models.id (payment_repository.payments (payment_service.db w'))
       = map payment_models.id (payment_repository.payments (payment_service.db w))
    /\ payment_repository.payment_attempts (payment_service.db w')
       = payment_repository.payment_attempts (payment_service.db w)
    /\ Events.exchange (payment_service.bus w')
       = Events.exchange (payment_service.bus w) ++ msgs
    /\ List.length msgs <= 1.
Proof.
  intros env now event_data w.
  unfold payment_service.handle_webhook_event, payment_webhooks.webhook_outcome.
  destruct (truthy (dict_get event_data "transaction_id" VNone)) eqn:Ht; cbn [negb].
  2:{ eexists. eexists. exists []. split; [reflexivity|].
      simpl. rewrite app_nil_r.
      repeat split; try reflexivity; try discriminate; lia. }
  unfold bind at 1. unfold gets at 1.
  destruct (dict_get event_data "transaction_id" VNone) as [|b|n|q|t|tm|l|d'|r].
  1-4, 6-9:
    (eexists; eexists; exists []; split; [reflexivity|];
     simpl; rewrite app_nil_r;
     repeat split; try reflexivity; try discriminate; lia).
  destruct (payment_repository.get_payment_by_transaction_reference
              (payment_service.db w) t) as [payment|] eqn:Hget.
  2:{ eexists. eexists. exists []. split; [reflexivity|].
      simpl. rewrite app_nil_r.
      repeat split; try reflexivity; try discriminate. lia. }
  destruct (is_str (dict_get event_data "event_type" VNone) "payment.succeeded").
  - rewrite bind_assoc.
    erewrite bind_return by apply payment_on_db_run.
    rewrite bind_assoc.
    match goal with
    | |- context [payment_service.on_bus
                    (payment_event_publisher.publish_payment_received _ _ ?data ?c)] =>
        match goal with
        | |- context [bind _ _ ?w1] =>
            destruct (publish_payment_received_returns env now data c w1)
              as (b & p' & m & Hp & Hex & _)
        end
    end.
    erewrite bind_return by exact Hp.
    eexists. eexists. exists (if b then [m] else []).
    split; [reflexivity|].
    cbn [payment_service.db payment_service.bus fst snd].
    split; [discriminate|]. split; [reflexivity|].
    split; [intros H; exfalso; apply H; reflexivity|].
    split; [discriminate|].
    split; [apply payment_commit_ids|].
    split; [reflexivity|].
    split.
    + rewrite Hex. cbn [payment_service.bus].
      destruct b; [reflexivity | rewrite app_nil_r; reflexivity].
    + destruct b; simpl; lia.
  - destruct (is_str (dict_get event_data "event_type" VNone) "payment.failed").
    + rewrite bind_assoc.
      erewrite bind_return by apply payment_on_db_run.
      rewrite bind_assoc.
      match goal with
      | |- context [payment_service.on_bus
                      (payment_event_publisher.publish_payment_failed _ _ ?data ?c)] =>
          match goal with
          | |- context [bind _ _ ?w1] =>
              destruct (publish_payment_failed_returns env now data c w1)
                as (b & p' & m & Hp & Hex & _)
          end
      end.
      erewrite bind_return by exact Hp.
      eexists. eexists. exists (if b then [m] else []).
      split; [reflexivity|].
      cbn [payment_service.db payment_service.bus fst snd].
      split; [discriminate|]. split; [reflexivity|].
      split; [intros H; exfalso; apply H; reflexivity|].
      split; [discriminate|].
      split; [apply payment_commit_ids|].
      split; [reflexivity|].
      split.
      * rewrite Hex. cbn [payment_service.bus].
        destruct b; [reflexivity | rewrite app_nil_r; reflexivity].
      * destruct b; simpl; lia.
    + destruct (is_str (dict_get event_data "event_type" VNone) "payment.refunded").
      * rewrite bind_assoc.
        erewrite bind_return by apply payment_on_db_run.
        eexists. eexists. exists []. split; [reflexivity|].
        cbn [payment_service.db payment_service.bus fst snd].
        split; [discriminate|]. split; [reflexivity|].
        split; [intros H; exfalso; apply H; reflexivity|].
        split; [discriminate|].
        split; [apply payment_commit_ids|].
        split; [reflexivity|].
        split; [rewrite app_nil_r; reflexivity | simpl; lia].
      * eexists. eexists. exists []. split; [reflexivity|].
        simpl. rewrite app_nil_r.
        repeat split; try reflexivity; try discriminate. lia.
Qed.

(** ** Discounts *)

Section DiscountBounds.

Import discount_models discount_repository discount_service discount_facts.

Variable now : nat.

Lemma percent_of_bounds :
  forall amt p,
    (0 <= amt)%Q -> percentage p ->
    (0 <= percent_of amt p)%Q /\ (percent_of amt p <= amt)%Q.
Proof.
  intros amt p Ha [Hp0 Hp1]. unfold percent_of.
  assert (H0 : (0 <= p / 100)%Q) by (apply Qle_shift_div_l; [reflexivity | lra]).
  assert (H1 : (p / 100 <= 1)%Q) by (apply Qle_shift_div_r; [reflexivity | lra]).
  split; nra.
Qed.

Lemma coupon_discount_bounds :
  forall amt c,
    (0 <= amt)%Q ->
    percentage (discount_percent c) ->
    match max_discount_amount c with Some m => (0 <= m)%Q | None => True end ->
    (0 <= coupon_discount amt c)%Q /\ (coupon_discount amt c <= amt)%Q.
Proof.
  intros amt c Ha Hp Hm. unfold coupon_discount.
  destruct (percent_of_bounds Ha Hp) as [H0 H1].
  destruct (max_discount_amount c) as [m|]; [|split; assumption].
  destruct (negb (Qeq_bool m 0) && Qlt_bool m (percent_of amt (discount_percent c)))
    eqn:E; [|split; assumption].
  apply andb_prop in E. destruct E as [_ E]. unfold Qlt_bool in E.
  apply negb_true_iff in E.
  assert (Hlt : (m < percent_of amt (discount_percent c))%Q).
  { apply Qnot_le_lt. intros Hle. apply Qle_bool_iff in Hle. congruence. }
  split; [exact Hm | lra].
Qed.

(** [greatest_percent] returns the running best or a row of the list, and
    no row of the list, nor the running best, has a greater percentage. *)
Lemma greatest_percent_spec :
  forall rows best,
    match greatest_percent rows best with
    | Some r =>
        (In r rows \/ best = Some r)
        /\ (forall r', In r' rows ->
                       (ab_discount_percent r' <= ab_discount_percent r)%Q)
        /\ (forall b, best = Some b ->
                      (ab_discount_percent b <= ab_discount_percent r)%Q)
    | None => rows = [] /\ best = None
    end.
Proof.
  induction rows as [|x rest IH]; intros best; simpl.
  - destruct best as [b|]; [|split; reflexivity].
    split; [right; reflexivity|]. split; [intros r' []|].
    intros b0 Hb. inversion Hb. apply Qle_refl.
  - destruct best as [b|].
    + destruct (Qlt_bool (ab_discount_percent b) (ab_discount_percent x)) eqn:E.
      * specialize (IH (Some x)).
        destruct (greatest_percent rest (Some x)) as [r|]; [|destruct IH; discriminate].
        destruct IH as (Hin & Hmax & Hbest).
        assert (Hx : (ab_discount_percent x <= ab_discount_percent r)%Q)
          by (apply Hbest; reflexivity).
        unfold Qlt_bool in E. apply negb_true_iff in E.
        assert (Hlt : (ab_discount_percent b < ab_discount_percent x)%Q).
        { apply Qnot_le_lt. intros Hle. apply Qle_bool_iff in Hle. congruence. }
        split; [left; destruct Hin as [Hin | Hin];
                [right; exact Hin | left; inversion Hin; reflexivity]|].
        split.
        -- intros r' [<- | Hr']; [exact Hx | apply Hmax; exact Hr'].
        -- intros b0 Hb. inversion Hb; subst b0. lra.
      * specialize (IH (Some b)).
        destruct (greatest_percent rest (Some b)) as [r|]; [|destruct IH; discriminate].
        destruct IH as (Hin & Hmax & Hbest).
        assert (Hb : (ab_discount_percent b <= ab_discount_percent r)%Q)
          by (apply Hbest; reflexivity).
        unfold Qlt_bool in E. apply negb_false_iff in E. apply Qle_bool_iff in E.
        split; [destruct Hin as [Hin | Hin]; [left; right; exact Hin | right; exact Hin]|].
        split.
        -- intros r' [<- | Hr']; [lra | apply Hmax; exact Hr'].
        -- intros b0 Hb0. inversion Hb0; subst b0. exact Hb.
    + specialize (IH (Some x)).
      destruct (greatest_percent rest (Some x)) as [r|]; [|destruct IH; discriminate].
      destruct IH as (Hin & Hmax & Hbest).
      assert (Hx : (ab_discount_percent x <= ab_discount_percent r)%Q)
        by (apply Hbest; reflexivity).
      split; [left; destruct Hin as [Hin | Hin];
              [right; exact Hin | left; inversion Hin; reflexivity]|].
      split.
      * intros r' [<- | Hr']; [exact Hx | apply Hmax; exact Hr'].
      * discriminate.
Qed.

Lemma tiers_bounds :
  forall d amt coupon_code user,
    sane d -> (0 <= amt)%Q ->
    (0 <= l_discount_amount (tiers now d amt coupon_code user))%Q
    /\ (l_discount_amount (tiers now d amt coupon_code user) <= amt)%Q.
Proof.
  intros d amt coupon_code user (Hc & Hu & Ha) Hamt.
  destruct (one_tier_at_most now d amt coupon_code user)
    as [Hz | [(c & coupon & _ & Hget & Heq & _)
       | [(ud & Hget & Heq & _) | (ad & Hget & Heq & _)]]].
  - apply Qeq_bool_iff in Hz. rewrite Hz. split; [apply Qle_refl | exact Hamt].
  - rewrite Heq. unfold get_coupon_by_code in Hget. apply find_some in Hget.
    destruct Hget as [Hin _]. rewrite Forall_forall in Hc.
    destruct (Hc coupon Hin) as [Hp Hm]. apply coupon_discount_bounds; assumption.
  - rewrite Heq. unfold get_user_type_discount in Hget. apply find_some in Hget.
    destruct Hget as [Hin _]. rewrite Forall_forall in Hu.
    apply percent_of_bounds; [exact Hamt | apply Hu; exact Hin].
  - rewrite Heq. unfold get_amount_based_discount in Hget.
    pose proof (greatest_percent_spec
                  (filter (fun r => Qle_bool (min_amount r) amt
                                    && match max_amount r with
                                       | None => true
                                       | Some m => Qle_bool amt m
                                       end) (amount_based_discounts d)) None) as Hs.
    rewrite Hget in Hs. destruct Hs as ([Hin | Hin] & _); [|discriminate].
    apply filter_In in Hin. destruct Hin as [Hin _].
    rewrite Forall_forall in Ha.
    apply percent_of_bounds; [exact Hamt | apply Ha; exact Hin].
Qed.

End DiscountBounds.

(** X21.  A discount never exceeds the amount it is taken from.  When the
    configured percentages lie between 0 and 100 and no coupon cap is
    negative, [apply_discount] on a non-negative amount answers with a
    discount between zero and the amount, a final amount that is not
    negative, and the two add up to the original amount. *)
Theorem discount_within_amount :
  forall env now amt coupon_code user corr w,
    discount_facts.sane (discount_service.db w) ->
    (0 <= amt)%Q ->
    exists resp w',
      discount_service.apply_discount env now amt coupon_code user corr w
      = (Return resp, w')
      /\ (0 <= discount_schemas.discount_amount resp)%Q
      /\ (discount_schemas.discount_amount resp <= amt)%Q
      /\ (0 <= discount_schemas.final_amount resp)%Q
      /\ (discount_schemas.final_amount resp + discount_schemas.discount_amount resp
          == amt)%Q.
Proof.
  intros env now amt coupon_code user corr w Hsane Hamt.
  destruct (apply_discount_run env now amt coupon_code user corr w) as (w' & Hrun & _).
  destruct (tiers_bounds now coupon_code user Hsane Hamt) as [H0 H1].
  eexists. exists w'. split; [exact Hrun|].
  cbn [discount_schemas.discount_amount discount_schemas.final_amount].
  repeat split; try assumption; lra.
Qed.

Lemma discount_within_amount_witness :
  exists resp w',
    discount_service.apply_discount samples.broker_up 20 200 (Some "SAVE10"%string)
      (Some "alice"%string) (Some "corr-1"%string) samples.discount_world = (Return resp, w')
    /\ (0 <= discount_schemas.discount_amount resp)%Q
    /\ (discount_schemas.discount_amount resp <= 200)%Q.
Proof.
  destruct (@discount_within_amount samples.broker_up 20 200 (Some "SAVE10"%string)
              (Some "alice"%string) (Some "corr-1"%string) samples.discount_world)
    as (resp & w' & Hrun & H0 & H1 & _).
  - unfold discount_facts.sane, discount_facts.percentage. simpl.
    repeat split; repeat constructor; try discriminate.
  - discriminate.
  - exists resp, w'. repeat split; assumption.
Defined.

(** X22.  The amount tier is the best one that fits.  [get_amount_based_discount]
    returns a stored row whose range holds the amount and whose percentage
    no other fitting row exceeds; it returns nothing exactly when no stored
    row fits. *)
Theorem amount_discount_is_greatest_in_range :
  forall d amt,
    match discount_repository.get_amount_based_discount d amt with
    | Some r =>
        In r (discount_repository.amount_based_discounts d)
        /\ discount_facts.in_range amt r = true
        /\ forall r',
             In r' (discount_repository.amount_based_discounts d) ->
             discount_facts.in_range amt r' = true ->
             (discount_models.ab_discount_percent r'
              <= discount_models.ab_discount_percent r)%Q
    | None =>
        forall r',
          In r' (discount_repository.amount_based_discounts d) ->
          discount_facts.in_range amt r' = false
    end.
Proof.
  intros d amt. unfold discount_repository.get_amount_based_discount.
  pose proof (greatest_percent_spec
                (filter (discount_facts.in_range amt)
                        (discount_repository.amount_based_discounts d)) None) as Hs.
  change (fun r => Qle_bool (discount_models.min_amount r) amt
                   && match discount_models.max_amount r with
                      | None => true
                      | Some m => Qle_bool amt m
                      end)
    with (discount_facts.in_range amt).
  destruct (discount_repository.greatest_percent _ None) as [r|].
  - destruct Hs as ([Hin | Hin] & Hmax & _); [|discriminate].
    apply filter_In in Hin. destruct Hin as [Hin Hr].
    split; [exact Hin|]. split; [exact Hr|].
    intros r' Hin' Hr'. apply Hmax. apply filter_In. split; assumption.
  - destruct Hs as [Hnil _]. intros r' Hin'.
    destruct (discount_facts.in_range amt r') eqn:E; [|reflexivity].
    assert (H : In r' (filter (discount_facts.in_range amt)
                              (discount_repository.amount_based_discounts d)))
      by (apply filter_In; split; assumption).
    rewrite Hnil in H. contradiction.
Qed.

(** X23.  A coupon that is switched off or has expired counts for nothing.
    When every stored coupon of the given code is inactive or no longer
    valid at the time of the call, [apply_discount] answers exactly as it
    does when no coupon code is given, echoes no coupon code, and records
    the same application (or none). *)
Theorem unusable_coupon_is_ignored :
  forall env now amt code user corr w,
    (forall c,
        In c (discount_repository.discount_coupons (discount_service.db w)) ->
        discount_models.code c = code ->
        discount_facts.usable now c = false) ->
    fst (discount_service.apply_discount env now amt (Some code) user corr w)
    = fst (discount_service.apply_discount env now amt None user corr w)
    /\ discount_repository.discount_applications
         (discount_service.db
            (snd (discount_service.apply_discount env now amt (Some code) user corr w)))
       = discount_repository.discount_applications
           (discount_service.db
              (snd (discount_service.apply_discount env now amt None user corr w)))
    /\ exists resp,
         fst (discount_service.apply_discount env now amt (Some code) user corr w)
         = Return resp
         /\ discount_schemas.coupon_code resp = None.
Proof.
  intros env now amt code user corr w Hun.
  assert (Hget : discount_repository.get_coupon_by_code now (discount_service.db w) code
                 = None).
  { unfold discount_repository.get_coupon_by_code.
    destruct (find _ _) as [c|] eqn:Hf; [|reflexivity].
    apply find_some in Hf. destruct Hf as [Hin Hc].
    apply andb_prop in Hc. destruct Hc as [Hc Hv].
    apply andb_prop in Hc. destruct Hc as [Hcode Hact].
    apply String.eqb_eq in Hcode.
    specialize (Hun c Hin Hcode). unfold discount_facts.usable in Hun.
    rewrite Hact, Hv in Hun. discriminate. }
  assert (Htiers : discount_service.tiers now (discount_service.db w) amt (Some code) user
                   = discount_service.tiers now (discount_service.db w) amt None user).
  { unfold discount_service.tiers, discount_service.coupon_tier.
    simpl. destruct (String.eqb code ""); [reflexivity|]. rewrite Hget. reflexivity. }
  assert (Htype : discount_service.l_discount_type
                    (discount_service.tiers now (discount_service.db w) amt None user)
                  <> "coupon"%string).
  { destruct (one_tier_at_most now (discount_service.db w) amt None user)
      as [Hz | [(c & coupon & Hc & _) | [(ud & _ & _ & Ht) | (ad & _ & _ & Ht)]]].
    - unfold discount_service.tiers, discount_service.coupon_tier. simpl.
      unfold discount_service.user_type_tier, discount_service.amount_tier.
      simpl.
      destruct (match truthy_str user with Some _ => true | None => false end);
        simpl;
        repeat match goal with
               | |- context [match ?x with _ => _ end] => destruct x; simpl
               end; discriminate.
    - simpl in Hc. discriminate.
    - rewrite Ht. discriminate.
    - rewrite Ht. discriminate. }
  destruct (apply_discount_run env now amt (Some code) user corr w)
    as (w1 & Hr1 & Hz1 & Hp1).
  destruct (apply_discount_run env now amt None user corr w)
    as (w2 & Hr2 & Hz2 & Hp2).
  rewrite Hr1, Hr2. cbn [fst snd]. rewrite Htiers in *.
  apply String.eqb_neq in Htype. rewrite Htype.
  split; [reflexivity|]. split.
  - destruct (Qlt_bool 0 (discount_service.l_discount_amount
                            (discount_service.tiers now (discount_service.db w) amt
                               None user))) eqn:E.
    + destruct (Hp1 eq_refl) as (m1 & H1 & _). destruct (Hp2 eq_refl) as (m2 & H2 & _).
      rewrite H1, H2. reflexivity.
    + rewrite (Hz1 eq_refl), (Hz2 eq_refl). reflexivity.
  - eexists. split; reflexivity.
Qed.

Lemma unusable_coupon_is_ignored_witness :
  fst (discount_service.apply_discount samples.broker_up 20 100 (Some "OLD"%string)
         (Some "alice"%string) (Some "corr-1"%string) fixtures.stale_coupons_world)
  = fst (discount_service.apply_discount samples.broker_up 20 100 None
           (Some "alice"%string) (Some "corr-1"%string) fixtures.stale_coupons_world).
Proof.
  apply (@unusable_coupon_is_ignored samples.broker_up 20 100 "OLD"%string
           (Some "alice"%string) (Some "corr-1"%string) fixtures.stale_coupons_world).
  simpl. intros c [<- | [<- | []]] _; reflexivity.
Defined.

(** ** Taxes *)

Lemma sum_of_rule_taxes_add :
  forall a b rules,
    (tax_service.sum_of_rule_taxes (a + b) rules
     == tax_service.sum_of_rule_taxes a rules + tax_service.sum_of_rule_taxes b rules)%Q.
Proof.
  intros a b rules. induction rules as [|rule rest IH]; simpl.
  - ring.
  - rewrite IH. ring.
Qed.

Lemma sum_of_rule_taxes_nonneg :
  forall amt rules,
    (0 <= amt)%Q ->
    Forall (fun r => (0 <= tax_models.rate r)%Q) rules ->
    (0 <= tax_service.sum_of_rule_taxes amt rules)%Q.
Proof.
  intros amt rules Ha Hr. induction Hr as [|rule rest Hrule Hrest IH]; simpl.
  - apply Qle_refl.
  - assert (H : (0 <= amt * tax_models.rate rule)%Q) by (apply Qmult_le_0_compat; assumption).
    lra.
Qed.

(** X24.  [calculate_tax] keeps a record of what it charged and never
    changes the tax rules.  When every rule that applies has a description
    and there is at least one, it appends exactly one calculation: for the
    caller, with the amount, the tax and the total of the response stored
    as floats, the product type, the correlation id, the time of the call,
    and the id of the first rule applied.  When no rule applies it records
    nothing, and when a rule that applies has no description the call
    fails and leaves everything as it was. *)
Theorem calculate_tax_records_one_calculation :
  forall env now amt pt user corr w,
    tax_repository.tax_rules
      (tax_service.db (snd (tax_service.calculate_tax env now amt pt user corr w)))
    = tax_repository.tax_rules (tax_service.db w)
    /\ (forallb tax_facts.described
                (tax_facts.rules_for (tax_repository.tax_rules (tax_service.db w)) pt)
        = true ->
        exists resp w',
          tax_service.calculate_tax env now amt pt user corr w = (Return resp, w')
          /\ tax_repository.tax_calculations (tax_service.db w')
             = tax_repository.tax_calculations (tax_service.db w)
               ++ match tax_facts.rules_for
                          (tax_repository.tax_rules (tax_service.db w)) pt with
                  | [] => []
                  | primary :: _ =>
                      [{| tax_models.calc_id :=
                            S (List.length
                                 (tax_repository.tax_calculations (tax_service.db w)));
                          tax_models.user_id := user;
                          tax_models.original_amount := float_of amt;
                          tax_models.tax_amount :=
                            float_of (tax_schemas.tax_amount resp);
                          tax_models.total_amount :=
                            float_of (tax_schemas.total_amount resp);
                          tax_models.calc_product_type := pt;
                          tax_models.rule_id := tax_models.id primary;
                          tax_models.correlation_id := corr;
                          tax_models.created_at := now |}]
                  end)
    /\ (forallb tax_facts.described
                (tax_facts.rules_for (tax_repository.tax_rules (tax_service.db w)) pt)
        = false ->
        snd (tax_service.calculate_tax env now amt pt user corr w) = w).
Proof.
  intros env now amt pt user corr w.
  rewrite <- applicable_rules_spec.
  destruct (forallb tax_facts.described
                    (tax_service.applicable_rules (tax_service.db w) pt)) eqn:Hdesc.
  - destruct (calculate_tax_run env now amt pt user corr w Hdesc)
      as (resp & w' & Hrun & _ & _ & _ & _ & _ & Hdb & _).
    rewrite Hrun. cbn [snd]. rewrite Hdb.
    split; [|split; [|discriminate]].
    + destruct (tax_service.applicable_rules (tax_service.db w) pt); reflexivity.
    + intros _. exists resp, w'. split; [reflexivity|]. rewrite Hdb.
      destruct (tax_service.applicable_rules (tax_service.db w) pt); simpl;
        [rewrite app_nil_r|]; reflexivity.
  - rewrite (calculate_tax_rejected env now amt pt user corr w Hdesc). cbn [snd].
    split; [reflexivity|]. split; [discriminate | reflexivity].
Qed.

(** X25.  Take a product type whose applicable rules all have a
    description.  With rates that are not negative, the tax on a
    non-negative amount is not negative and the total is at least the
    amount.  The tax is also additive in the amount: for one product type
    and one set of rules, taxing two amounts separately gives the same tax
    as taxing their sum. *)
Theorem tax_is_nonnegative_and_additive :
  forall env now a b pt user corr w,
    forallb tax_facts.described
            (tax_facts.rules_for (tax_repository.tax_rules (tax_service.db w)) pt)
    = true ->
    (Forall (fun r => (0 <= tax_models.rate r)%Q)
            (tax_repository.tax_rules (tax_service.db w)) ->
     (0 <= a)%Q ->
     exists resp,
       fst (tax_service.calculate_tax env now a pt user corr w) = Return resp
       /\ (0 <= tax_schemas.tax_amount resp)%Q
       /\ (a <= tax_schemas.total_amount resp)%Q)
    /\ exists ra rb rab,
         fst (tax_service.calculate_tax env now a pt user corr w) = Return ra
         /\ fst (tax_service.calculate_tax env now b pt user corr w) = Return rb
         /\ fst (tax_service.calculate_tax env now (a + b) pt user corr w) = Return rab
         /\ (tax_schemas.tax_amount rab
             == tax_schemas.tax_amount ra + tax_schemas.tax_amount rb)%Q.
Proof.
  intros env now a b pt user corr w Hdesc.
  rewrite <- applicable_rules_spec in Hdesc.
  destruct (calculate_tax_run env now a pt user corr w Hdesc)
    as (ra & wa & Hra & Hsa & _ & _ & Htot & _).
  destruct (calculate_tax_run env now b pt user corr w Hdesc)
    as (rb & wb & Hrb & Hsb & _).
  destruct (calculate_tax_run env now (a + b)%Q pt user corr w Hdesc)
    as (rab & wab & Hrab & Hsab & _).
  rewrite Hra, Hrb, Hrab. cbn [fst].
  split.
  - intros Hrates Ha. exists ra. split; [reflexivity|].
    assert (Happ : Forall (fun r => (0 <= tax_models.rate r)%Q)
                          (tax_service.applicable_rules (tax_service.db w) pt)).
    { rewrite Forall_forall in *. intros r Hin. apply Hrates.
      unfold tax_service.applicable_rules in Hin.
      destruct (tax_repository.get_tax_rules_by_product_type (tax_service.db w) pt)
        as [|s rest] eqn:Es.
      - destruct (tax_repository.get_default_tax_rule (tax_service.db w)) as [dr|] eqn:Ed;
          [|contradiction].
        destruct Hin as [<- | []].
        unfold tax_repository.get_default_tax_rule in Ed.
        apply find_some in Ed. destruct Ed as [Hin _]. exact Hin.
      - rewrite <- Es in Hin.
        unfold tax_repository.get_tax_rules_by_product_type in Hin.
        apply filter_In in Hin. destruct Hin as [Hin _]. exact Hin. }
    pose proof (sum_of_rule_taxes_nonneg Ha Happ) as Hnn.
    rewrite Htot. split; lra.
  - exists ra, rb, rab. repeat split.
    rewrite Hsab, Hsa, Hsb, sum_of_rule_taxes_add. ring.
Qed.

Lemma tax_is_nonnegative_and_additive_witness :
  exists ra rb rab,
    fst (tax_service.calculate_tax samples.broker_up 20 100 "digital" "alice" "corr-1"
           samples.tax_world) = Return ra
    /\ fst (tax_service.calculate_tax samples.broker_up 20 60 "digital" "alice" "corr-1"
              samples.tax_world) = Return rb
    /\ fst (tax_service.calculate_tax samples.broker_up 20 (100 + 60) "digital" "alice"
              "corr-1" samples.tax_world) = Return rab
    /\ (tax_schemas.tax_amount rab
        == tax_schemas.tax_amount ra + tax_schemas.tax_amount rb)%Q.
Proof.
  destruct (@tax_is_nonnegative_and_additive samples.broker_up 20 100 60
              "digital"%string "alice"%string "corr-1"%string samples.tax_world)
    as (_ & H).
  - reflexivity.
  - exact H.
Defined.

(** ** The discount route *)

(** X26.  The route [POST /apply-discount] answers a caller the
    middlewares have identified with the service's response, and every
    failure with status 500.  In particular a request without a user id,
    for which the route raises 401 inside its own [try] block, leaves the
    route as a 500 whose detail embeds that exception; nothing is stored or
    published for it. *)
Theorem apply_discount_route_answers :
  forall env now str state amount coupon_code w,
    match truthy_str (match discount_routes.state_user_id state with
                      | Some u => u
                      | None => None
                      end),
          discount_routes.state_correlation_id state with
    | Some user, Some corr =>
        discount_routes.apply_discount env now str state amount coupon_code w
        = discount_service.apply_discount env now amount coupon_code
            (match discount_routes.state_user_id state with
             | Some u => u
             | None => None
             end) corr w
        /\ exists resp,
             fst (discount_routes.apply_discount env now str state amount coupon_code w)
             = Return resp
    | None, _ =>
        discount_routes.apply_discount env now str state amount coupon_code w
        = (Raise (HTTPException 500
                    ("An error occurred: "
                       ++ str (HTTPException 401 "Invalid authentication credentials"))),
           w)
    | Some user, None =>
        discount_routes.apply_discount env now str state amount coupon_code w
        = (Raise (HTTPException 500
                    ("An error occurred: " ++ str (AttributeError "correlation_id"))),
           w)
    end.
Proof.
  intros env now str state amount coupon_code w.
  unfold discount_routes.apply_discount, try_except.
  destruct (truthy_str _) as [user|].
  - destruct (discount_routes.state_correlation_id state) as [corr|].
    + destruct (apply_discount_run env now amount coupon_code
                  (match discount_routes.state_user_id state with
                   | Some u => u
                   | None => None
                   end) corr w) as (w' & Hrun & _).
      rewrite Hrun. split; [reflexivity|]. eexists. reflexivity.
    + reflexivity.
  - reflexivity.
Qed.

(** Alice gets her coupon discount; a caller without identity gets a 500. *)
Example apply_discount_route_on_sample_requests :
  (exists resp w',
      discount_routes.apply_discount samples.broker_up 20 fixtures.detail_only
        fixtures.alice_state 200 (Some "SAVE10"%string) samples.discount_world
      = (Return resp, w')
      /\ (discount_schemas.discount_amount resp == 15)%Q)
  /\ discount_routes.apply_discount samples.broker_up 20 fixtures.detail_only
       fixtures.anonymous_state 200 (Some "SAVE10"%string) samples.discount_world
     = (Raise (HTTPException 500
                 "An error occurred: Invalid authentication credentials"),
        samples.discount_world).
Proof.
  split; [|reflexivity].
  eexists. eexists. split; [reflexivity|]. reflexivity.
Qed.

(** ** The authentication middleware *)

(** X27.  The middleware hands a request on in two cases only.  A path on
    the exemption list goes through without a look at its headers.  Any other
    request goes through exactly when its [Authorization] header consists of
    two words, the first being [bearer] in any capitalisation, and the
    second a token the key verifies whose [user_id] claim is truthy; that
    claim is then what the route sees as the caller.  Every other request is
    refused with status 401. *)
Theorem jwt_middleware_admits :
  forall jwt_decode exempt path authorization,
    (exempt path = true ->
     jwt_auth.jwt_middleware jwt_decode exempt path authorization = Return None)
    /\ (exempt path = false ->
        (forall user_id,
            jwt_auth.jwt_middleware jwt_decode exempt path authorization
            = Return (Some user_id)
            <-> exists header scheme token payload,
                  authorization = Some header
                  /\ jwt_auth.split header = [scheme; token]
                  /\ jwt_auth.lower scheme = "bearer"%string
                  /\ jwt_decode token = Some payload
                  /\ dict_get payload "user_id" VNone = user_id
                  /\ truthy user_id = true)
        /\ jwt_auth.jwt_middleware jwt_decode exempt path authorization <> Return None
        /\ forall e,
             jwt_auth.jwt_middleware jwt_decode exempt path authorization = Raise e ->
             exists detail, e = HTTPException 401 detail).
Proof.
  intros jwt_decode exempt path authorization.
  unfold jwt_auth.jwt_middleware.
  split; [intros ->; reflexivity|].
  intros ->.
  split; [|split].
  - intros user_id. split.
    + destruct authorization as [header|]; simpl; [|discriminate].
      destruct (String.eqb header "") eqn:Ehd; [discriminate|].
      destruct (jwt_auth.split header) as [|scheme [|token [|x rest]]] eqn:Esp;
        try discriminate.
      destruct (String.eqb (jwt_auth.lower scheme) "bearer") eqn:Esc;
        simpl; [|discriminate].
      destruct (jwt_decode token) as [payload|] eqn:Edec; [|discriminate].
      destruct (truthy (dict_get payload "user_id" VNone)) eqn:Etr;
        simpl; [|discriminate].
      intros H. inversion H; subst user_id.
      exists header, scheme, token, payload.
      apply String.eqb_eq in Esc. repeat split; assumption.
    + intros (header & scheme & token & payload & -> & Hsp & Hsc & Hdec & Hid & Htr).
      simpl.
      assert (Hne : String.eqb header "" = false).
      { destruct header; [|reflexivity]. discriminate Hsp. }
      rewrite Hne, Hsp, Hsc. simpl. rewrite Hdec, Hid, Htr. reflexivity.
  - destruct (truthy_str authorization) as [header|]; [|discriminate].
    destruct (jwt_auth.split header) as [|scheme [|token [|x rest]]]; try discriminate.
    destruct (negb (String.eqb (jwt_auth.lower scheme) "bearer")); [discriminate|].
    destruct (jwt_decode token) as [payload|]; [|discriminate].
    destruct (negb (truthy (dict_get payload "user_id" VNone))); discriminate.
  - intros e.
    destruct (truthy_str authorization) as [header|];
      [|intros H; inversion H; eexists; reflexivity].
    destruct (jwt_auth.split header) as [|scheme [|token [|x rest]]];
      try (intros H; inversion H; eexists; reflexivity).
    destruct (negb (String.eqb (jwt_auth.lower scheme) "bearer"));
      [intros H; inversion H; eexists; reflexivity|].
    destruct (jwt_decode token) as [payload|];
      [|intros H; inversion H; eexists; reflexivity].
    destruct (negb (truthy (dict_get payload "user_id" VNone)));
      intros H; inversion H; eexists; reflexivity.
Qed.

(** The header is read leniently and the path strictly: extra blanks and
    another capitalisation of the scheme are fine, a third word is not; the
    payment service's webhook is exempt under its full path, which the
    shared middleware would not exempt. *)
Example jwt_middleware_on_sample_requests :
  jwt_auth.jwt_middleware fixtures.known_token jwt_auth.exempt_payment
    "/api/v1/payments" (Some "  BEARER   tok-alice ")
  = Return (Some (VStr "alice"))
  /\ jwt_auth.jwt_middleware fixtures.known_token jwt_auth.exempt_payment
       "/api/v1/payments" (Some "Bearer tok-alice extra")
     = Raise (HTTPException 401 "Invalid authentication credentials")
  /\ jwt_auth.jwt_middleware fixtures.known_token jwt_auth.exempt_payment
       "/api/v1/payments" (Some "Basic tok-alice")
     = Raise (HTTPException 401 "Invalid authentication scheme")
  /\ jwt_auth.jwt_middleware fixtures.known_token jwt_auth.exempt_payment
       "/api/v1/webhook" None
     = Return None
  /\ jwt_auth.jwt_middleware fixtures.known_token jwt_auth.exempt_shared
       "/api/v1/webhook" None
     = Raise (HTTPException 401 "Authorization header missing").
Proof. repeat split. Qed.

(** ** The payment service as a consumer *)

Lemma payment_handler_only_logs :
  forall (c : event_consumer.Consumer payment_service.World) m,
    event_consumer.event_handlers c
    = [("invoice_created"%string, payment_service.handle_invoice_created)] ->
    exists c',
      event_consumer.process_message m c = (Return tt, c')
      /\ event_consumer.event_handlers c' = event_consumer.event_handlers c
      /\ event_consumer.acked c'
         = event_consumer.acked c ++ [event_consumer.delivery_tag m]
      /\ event_consumer.rejected c' = event_consumer.rejected c
      /\ payment_service.db (event_consumer.app c')
         = payment_service.db (event_consumer.app c)
      /\ payment_service.bus (event_consumer.app c')
         = payment_service.bus (event_consumer.app c).
Proof.
  intros c m Hh.
  destruct (process_message_run m c) as (c' & Hr & Hh' & Ha & Hrej & Happ).
  exists c'. split; [exact Hr|]. split; [exact Hh'|]. split; [exact Ha|].
  split; [exact Hrej|].
  rewrite Happ, Hh.
  destruct (event_consumer.msg_body m) as [| |[| | | | | | |d|]];
    try (split; reflexivity).
  destruct (dict_get d "event_type" VNone) as [| | | |s| | | |];
    try (split; reflexivity).
  destruct (String.eqb s ""); [split; reflexivity|].
  cbn [event_consumer.get_item].
  destruct (String.eqb "invoice_created" s); split; reflexivity.
Qed.

(** X28.  The payment service acknowledges every event it is sent and acts
    on none.  Its consumer, with the one handler registered when the module
    is loaded, takes any run of deliveries (invoice events of either kind,
    events of unknown type, bodies that do not decode) without raising or
    rejecting, and leaves the payment database and the publisher exactly as
    they were. *)
Theorem payment_consumer_only_logs :
  forall w messages,
  exists c',
    event_consumer.consume messages (payment_consumer.event_consumer w) = (Return tt, c')
    /\ event_consumer.acked c' = map event_consumer.delivery_tag messages
    /\ event_consumer.rejected c' = []
    /\ payment_service.db (event_consumer.app c') = payment_service.db w
    /\ payment_service.bus (event_consumer.app c') = payment_service.bus w.
Proof.
  intros w messages.
  assert (H : forall (c : event_consumer.Consumer payment_service.World),
             event_consumer.event_handlers c
             = [("invoice_created"%string, payment_service.handle_invoice_created)] ->
             exists c',
               event_consumer.consume messages c = (Return tt, c')
               /\ event_consumer.acked c'
                  = event_consumer.acked c ++ map event_consumer.delivery_tag messages
               /\ event_consumer.rejected c' = event_consumer.rejected c
               /\ payment_service.db (event_consumer.app c')
                  = payment_service.db (event_consumer.app c)
               /\ payment_service.bus (event_consumer.app c')
                  = payment_service.bus (event_consumer.app c)).
  { induction messages as [|m rest IH]; intros c Hh; simpl.
    - exists c. rewrite app_nil_r. repeat split.
    - destruct (@payment_handler_only_logs c m Hh)
        as (c1 & Hr & Hh1 & Ha1 & Hrej1 & Hdb1 & Hbus1).
      erewrite bind_return by exact Hr.
      rewrite <- Hh1 in Hh.
      destruct (IH c1 Hh) as (c' & Hr' & Ha' & Hrej' & Hdb' & Hbus').
      exists c'. split; [exact Hr'|].
      rewrite Ha', Ha1, Hrej', Hrej1, Hdb', Hdb1, Hbus', Hbus1, <- app_assoc.
      repeat split. }
  destruct (H (payment_consumer.event_consumer w) eq_refl)
    as (c' & Hr & Ha & Hrej & Hdb & Hbus).
  exists c'. split; [exact Hr|]. split; [exact Ha|]. split; [exact Hrej|].
  split; [exact Hdb | exact Hbus].
Qed.

(** ** The mock gateway *)

(** X29.  With the mock gateway, a payment by a valid method that the
    database accepts and whose details carry a card number (or none) is
    declined exactly when the card number ends in 0000.  A declined payment
    comes back FAILED with the message [Card was declined] and no payment
    date; any other comes back COMPLETED with the payment date set and the
    mock transaction id as external reference.  Either way one attempt is
    recorded for it. *)
Theorem create_payment_mock_gateway_outcomes :
  forall http env now user inv_id inv_number amt method details corr w card_number,
    existsb (String.eqb method) payment_models.PaymentMethod_values = true ->
    payment_webhooks.insertable (payment_service.db w) now inv_id inv_number = true ->
    dict_get details "card_number" (VStr "") = VStr card_number ->
    exists p w' a,
      payment_service.create_payment true http env now user inv_id inv_number amt
        method details corr w = (Return p, w')
      /\ (if endswith card_number "0000"
          then payment_models.status p = payment_models.FAILED
               /\ payment_models.status_message p = Some "Card was declined"%string
               /\ payment_models.payment_date p = None
               /\ payment_models.external_reference p = None
               /\ payment_models.success a = 0
          else payment_models.status p = payment_models.COMPLETED
               /\ payment_models.status_message p = None
               /\ payment_models.payment_date p = Some now
               /\ payment_models.external_reference p
                  = Some ("mock-txn-" ++ payment_service.nat_str now)%string
               /\ payment_models.success a = 1)
      /\ payment_repository.payment_attempts (payment_service.db w')
         = payment_repository.payment_attempts (payment_service.db w) ++ [a]
      /\ payment_models.payment_id a = payment_models.id p.
Proof.
  intros http env now user inv_id inv_number amt method details corr w card_number
         Hmethod Hins Hcard.
  assert (Hgw : forall metadata w1,
             exists response,
               payment_service.process_payment true http now (float_of amt) "USD" method
                 details metadata w1 = (Return response, w1)
               /\ response
                  = if endswith card_number "0000"
                    then [("success"%string, VBool false);
                          ("error_code"%string, VStr "card_declined");
                          ("error_message"%string, VStr "Card was declined");
                          ("transaction_id"%string, VNone)]
                    else [("success"%string, VBool true);
                          ("transaction_id"%string,
                           VStr ("mock-txn-" ++ payment_service.nat_str now));
                          ("status"%string, VStr "completed");
                          ("details"%string,
                           VDict [("amount"%string, VNum (float_of amt));
                                  ("currency"%string, VStr "USD");
                                  ("payment_method"%string, VStr method)])]).
  { intros metadata w1.
    unfold payment_service.process_payment, payment_service.mock_process_payment.
    rewrite Hcard. destruct (endswith card_number "0000"); eexists; split; reflexivity. }
  destruct (Hgw [("user_id"%string, VStr user);
                 ("invoice_id"%string, VInt inv_id);
                 ("invoice_number"%string, VStr inv_number);
                 ("payment_id"%string,
                  VInt (S (List.length
                             (payment_repository.payments (payment_service.db w)))));
                 ("correlation_id"%string, opt_str corr)]
                {| payment_service.db :=
                     payment_repository.insert
                       (payment_repository.new_payment now user inv_id inv_number
                          (float_of amt) "USD" method details
                          payment_models.PROCESSING (payment_service.db w))
                       (payment_service.db w);
                   payment_service.bus := payment_service.bus w;
                   payment_service.log := payment_service.log w |})
    as (response & Hrun & Hresp).
  destruct (@create_payment_run true http env now user inv_id inv_number amt method
              details corr w response _ Hmethod Hins Hrun)
    as (p & w' & a & Hcreate & Hp & _ & Hatt & Ha & _).
  exists p, w', a. split; [exact Hcreate|].
  split; [|split; [exact Hatt | subst a; reflexivity]].
  destruct (endswith card_number "0000"); subst response; simpl in Hp, Ha;
    subst p a; repeat split.
Qed.

Lemma create_payment_mock_gateway_outcomes_witness :
  exists p w' a,
    payment_service.create_payment true (payment_service.HttpRaises "") samples.broker_down
      20 "alice" 1 "INV-1" 105 "paypal"
      [("card_number"%string, VStr "4111111111110000")] None
      samples.empty_payment_world = (Return p, w')
    /\ payment_models.status p = payment_models.FAILED
    /\ payment_models.success a = 0.
Proof.
  destruct (@create_payment_mock_gateway_outcomes (payment_service.HttpRaises "")
              samples.broker_down 20 "alice"%string 1 "INV-1"%string 105
              "paypal"%string [("card_number"%string, VStr "4111111111110000")] None
              samples.empty_payment_world "4111111111110000"%string
              eq_refl eq_refl eq_refl)
    as (p & w' & a & Hrun & Hout & _).
  exists p, w', a. split; [exact Hrun|].
  simpl in Hout. destruct Hout as (Hst & _ & _ & _ & Hs). split; assumption.
Defined.

(** ** Updating a draft *)


Section UpdateApplied.

Import invoice_models invoice_repository.







End UpdateApplied.


